(** * Dex-Net grasp-metric computation ([dexnet/api.py]): a shallow embedding

    The development follows [DexNet._gravity_wrench],
    [DexNet._compute_metrics] and [DexNet.compute_metrics].

    Numbers.  Masses, angles, wrenches and qualities are modelled by exact
    rationals [Q]; equality of numeric results is [Qeq] ([==]).  The
    probabilities of the stable poses are binary64 floats, and the
    renormalisation [p / np.sum(p)] and the tests [np.random.choice] makes
    on its weights are computed in binary64 arithmetic, where rounding,
    overflow, underflow and [nan] decide what the sampler does. *)

From Stdlib Require Import QArith Qabs ZArith Lia SpecFloat.
From stdpp Require Import gmap strings list fin_maps.

Open Scope Q_scope.

(** ** Geometry and physical data *)

(** A numpy vector of three entries and a 3x3 array given by its rows. *)
Record vec3 := Vec3 { vx : Q; vy : Q; vz : Q }.
Record mat3 := Mat3 { row0 : vec3; row1 : vec3; row2 : vec3 }.

(** One-dimensional numpy arrays of arbitrary length. *)
Definition ndarray := list Q.

Definition to_array (v : vec3) : ndarray := [vx v; vy v; vz v].

(** [c * a] for a scalar [c], [-a], and [u.dot(v)]. *)
Definition np_scale (c : Q) (a : ndarray) : ndarray := (fun x => c * x) <$> a.
Definition np_neg (a : ndarray) : ndarray := Qopp <$> a.
Definition np_append (a b : ndarray) : ndarray := a ++ b.
Definition np_dot (u v : vec3) : Q := vx u * vx v + vy u * vy v + vz u * vz v.

(** Entry-wise numeric equality of arrays. *)
Definition array_eq (a b : ndarray) : Prop := Forall2 Qeq a b.

(** [obj.key], [obj.mass]. *)
Record graspable := Graspable { key : string; mass : Q }.

(** [stable_pose.id], [stable_pose.r] (row 2 is the table normal in the
    object frame), [stable_pose.p] (a binary64 float). *)
Record stable_pose := StablePose { sp_id : string; r : mat3; p : spec_float }.

(** ** [DexNet._gravity_wrench]

    [GRAVITY_ACCEL] comes from [dexnet.constants], which is not part of the
    sources at hand: it is a parameter of the definition. *)
Definition _gravity_wrench (GRAVITY_ACCEL : Q) (obj : graspable) (stable_pose : stable_pose)
  : ndarray :=
  let gravity_magnitude := mass obj * GRAVITY_ACCEL in
  let stable_pose_normal := to_array (row2 (r stable_pose)) in
  let gravity_force := np_scale (- gravity_magnitude) stable_pose_normal in
  let gravity_resist_wrench := np_neg (np_append gravity_force [0; 0; 0]) in
  gravity_resist_wrench.

(** The force part (first three entries) and the torque part of a wrench. *)
Definition force_component (w : ndarray) : ndarray := take 3 w.
Definition torque_component (w : ndarray) : ndarray := drop 3 w.

(** ** Exceptions and results *)

Inductive exn :=
| ValueError (msg : string)
| RuntimeError (msg : string)
| RuntimeWarning (msg : string)
| AttributeError (msg : string)
| IndexError
| ZeroDivisionError
| OtherError (msg : string).

Inductive result (A : Type) :=
| Ok (a : A)
| Raise (e : exn).
Arguments Ok {A} a.
Arguments Raise {A} e.

(** [x < y] on rationals. *)
Definition Qltb (x y : Q) : bool := if Qlt_le_dec x y then true else false.

(** ** float64 probabilities

    The probability of a stable pose and the weights computed from the
    probabilities are IEEE-754 binary64 numbers, with the arithmetic of the
    Standard Library's [SpecFloat] (precision 53, exponent bound 1024,
    rounding to nearest even): a sum can overflow to an infinity, a quotient
    is rounded and can underflow to zero, and a division by zero does not
    raise, it yields an infinity or [nan]. *)
Definition float64 : Type := spec_float.

(** The float nearest to an integer. *)
Definition float_of_Z (z : Z) : float64 := binary_normalize 53 1024 z 0 false.

Definition fadd : float64 → float64 → float64 := SFadd 53 1024.
Definition fsub : float64 → float64 → float64 := SFsub 53 1024.
Definition fdiv : float64 → float64 → float64 := SFdiv 53 1024.
Definition fabs : float64 → float64 := SFabs.

(** The float nearest to [n / d], for integers [n] and [d] that are floats
    themselves: the value of a decimal literal such as [0.1]. *)
Definition float_of_ratio (n d : Z) : float64 := fdiv (float_of_Z n) (float_of_Z d).

Definition f_zero : float64 := S754_zero false.
Definition f_one : float64 := float_of_Z 1.

(** [x < y] and [x == y]; both are [False] when an operand is [nan]. *)
Definition flt (x y : float64) : bool := SFltb x y.
Definition feq (x y : float64) : bool := SFeqb x y.

Definition is_nan (x : float64) : bool :=
  match x with S754_nan => true | _ => false end.

(** [x == 0.0] *)
Definition is_zero (x : float64) : bool :=
  match x with S754_zero _ => true | _ => false end.

(** What the sampler uses of numpy and what it cannot fix about it: the
    order in which [np.sum] adds the entries of an array is numpy's own (all
    that is assumed of it is that zeros add up to zero); whether
    [np.random.choice] tests the weights for [nan] before the draw, and the
    wording of two of its messages, depend on the release. *)
Class Numpy := {
  np_sum : list float64 → float64;
  np_sum_zeros : ∀ a, Forall (fun x => is_zero x = true) a → is_zero (np_sum a) = true;
  rejects_nan : bool;
  empty_population_message : string;
  size_mismatch_message : string
}.

(** ** The stable-pose sampler (lines 500-503 of [_compute_metrics]) *)

(** [p = p / np.sum(p)] *)
Definition renormalize `{Numpy} (ps : list float64) : list float64 :=
  let s := np_sum ps in (fun x => fdiv x s) <$> ps.

(** [w > 0] and [w < 0] *)
Definition is_positive (w : float64) : bool := flt f_zero w.
Definition is_negative (w : float64) : bool := flt w f_zero.

(** [np.count_nonzero(p > 0)] *)
Definition count_positive (ws : list float64) : nat :=
  length (filter (fun w => Is_true (is_positive w)) ws).

(** The compensated sum [np.random.choice] takes of the weights. *)
Definition kahan_step (acc : float64 * float64) (x : float64) : float64 * float64 :=
  let y := fsub x acc.2 in
  let t := fadd acc.1 y in
  (t, fsub (fsub t acc.1) y).

Definition kahan_sum (ws : list float64) : float64 :=
  match ws with
  | [] => f_zero
  | x :: rest => (foldl kahan_step (x, f_zero) rest).1
  end.

(** [atol = np.sqrt(np.finfo(np.float64).eps)], which is [2 ** -26]. *)
Definition atol : float64 := SFsqrt 53 1024 (SFldexp 53 1024 f_one (-52)).

(** [abs(p_sum - 1.) > atol] *)
Definition off_by_more_than_atol (p_sum : float64) : bool :=
  flt atol (fabs (fsub p_sum f_one)).

(** The positions of the positive weights, in increasing order, the first
    position being numbered [k]. *)
Fixpoint positive_indices_from (k : nat) (ws : list float64) : list nat :=
  match ws with
  | [] => []
  | w :: ws' =>
      if is_positive w then k :: positive_indices_from (S k) ws'
      else positive_indices_from (S k) ws'
  end.

Definition positive_indices (ws : list float64) : list nat :=
  positive_indices_from 0 ws.

(** The random source.  [oracle] stands for the stream of positions the
    generator proposes; the draw keeps the first [size] distinct proposals of
    positive weight, and completes them from the remaining positions of
    positive weight should the proposals run out.  Every oracle therefore
    gives a draw without replacement among the entries of positive weight,
    and every such draw is given by some oracle (itself). *)
Fixpoint first_occurrences (l : list nat) : list nat :=
  match l with
  | [] => []
  | i :: l' => i :: filter (fun j => j ≠ i) (first_occurrences l')
  end.

Definition draw_indices (oracle : list nat) (ws : list float64) (size : nat) : list nat :=
  let eligible := positive_indices ws in
  take size (first_occurrences (filter (fun i => i ∈ eligible) oracle ++ eligible)).

(** [a[i] for i in ixs] *)
Definition pick {A} (a : list A) (ixs : list nat) : list A :=
  omap (fun i => a !! i) ixs.

(** [np.random.choice(a, size=size, replace=False, p=ws).tolist()] for a list
    [a], by the tests numpy makes, in its order, each raising [ValueError]:
    an empty population (the sampler asks a non-zero size of it), weights of
    another length, a compensated sum that is [nan] (in the releases that
    test it), a negative weight, a compensated sum further than [atol] from
    1, a sample larger than the population, a negative size, fewer than
    [size] positive weights.  The draw itself returns entries at [size]
    distinct positions of positive weight. *)
Definition np_random_choice `{Numpy} {A} (oracle : list nat) (a : list A) (size : Z)
    (ws : list float64) : result (list A) :=
  if bool_decide (a = []) then Raise (ValueError empty_population_message)
  else if negb (length ws =? length a)%nat then Raise (ValueError size_mismatch_message)
  else
    let p_sum := kahan_sum ws in
    if rejects_nan && is_nan p_sum then Raise (ValueError "probabilities contain NaN")
    else if existsb is_negative ws then
      Raise (ValueError "probabilities are not non-negative")
    else if off_by_more_than_atol p_sum then
      Raise (ValueError "probabilities do not sum to 1")
    else if (Z.of_nat (length a) <? size)%Z then
      Raise (ValueError "Cannot take a larger sample than population when 'replace=False'")
    else if (size <? 0)%Z then Raise (ValueError "negative dimensions are not allowed")
    else if (Z.of_nat (count_positive ws) <? size)%Z then
      Raise (ValueError "Fewer non-zero entries in p than size")
    else Ok (pick a (draw_indices oracle ws (Z.to_nat size))).

(** Lines 500-503: subsample when there are more poses than
    [config['max_stable_poses']]. *)
Definition sample_stable_poses `{Numpy} (oracle : list nat) (stable_poses : list stable_pose)
    (max_stable_poses : Z) : result (list stable_pose) :=
  if (max_stable_poses <? Z.of_nat (length stable_poses))%Z then
    let ps := p <$> stable_poses in
    let ws := renormalize ps in
    np_random_choice oracle stable_poses max_stable_poses ws
  else Ok stable_poses.

(** ** Vocabulary for the statements on the sampler *)

(** numpy takes [ws] for weights that sum to one: their compensated sum is a
    number no further than [atol] from 1. *)
Definition sums_to_one_within_atol (ws : list float64) : Prop :=
  is_nan (kahan_sum ws) = false ∧ off_by_more_than_atol (kahan_sum ws) = false.

(** [np.random.choice] accepts [ws] as probabilities. *)
Definition accepted_as_probabilities (ws : list float64) : Prop :=
  sums_to_one_within_atol ws ∧ Forall (fun w => is_negative w = false) ws.

(** [np.sum(ws) == 1.0] *)
Definition sums_to_one `{Numpy} (ws : list float64) : Prop := feq (np_sum ws) f_one = true.

(** ** Metric configurations, grippers, grasps *)

(** A [GraspQualityConfig]: the method tag, the auxiliary fields that
    [_compute_metrics] writes ([target_wrench] and the parameters merged in
    from the gripper; an attribute that was never set is [None]), and the
    method-specific numeric parameters. *)
Record GraspQualityConfig := MetricConfig {
  quality_method : string;
  target_wrench : option ndarray;
  max_approach_table_angle : Q;
  force_limits : option Q;
  finger_radius : option Q;
  inner_radius : option Q;
  height : option Q;
  params : gmap string Q
}.

Module RobotGripper.
(** [hasattr(gripper, 'inner_radius')] is [is_Some (inner_radius g)]. *)
Record t := Make {
  name : string;
  type : string;
  force_limit : Q;
  finger_radius : Q;
  inner_radius : option Q;
  height : option Q
}.
End RobotGripper.

(** What [_compute_metrics] uses of a grasp; [dexnet.grasping] is not among
    the sources at hand. *)
Class GraspOps (G : Type) := {
  grasp_id : G → Z;
  (** [grasp.perpendicular_table(stable_pose)] *)
  grasp_perpendicular_table : G → stable_pose → G;
  (** [grasp.grasp_angles_from_stp_z(stable_pose)] *)
  grasp_angles_from_stp_z : G → stable_pose → Q * Q * Q;
  (** [grasp.T_obj_grasp.x_axis] *)
  x_axis : G → vec3
}.

(** The Grasp Metrics Record: grasp id to metric name to quality. *)
Abbreviation grasp_metrics_record := (gmap Z (gmap string Q)).

(** The dataset and the database ([dexnet.database]), through the calls the
    metric computation makes. *)
Class Dataset (G D : Type) := {
  ds_object_keys : D → list string;
  ds_getitem : D → string → graspable;
  ds_has_grasps : D → string → string → bool;
  ds_grasps : D → string → string → list G;
  ds_stable_poses : D → string → list stable_pose;
  ds_stable_pose : D → string → string → stable_pose;
  ds_has_metric : D → string → bool;
  ds_create_metric : D → string → GraspQualityConfig → D;
  (** [dataset.grasp_metrics(key, [grasp], gripper=name)[grasp.id]] *)
  ds_grasp_metrics : D → string → G → string → gmap string Q;
  ds_delete_grasp_metrics : D → string → list G → string → string → D;
  ds_store_grasp_metrics : D → string → grasp_metrics_record → string → bool → D
}.

Class Database (DB : Type) := {
  db_flush : DB → DB
}.

(** The remaining collaborators: constants, [np.deg2rad], the configuration
    and quality-function factories, gripper loading and the gripper
    directory. *)
Class Collaborators (G Spec : Type) := {
  GRAVITY_ACCEL : Q;
  np_deg2rad : Q → Q;
  create_config : Spec → result GraspQualityConfig;
  create_quality_function : graspable → GraspQualityConfig → result (G → result Q);
  RobotGripper_load : string → string → result RobotGripper.t;
  list_grippers : string → list string
}.

(** The merged configuration dictionary [config], by the keys read here. *)
Record api_config (Spec : Type) := ApiConfig {
  gripper_dir : string;
  max_stable_poses : Z;
  metrics : gmap string Spec;
  delete_previous_metrics : bool;
  metric_display_rate : Z
}.
Arguments ApiConfig {Spec}.
Arguments gripper_dir {Spec} _.
Arguments max_stable_poses {Spec} _.
Arguments metrics {Spec} _.
Arguments delete_previous_metrics {Spec} _.
Arguments metric_display_rate {Spec} _.

(** ** Calls on the collaborators, as observed from outside *)

Inductive event (G : Type) :=
| EvGrasps (obj_key gripper : string)
| EvStablePoses (obj_key : string)
| EvStablePose (obj_key pose_id : string)
| EvRandomChoice (size : Z)
| EvCreateConfig (metric_name : string)
| EvDeleteGraspMetrics (obj_key metric_name gripper : string)
| EvHasMetric (metric_name : string) (found : bool)
| EvCreateMetric (metric_name : string) (cfg : GraspQualityConfig)
| EvCreateQualityFunction (obj_key : string) (cfg : GraspQualityConfig)
| EvGraspMetrics (obj_key : string) (gid : Z) (gripper : string)
| EvQualityFn (metric_name : string) (grasp : G)
| EvStoreGraspMetrics (obj_key : string) (record : grasp_metrics_record)
    (gripper : string) (force_overwrite : bool)
| EvLoadGripper (gripper : string)
| EvHasGrasps (obj_name gripper : string) (found : bool)
| EvGetObject (obj_name : string)
| EvFlush
| EvGcCollect.
Arguments EvGrasps {G}.
Arguments EvStablePoses {G}.
Arguments EvStablePose {G}.
Arguments EvRandomChoice {G}.
Arguments EvCreateConfig {G}.
Arguments EvDeleteGraspMetrics {G}.
Arguments EvHasMetric {G}.
Arguments EvCreateMetric {G}.
Arguments EvCreateQualityFunction {G}.
Arguments EvGraspMetrics {G}.
Arguments EvQualityFn {G}.
Arguments EvStoreGraspMetrics {G}.
Arguments EvLoadGripper {G}.
Arguments EvHasGrasps {G}.
Arguments EvGetObject {G}.
Arguments EvFlush {G}.
Arguments EvGcCollect {G}.

Definition is_store {G} (e : event G) : bool :=
  match e with EvStoreGraspMetrics _ _ _ _ => true | _ => false end.
Definition is_flush {G} (e : event G) : bool :=
  match e with EvFlush => true | _ => false end.
Definition is_quality_call {G} (e : event G) : bool :=
  match e with EvQualityFn _ _ => true | _ => false end.
Definition is_missing_grasps {G} (e : event G) : bool :=
  match e with EvHasGrasps _ _ false => true | _ => false end.

(** ** The state of a [DexNet] object and of its surroundings

    [database] and [dataset] are [None] until opened; [progress] is the field
    read by the progress bar; [rng] is the state of numpy's global generator,
    one oracle per future call of [np.random.choice]; [trace] lists the calls
    made so far, oldest first. *)
Record world (G D DB : Type) := World {
  database : option DB;
  dataset : option D;
  progress : Q;
  rng : list (list nat);
  trace : list (event G)
}.
Arguments World {G D DB}.
Arguments database {G D DB} _.
Arguments dataset {G D DB} _.
Arguments progress {G D DB} _.
Arguments rng {G D DB} _.
Arguments trace {G D DB} _.

(** ** A state-and-exception monad

    A computation runs from a world to a result and a world; a raised
    exception keeps the world reached when it was raised. *)
Section Monad.
Context {G D DB : Type}.

Definition M (A : Type) : Type := world G D DB → result A * world G D DB.

Definition ret {A} (a : A) : M A := fun w => (Ok a, w).

Definition bind {A B} (m : M A) (f : A → M B) : M B :=
  fun w => match m w with
           | (Ok a, w') => f a w'
           | (Raise e, w') => (Raise e, w')
           end.

Definition raise {A} (e : exn) : M A := fun w => (Raise e, w).

Definition lift {A} (x : result A) : M A := fun w => (x, w).

Definition log (e : event G) : M unit :=
  fun w => (Ok tt, World (database w) (dataset w) (progress w) (rng w) (trace w ++ [e])).

(** [self.dataset.<call>]: an attribute of [None] cannot be read. *)
Definition get_dataset : M D :=
  fun w => match dataset w with
           | Some d => (Ok d, w)
           | None => (Raise (AttributeError "'NoneType' object has no attribute"), w)
           end.

Definition put_dataset (d : D) : M unit :=
  fun w => (Ok tt, World (database w) (Some d) (progress w) (rng w) (trace w)).

Definition get_database : M DB :=
  fun w => match database w with
           | Some d => (Ok d, w)
           | None => (Raise (AttributeError "'NoneType' object has no attribute"), w)
           end.

Definition put_database (d : DB) : M unit :=
  fun w => (Ok tt, World (Some d) (dataset w) (progress w) (rng w) (trace w)).

Definition set_progress (q : Q) : M unit :=
  fun w => (Ok tt, World (database w) (dataset w) q (rng w) (trace w)).

(** The oracle of the next call of the generator; the generator advances
    only when it is called. *)
Definition next_oracle (called : bool) : M (list nat) :=
  fun w => if called
           then (Ok (hd [] (rng w)),
                 World (database w) (dataset w) (progress w) (tl (rng w)) (trace w))
           else (Ok [], w).

(** [for x in l: s = body(x, s)] *)
Fixpoint fold_loop {A S} (body : A → S → M S) (l : list A) (s : S) : M S :=
  match l with
  | [] => ret s
  | x :: l' => bind (body x s) (fold_loop body l')
  end.

Definition for_each {A} (body : A → M unit) (l : list A) : M unit :=
  fold_loop (fun x _ => body x) l tt.

End Monad.

Notation "x <- m ;; k" := (bind m (fun x => k))
  (at level 100, m at next level, right associativity, only parsing).
Notation "m ;;; k" := (bind m (fun _ => k))
  (at level 100, right associativity, only parsing).

(** ** Vocabulary for traces *)

(** Every run of [m] appends events to the trace, all of them in [P]. *)
Definition emits {G D DB A} (P : event G → Prop) (m : @M G D DB A) : Prop :=
  ∀ w, ∃ evs, trace (m w).2 = trace w ++ evs ∧ Forall P evs.

(** The calls made while the record is accumulated: everything but the
    persistence calls and the calls of the outer loops. *)
Definition is_pass_event {G} (e : event G) : bool :=
  match e with
  | EvStoreGraspMetrics _ _ _ _ | EvFlush | EvGcCollect
  | EvHasGrasps _ _ _ | EvGetObject _ | EvLoadGripper _ => false
  | _ => true
  end.

(** The message of the missing-grasps error (line 689). *)
Definition no_grasps_message (gripper obj_name : string) : string :=
  "No grasps exist for gripper " +:+ gripper +:+ " on object " +:+ obj_name.

(** A run stops at the first failed grasp check: either no check failed, or
    the failed check is the last event and the run raised the missing-grasps
    error. *)
Definition halts_on_missing_grasps {G D DB A} (m : @M G D DB A) : Prop :=
  ∀ w, ∃ evs, trace (m w).2 = trace w ++ evs ∧
    (Forall (fun e => is_missing_grasps e = false) evs
     ∨ ∃ pre o g, evs = pre ++ [EvHasGrasps o g false]
         ∧ Forall (fun e => is_missing_grasps e = false) pre
         ∧ (m w).1 = Raise (RuntimeWarning (no_grasps_message g o))).

(** ** [DexNet._compute_metrics] *)
Section ComputeMetrics.
Context {G D DB Spec : Type}.
Context `{!GraspOps G, !Dataset G D, !Database DB, !Collaborators G Spec, !Numpy}.

Local Abbreviation M := (@M G D DB).

(** The gravity-dependent quality methods (lines 526-528 and 573-575). *)
Definition is_gravity_method (quality_method : string) : bool :=
  String.eqb quality_method "partial_closure"
  || String.eqb quality_method "wrench_resistance"
  || String.eqb quality_method "suction_wrench_resistance".

(** [cfg = copy.copy(metric_config); cfg.target_wrench = w] *)
Definition with_target_wrench (cfg : GraspQualityConfig) (w : ndarray) : GraspQualityConfig :=
  MetricConfig (quality_method cfg) (Some w) (max_approach_table_angle cfg)
    (force_limits cfg) (finger_radius cfg) (inner_radius cfg) (height cfg) (params cfg).

(** Lines 521-538: the names and the configurations to evaluate.  The loop
    over the stable poses appends to both lists. *)
Definition expand_variants (obj : graspable) (metric_name : string)
    (metric_config : GraspQualityConfig) (stable_poses : list stable_pose)
  : list string * list GraspQualityConfig :=
  if is_gravity_method (quality_method metric_config) then
    foldl (fun acc stable_pose =>
             let gravity_metric_config :=
               with_target_wrench metric_config
                 (_gravity_wrench GRAVITY_ACCEL obj stable_pose) in
             (acc.1 ++ [metric_name +:+ "_" +:+ sp_id stable_pose],
              acc.2 ++ [gravity_metric_config]))
          ([], []) stable_poses
  else ([metric_name], [metric_config]).

(** [zip(metric_names, metric_configs)] *)
Definition metric_variants (obj : graspable) (metric_name : string)
    (metric_config : GraspQualityConfig) (stable_poses : list stable_pose)
  : list (string * GraspQualityConfig) :=
  let v := expand_variants obj metric_name metric_config stable_poses in
  zip v.1 v.2.

(** Lines 550-555: the gripper's mechanical parameters are attached to the
    configuration. *)
Definition add_gripper_params (gripper : RobotGripper.t) (cfg : GraspQualityConfig)
  : GraspQualityConfig :=
  MetricConfig (quality_method cfg) (target_wrench cfg) (max_approach_table_angle cfg)
    (Some (RobotGripper.force_limit gripper))
    (Some (RobotGripper.finger_radius gripper))
    (match RobotGripper.inner_radius gripper with
     | Some x => Some x | None => inner_radius cfg end)
    (match RobotGripper.height gripper with
     | Some x => Some x | None => height cfg end)
    (params cfg).

(** Lines 580-584: the grasp handed to the check and to the quality
    function. *)
Definition align_grasp (gripper : RobotGripper.t) (grasp : G) (stable_pose : stable_pose) : G :=
  if String.eqb (RobotGripper.type gripper) "parallel_jaw"
  then grasp_perpendicular_table grasp stable_pose
  else grasp.

(** Lines 587-591: the value of the local [perpendicular_table]. *)
Definition perpendicular_table (metric_config : GraspQualityConfig) (aligned_grasp : G)
    (stable_pose : stable_pose) : bool :=
  let max_approach_table_angle := np_deg2rad (max_approach_table_angle metric_config) in
  let grasp_approach_table_angle := (grasp_angles_from_stp_z aligned_grasp stable_pose).1.2 in
  let stp_z := row2 (r stable_pose) in
  let stp_z_ip := np_dot stp_z (x_axis aligned_grasp) in
  Qltb (Qabs grasp_approach_table_angle) max_approach_table_angle && Qltb stp_z_ip 0.

(** [grasp_metrics[grasp.id][metric_name] = q] *)
Definition record_quality (grasp_metrics : grasp_metrics_record) (gid : Z)
    (metric_name : string) (q : Q) : grasp_metrics_record :=
  <[gid := <[metric_name := q]> (default ∅ (grasp_metrics !! gid))]> grasp_metrics.

(** Lines 567-568. *)
Definition init_grasp_entry (grasp_metrics : grasp_metrics_record) (gid : Z)
  : grasp_metrics_record :=
  match grasp_metrics !! gid with
  | Some _ => grasp_metrics
  | None => <[gid := ∅]> grasp_metrics
  end.

(** [quality_fn(grasp).quality] *)
Definition call_quality_fn (metric_name : string) (quality_fn : G → result Q) (grasp : G)
  : M Q :=
  log (EvQualityFn metric_name grasp) ;;;
  lift (quality_fn grasp).

(** Lines 562-564. *)
Definition report_progress (config : api_config Spec) (k n_grasps : nat) : M unit :=
  if (metric_display_rate config =? 0)%Z then raise ZeroDivisionError
  else if (Z.of_nat k mod metric_display_rate config =? 0)%Z
       then set_progress ((inject_Z (Z.of_nat k) + 1) / inject_Z (Z.of_nat n_grasps))
       else ret tt.

(** [stable_poses[ind]] *)
Definition index_pose (stable_poses : list stable_pose) (ind : nat) : M stable_pose :=
  match stable_poses !! ind with
  | Some sp => ret sp
  | None => raise IndexError
  end.

(** Lines 561-612: the body of the loop over the grasps, for one variant. *)
Definition grasp_body (obj : graspable) (gripper : RobotGripper.t)
    (config : api_config Spec) (overwrite : bool) (stable_poses : list stable_pose)
    (ind : nat) (n_grasps : nat) (metric_name : string) (metric_config : GraspQualityConfig)
    (quality_fn : G → result Q)
    (kg : nat * G) (grasp_metrics : grasp_metrics_record) : M grasp_metrics_record :=
  let k := kg.1 in
  let grasp := kg.2 in
  report_progress config k n_grasps ;;;
  let grasp_metrics := init_grasp_entry grasp_metrics (grasp_id grasp) in
  d <- get_dataset ;;
  log (EvGraspMetrics (key obj) (grasp_id grasp) (RobotGripper.name gripper)) ;;;
  let existing_metrics := ds_grasp_metrics d (key obj) grasp (RobotGripper.name gripper) in
  if is_gravity_method (quality_method metric_config) then
    stable_pose <- index_pose stable_poses ind ;;
    let aligned_grasp := align_grasp gripper grasp stable_pose in
    if perpendicular_table metric_config aligned_grasp stable_pose then
      q <- call_quality_fn metric_name quality_fn aligned_grasp ;;
      ret (record_quality grasp_metrics (grasp_id grasp) metric_name q)
    else
      ret (record_quality grasp_metrics (grasp_id grasp) metric_name 0)
  else
    if bool_decide (is_Some (existing_metrics !! metric_name)) && negb overwrite then
      ret grasp_metrics
    else
      q <- call_quality_fn metric_name quality_fn grasp ;;
      ret (record_quality grasp_metrics (grasp_id grasp) metric_name q).

(** [enumerate(grasps)] *)
Definition enumerate {A} (l : list A) : list (nat * A) := zip (seq 0 (length l)) l.

(** Lines 542-615: the body of the loop over the variants; the state is the
    index [ind] and the record. *)
Definition variant_body (obj : graspable) (gripper : RobotGripper.t)
    (config : api_config Spec) (overwrite : bool) (stable_poses : list stable_pose)
    (grasps : list G) (v : string * GraspQualityConfig) (st : nat * grasp_metrics_record)
  : M (nat * grasp_metrics_record) :=
  let metric_name := v.1 in
  let metric_config := v.2 in
  let ind := st.1 in
  d <- get_dataset ;;
  log (EvHasMetric metric_name (ds_has_metric d metric_name)) ;;;
  (if ds_has_metric d metric_name then ret tt
   else log (EvCreateMetric metric_name metric_config) ;;;
        put_dataset (ds_create_metric d metric_name metric_config)) ;;;
  let metric_config := add_gripper_params gripper metric_config in
  log (EvCreateQualityFunction (key obj) metric_config) ;;;
  quality_fn <- lift (create_quality_function obj metric_config) ;;
  grasp_metrics <- fold_loop
    (grasp_body obj gripper config overwrite stable_poses ind (length grasps)
       metric_name metric_config quality_fn)
    (enumerate grasps) st.2 ;;
  ret (S ind, grasp_metrics).

(** Lines 513-615: the body of the loop over the metrics. *)
Definition metric_body (obj : graspable) (gripper : RobotGripper.t)
    (config : api_config Spec) (overwrite : bool) (stable_poses : list stable_pose)
    (grasps : list G) (m : string * Spec) (grasp_metrics : grasp_metrics_record)
  : M grasp_metrics_record :=
  let metric_name := m.1 in
  log (EvCreateConfig metric_name) ;;;
  metric_config <- lift (create_config m.2) ;;
  (if delete_previous_metrics config then
     d <- get_dataset ;;
     log (EvDeleteGraspMetrics (key obj) metric_name (RobotGripper.name gripper)) ;;;
     put_dataset (ds_delete_grasp_metrics d (key obj) grasps metric_name
                    (RobotGripper.name gripper))
   else ret tt) ;;;
  st <- fold_loop (variant_body obj gripper config overwrite stable_poses grasps)
          (metric_variants obj metric_name metric_config stable_poses)
          (0%nat, grasp_metrics) ;;
  ret st.2.

(** Lines 495-498. *)
Definition load_stable_poses (obj : graspable) (stable_pose_id : option string)
  : M (list stable_pose) :=
  d <- get_dataset ;;
  match stable_pose_id with
  | None => log (EvStablePoses (key obj)) ;;; ret (ds_stable_poses d (key obj))
  | Some i => log (EvStablePose (key obj) i) ;;; ret [ds_stable_pose d (key obj) i]
  end.

(** Lines 500-503, with the generator's state. *)
Definition subsample_stable_poses (config : api_config Spec) (stable_poses : list stable_pose)
  : M (list stable_pose) :=
  let called := (max_stable_poses config <? Z.of_nat (length stable_poses))%Z in
  oracle <- next_oracle called ;;
  (if called then log (EvRandomChoice (max_stable_poses config)) else ret tt) ;;;
  lift (sample_stable_poses oracle stable_poses (max_stable_poses config)).

(** Lines 506-508. *)
Definition metric_dict (config : api_config Spec) (metric_name : option string)
  : list (string * Spec) :=
  match metric_name with
  | Some n =>
      match metrics config !! n with
      | Some spec => [(n, spec)]
      | None => map_to_list (metrics config)
      end
  | None => map_to_list (metrics config)
  end.

(** Lines 491-615: everything before the record is stored. *)
Definition accumulate_grasp_metrics (obj : graspable) (gripper : RobotGripper.t)
    (config : api_config Spec) (stable_pose_id : option string)
    (metric_name : option string) (overwrite : bool) : M grasp_metrics_record :=
  d <- get_dataset ;;
  log (EvGrasps (key obj) (RobotGripper.name gripper)) ;;;
  let grasps := ds_grasps d (key obj) (RobotGripper.name gripper) in
  stable_poses <- load_stable_poses obj stable_pose_id ;;
  stable_poses <- subsample_stable_poses config stable_poses ;;
  fold_loop (metric_body obj gripper config overwrite stable_poses grasps)
    (metric_dict config metric_name) ∅.

(** Lines 617-619. *)
Definition store_grasp_metrics (obj : graspable) (gripper : RobotGripper.t)
    (grasp_metrics : grasp_metrics_record) (force_overwrite : bool) : M unit :=
  d <- get_dataset ;;
  log (EvStoreGraspMetrics (key obj) grasp_metrics (RobotGripper.name gripper)
         force_overwrite) ;;;
  put_dataset (ds_store_grasp_metrics d (key obj) grasp_metrics
                 (RobotGripper.name gripper) force_overwrite).

Definition _compute_metrics (obj : graspable) (gripper : RobotGripper.t)
    (config : api_config Spec) (stable_pose_id : option string)
    (metric_name : option string) (overwrite : bool) : M unit :=
  grasp_metrics <- accumulate_grasp_metrics obj gripper config stable_pose_id
                     metric_name overwrite ;;
  store_grasp_metrics obj gripper grasp_metrics true.

End ComputeMetrics.

(** ** [DexNet.compute_metrics] *)
Section Orchestrator.
Context {G D DB Spec : Type}.
Context `{!GraspOps G, !Dataset G D, !Database DB, !Collaborators G Spec, !Numpy}.

Local Abbreviation M := (@M G D DB).

(** [DexNet._check_opens] *)
Definition _check_opens : M unit :=
  fun w =>
    match database w with
    | None => (Raise (RuntimeError "You must open a database first"), w)
    | Some _ =>
        match dataset w with
        | None => (Raise (RuntimeError "You must open a dataset first"), w)
        | Some _ => (Ok tt, w)
        end
    end.

(** Lines 663-675: restrict a list of names to the requested one. *)
Definition select_name (kind : string) (all : list string) (requested : option string)
  : M (list string) :=
  match requested with
  | None => ret all
  | Some n =>
      if bool_decide (n ∈ all) then ret [n]
      else raise (ValueError (n +:+ " is not a valid " +:+ kind +:+ " name"))
  end.

(** Lines 677-682. *)
Definition select_metrics (config : api_config Spec) (metric_name : option string)
  : M (list string) :=
  match metric_name with
  | Some n =>
      if bool_decide (is_Some (metrics config !! n)) then ret [n]
      else raise (RuntimeError ("Metric " +:+ n +:+ " does not exist"))
  | None => ret ((map_to_list (metrics config)).*1)
  end.

(** [self.database.flush()] *)
Definition flush : M unit :=
  db <- get_database ;;
  log EvFlush ;;;
  put_database (db_flush db).

(** Lines 687-700: the body of the innermost loop, for one
    (object, gripper, metric) tuple. *)
Definition tuple_body (config : api_config Spec) (stable_pose : option string)
    (overwrite : bool) (obj_name : string) (gripper : RobotGripper.t) (metric : string)
  : M unit :=
  d <- get_dataset ;;
  let found := ds_has_grasps d obj_name (RobotGripper.name gripper) in
  log (EvHasGrasps obj_name (RobotGripper.name gripper) found) ;;;
  if negb found then
    raise (RuntimeWarning (no_grasps_message (RobotGripper.name gripper) obj_name))
  else
    log (EvGetObject obj_name) ;;;
    let obj := ds_getitem d obj_name in
    _compute_metrics obj gripper config stable_pose (Some metric) overwrite ;;;
    flush ;;;
    log EvGcCollect.

(** Lines 684-700: the loop over the grippers, for one object. *)
Definition gripper_body (config : api_config Spec) (stable_pose : option string)
    (overwrite : bool) (metrics : list string) (obj_name : string) (gripper_name : string)
  : M unit :=
  log (EvLoadGripper gripper_name) ;;;
  gripper <- lift (RobotGripper_load gripper_name (gripper_dir config)) ;;
  for_each (tuple_body config stable_pose overwrite obj_name gripper) metrics.

(** [config] is the merged configuration, the value of
    [self._get_config(config)]. *)
Definition compute_metrics (config : api_config Spec) (metric_name object_name
    gripper_name stable_pose : option string) (overwrite : bool) : M unit :=
  _check_opens ;;;
  grippers <- select_name "gripper" (list_grippers (gripper_dir config)) gripper_name ;;
  d <- get_dataset ;;
  objects <- select_name "object" (ds_object_keys d) object_name ;;
  metrics <- select_metrics config metric_name ;;
  for_each (fun obj_name =>
              for_each (gripper_body config stable_pose overwrite metrics obj_name) grippers)
           objects.

End Orchestrator.

(** ** Vocabulary for the statements on the grasp loop *)

(** The value recorded for a grasp under a metric name, if any. *)
Definition recorded (grasp_metrics : grasp_metrics_record) (gid : Z) (metric_name : string)
  : option Q :=
  grasp_metrics !! gid ≫= fun per_grasp => per_grasp !! metric_name.

(** The world with one more event on its trace. *)
Definition with_event {G D DB} (w : world G D DB) (e : event G) : world G D DB :=
  World (database w) (dataset w) (progress w) (rng w) (trace w ++ [e]).

(** The world with another dataset. *)
Definition with_dataset {G D DB} (w : world G D DB) (d : D) : world G D DB :=
  World (database w) (Some d) (progress w) (rng w) (trace w).

(** ** Vocabulary for the statements on a whole pass *)

(** The calls that mark the progress of a pass through its loops: the lookup
    of a variant's name, which opens the work on the variant (line 544), and
    the query of a grasp's stored metrics, made once in every iteration of
    the loop over the grasps (line 570). *)
Inductive processing_mark :=
| VariantStarted (metric_name : string)
| GraspProcessed (gid : Z).

Definition processing_mark_of {G} (e : event G) : option processing_mark :=
  match e with
  | EvHasMetric metric_name _ => Some (VariantStarted metric_name)
  | EvGraspMetrics _ gid _ => Some (GraspProcessed gid)
  | _ => None
  end.

Definition processing_marks {G} (evs : list (event G)) : list processing_mark :=
  omap processing_mark_of evs.

(** Every run of [m] that returns has appended events whose marks are
    [marks]. *)
Definition leaves_marks {G D DB A} (m : @M G D DB A) (marks : list processing_mark) : Prop :=
  ∀ w a w', m w = (Ok a, w') →
    ∃ evs, trace w' = trace w ++ evs ∧ processing_marks evs = marks.

(** The stable poses a pass starts from (lines 495-498). *)
Definition listed_stable_poses {G D} `{!Dataset G D} (d : D) (obj : graspable)
    (stable_pose_id : option string) : list stable_pose :=
  match stable_pose_id with
  | None => ds_stable_poses d (key obj)
  | Some i => [ds_stable_pose d (key obj) i]
  end.

Section PassPlan.
Context {G Spec : Type} `{!GraspOps G, !Collaborators G Spec}.

(** The names of the variants of a metric: one per retained stable pose for
    a gravity-dependent method, the metric's own name otherwise. *)
Definition variant_names (metric_name quality_method : string)
    (stable_poses : list stable_pose) : list string :=
  if is_gravity_method quality_method
  then (fun stable_pose => metric_name +:+ "_" +:+ sp_id stable_pose) <$> stable_poses
  else [metric_name].

(** Every grasp of a variant, every variant of a metric, every metric of a
    pass: the marks a pass leaves when it works through all of them, in the
    order of the loops. *)
Definition variant_plan (grasps : list G) (variant_name : string) : list processing_mark :=
  VariantStarted variant_name :: ((fun grasp => GraspProcessed (grasp_id grasp)) <$> grasps).

Definition metric_plan (stable_poses : list stable_pose) (grasps : list G)
    (m : string * Spec) : list processing_mark :=
  match create_config m.2 with
  | Ok metric_config =>
      variant_names m.1 (quality_method metric_config) stable_poses ≫= variant_plan grasps
  | Raise _ => []
  end.

Definition pass_plan (stable_poses : list stable_pose) (grasps : list G)
    (metrics : list (string * Spec)) : list processing_mark :=
  metrics ≫= metric_plan stable_poses grasps.

End PassPlan.

(** ** A concrete scenario

    One object of mass 1 kg resting on poses of identity orientation (table
    normal [0,0,1]), a parallel-jaw gripper, and grasps described by their
    approach angle and lateral axis. *)
Module Scenario.

Definition g_earth : Q := 981 # 100.

Definition unit_object : graspable := Graspable "mug" 1.

Definition identity_rotation : mat3 :=
  Mat3 (Vec3 1 0 0) (Vec3 0 1 0) (Vec3 0 0 1).

Definition pose (id : string) (prob : float64) : stable_pose :=
  StablePose id identity_rotation prob.

Definition flat_pose : stable_pose := pose "pose_0" f_one.

(** Three poses, only the first of which has positive probability. *)
Definition poses_one_likely : list stable_pose :=
  [pose "pose_0" f_one; pose "pose_1" f_zero; pose "pose_2" f_zero].

(** Three poses of probabilities 0.1, 0.3 and 0.6. *)
Definition poses_weighted : list stable_pose :=
  [pose "pose_0" (float_of_ratio 1 10); pose "pose_1" (float_of_ratio 3 10);
   pose "pose_2" (float_of_ratio 6 10)].

(** Two poses of probability zero. *)
Definition poses_all_zero : list stable_pose :=
  [pose "pose_0" f_zero; pose "pose_1" f_zero].

(** Three poses of probabilities 0.1, 0.2 and 0.3, which do not add up to
    one. *)
Definition poses_tenths : list stable_pose :=
  [pose "pose_0" (float_of_ratio 1 10); pose "pose_1" (float_of_ratio 2 10);
   pose "pose_2" (float_of_ratio 3 10)].

(** Three poses whose field [p] holds 1e308; any two of them add up to more
    than the largest float. *)
Definition poses_huge : list stable_pose :=
  [pose "pose_0" (float_of_Z (10 ^ 308)); pose "pose_1" (float_of_Z (10 ^ 308));
   pose "pose_2" (float_of_Z (10 ^ 308))].

(** A numpy that adds the entries of an array from left to right and tests
    the weights of a draw for [nan]. *)
Definition sequential_sum (a : list float64) : float64 := foldl fadd f_zero a.

Lemma sequential_sum_zeros (a : list float64) :
  Forall (fun x => is_zero x = true) a → is_zero (sequential_sum a) = true.
Proof.
  unfold sequential_sum. generalize (eq_refl : is_zero f_zero = true).
  generalize f_zero as acc. induction a as [| x a IH]; intros acc Hacc Ha; [exact Hacc |].
  apply Forall_cons in Ha as [Hx Ha]. simpl. apply IH; [| exact Ha].
  destruct acc as [[] | | |], x as [[] | | |]; done.
Qed.

#[export] Instance sequential_numpy : Numpy := {|
  np_sum := sequential_sum;
  np_sum_zeros := sequential_sum_zeros;
  rejects_nan := true;
  empty_population_message := "'a' cannot be empty unless no samples are taken";
  size_mismatch_message := "'a' and 'p' must have same size"
|}.

(** Grasps: identifier, whether it has been re-aligned, approach angle to
    the table (radians), lateral axis. *)
Record toy_grasp := ToyGrasp {
  tg_id : Z;
  tg_aligned : bool;
  tg_angle : Q;
  tg_x_axis : vec3
}.

#[export] Instance toy_grasp_ops : GraspOps toy_grasp := {|
  grasp_id := tg_id;
  grasp_perpendicular_table g _ := ToyGrasp (tg_id g) true (tg_angle g) (tg_x_axis g);
  grasp_angles_from_stp_z g _ := (0, tg_angle g, 0);
  x_axis := tg_x_axis
|}.

(** A grasp straight down on the table and one from the side. *)
Definition top_grasp : toy_grasp := ToyGrasp 0 false 0 (Vec3 0 0 (-1)).
Definition side_grasp : toy_grasp := ToyGrasp 1 false (157 # 100) (Vec3 1 0 0).

(** An in-memory dataset. *)
Record toy_dataset := ToyDataset {
  td_objects : list graspable;
  td_grasps : gmap (string * string) (list toy_grasp);
  td_poses : list stable_pose;
  td_metric_names : list string;
  td_stored : grasp_metrics_record
}.

Definition td_store (stored record : grasp_metrics_record) (force_overwrite : bool)
  : grasp_metrics_record :=
  union_with (fun old new => Some (if force_overwrite then new ∪ old else old ∪ new))
    stored record.

#[export] Instance toy_dataset_ops : Dataset toy_grasp toy_dataset := {|
  ds_object_keys d := key <$> td_objects d;
  ds_getitem d k :=
    default (Graspable k 0) (snd <$> list_find (fun o => key o = k) (td_objects d));
  ds_has_grasps d o g := bool_decide (is_Some (td_grasps d !! (o, g)));
  ds_grasps d o g := default [] (td_grasps d !! (o, g));
  ds_stable_poses d _ := td_poses d;
  ds_stable_pose d _ i :=
    default flat_pose (snd <$> list_find (fun s => sp_id s = i) (td_poses d));
  ds_has_metric d n := bool_decide (n ∈ td_metric_names d);
  ds_create_metric d n _ :=
    ToyDataset (td_objects d) (td_grasps d) (td_poses d) (td_metric_names d ++ [n])
      (td_stored d);
  ds_grasp_metrics d _ g _ := default ∅ (td_stored d !! tg_id g);
  ds_delete_grasp_metrics d _ _ n _ :=
    ToyDataset (td_objects d) (td_grasps d) (td_poses d) (td_metric_names d)
      (delete n <$> td_stored d);
  ds_store_grasp_metrics d _ record _ force_overwrite :=
    ToyDataset (td_objects d) (td_grasps d) (td_poses d) (td_metric_names d)
      (td_store (td_stored d) record force_overwrite)
|}.

(** The database counts its flushes. *)
#[export] Instance toy_database_ops : Database nat := {| db_flush := S |}.

(** A quality function that scores every grasp 1/2, the specification of a
    metric being its configuration; 314159/18000000 stands for pi/180. *)
#[export] Instance toy_collaborators : Collaborators toy_grasp GraspQualityConfig := {|
  GRAVITY_ACCEL := g_earth;
  np_deg2rad x := x * (314159 # 18000000);
  create_config spec := Ok spec;
  create_quality_function _ cfg :=
    if is_gravity_method (quality_method cfg)
       || String.eqb (quality_method cfg) "force_closure"
    then Ok (fun _ => Ok (1 # 2))
    else Raise (ValueError "Invalid quality method");
  RobotGripper_load n _ := Ok (RobotGripper.Make n "parallel_jaw" 100 (1 # 100) None None);
  list_grippers _ := ["yumi"]
|}.

Definition yumi : RobotGripper.t :=
  RobotGripper.Make "yumi" "parallel_jaw" 100 (1 # 100) None None.

Definition wrench_resistance_config : GraspQualityConfig :=
  MetricConfig "wrench_resistance" None 90 None None None None ∅.

Definition force_closure_config : GraspQualityConfig :=
  MetricConfig "force_closure" None 90 None None None None ∅.

Definition config : api_config GraspQualityConfig :=
  ApiConfig "grippers" 2
    {[ "wr" := wrench_resistance_config; "fc" := force_closure_config ]} false 1.

(** The object with grasps for the gripper, one stable pose. *)
Definition dataset_with_grasps : toy_dataset :=
  ToyDataset [unit_object] {[ ("mug", "yumi") := [top_grasp; side_grasp] ]}
    [flat_pose] [] ∅.

(** The same object before any grasp was sampled. *)
Definition dataset_without_grasps : toy_dataset :=
  ToyDataset [unit_object] ∅ [flat_pose] [] ∅.

(** The object with grasps, the force-closure metric already stored for
    grasp 0. *)
Definition dataset_with_metrics : toy_dataset :=
  ToyDataset [unit_object] {[ ("mug", "yumi") := [top_grasp; side_grasp] ]}
    [flat_pose] ["fc"] {[ 0%Z := {[ "fc" := 1 # 4 ]} ]}.

(** The quality function of the scenario. *)
Definition half : toy_grasp → result Q := fun _ => Ok (1 # 2).

Definition world_of (d : toy_dataset) : world toy_grasp toy_dataset nat :=
  World (Some 0%nat) (Some d) 0 [] [].

End Scenario.

(** ** Configuration dictionaries ([DexNet._deep_update_config], lines 116-130)

    A configuration value is a mapping from keys to values or any other
    Python value.  A [dict] is represented by its items, keys distinct,
    in iteration order. *)

#[warnings="-register-all"] Inductive config_value (A : Type) :=
| Leaf (a : A)
| Mapping (items : list (string * config_value A)).
Arguments Leaf {A} a.
Arguments Mapping {A} items.

(** [d.get(k)] *)
Fixpoint dict_get {V} (d : list (string * V)) (k : string) : option V :=
  match d with
  | [] => None
  | (k', v) :: d' => if String.eqb k' k then Some v else dict_get d' k
  end.

(** [d[k] = v]: the value of an existing key is replaced, a new key is
    added. *)
Fixpoint dict_set {V} (d : list (string * V)) (k : string) (v : V) : list (string * V) :=
  match d with
  | [] => [(k, v)]
  | (k', v') :: d' =>
      if String.eqb k' k then (k, v) :: d' else (k', v') :: dict_set d' k v
  end.

(** The exceptions of the update: [updates.iteritems()] and [config.get] on
    a value that is no mapping ([AttributeError]), [config[key] = value] on
    a value that is no mapping ([TypeError]). *)
Definition no_iteritems : exn := AttributeError "object has no attribute 'iteritems'".
Definition no_get : exn := AttributeError "object has no attribute 'get'".
Definition no_item_assignment : exn :=
  OtherError "TypeError: object does not support item assignment".

(** [config[key] = value] *)
Definition setitem {A} (config : config_value A) (key : string) (value : config_value A)
  : result (config_value A) :=
  match config with
  | Mapping d => Ok (Mapping (dict_set d key value))
  | Leaf _ => Raise no_item_assignment
  end.

(** [config.get(key, {})] *)
Definition get_or_empty {A} (config : config_value A) (key : string)
  : result (config_value A) :=
  match config with
  | Mapping d => Ok (default (Mapping []) (dict_get d key))
  | Leaf _ => Raise no_get
  end.

(** [DexNet._deep_update_config(config, updates)].  The inner loop runs over
    [updates.iteritems()]; the dictionary is updated in place and returned,
    which the model renders by passing it along. *)
Fixpoint _deep_update_config {A} (config updates : config_value A) {struct updates}
  : result (config_value A) :=
  match updates with
  | Leaf _ => Raise no_iteritems
  | Mapping items =>
      (fix loop (items : list (string * config_value A)) (config : config_value A)
         {struct items} : result (config_value A) :=
         match items with
         | [] => Ok config
         | (key, value) :: rest =>
             match value with
             | Mapping _ =>
                 match get_or_empty config key with
                 | Ok sub =>
                     match _deep_update_config sub value with
                     | Ok merged =>
                         match setitem config key merged with
                         | Ok config' => loop rest config'
                         | Raise e => Raise e
                         end
                     | Raise e => Raise e
                     end
                 | Raise e => Raise e
                 end
             | Leaf _ =>
                 match setitem config key value with
                 | Ok config' => loop rest config'
                 | Raise e => Raise e
                 end
             end
         end) items config
  end.

(** [DexNet._get_config(updates)], [default_config] being
    [self.default_config.config]; the deep copy makes the result independent
    of the defaults. *)
Definition _get_config {A} (default_config : config_value A)
    (updates : option (config_value A)) : result (config_value A) :=
  match updates with
  | None => Ok default_config
  | Some u => _deep_update_config default_config u
  end.

(** One iteration of the loop of [_deep_update_config]. *)
Definition update_item {A} (config : config_value A) (key : string)
    (value : config_value A) : result (config_value A) :=
  match value with
  | Mapping _ =>
      match get_or_empty config key with
      | Ok sub =>
          match _deep_update_config sub value with
          | Ok merged => setitem config key merged
          | Raise e => Raise e
          end
      | Raise e => Raise e
      end
  | Leaf _ => setitem config key value
  end.

(** The loop, item by item. *)
Fixpoint update_items {A} (items : list (string * config_value A))
    (config : config_value A) : result (config_value A) :=
  match items with
  | [] => Ok config
  | (key, value) :: rest =>
      match update_item config key value with
      | Ok config' => update_items rest config'
      | Raise e => Raise e
      end
  end.

(** Keys are distinct at every level of a configuration value. *)
Fixpoint distinct_keys {A} (c : config_value A) : Prop :=
  match c with
  | Leaf _ => True
  | Mapping items =>
      NoDup items.*1
      ∧ (fix all (l : list (string * config_value A)) : Prop :=
           match l with
           | [] => True
           | (_, v) :: l' => distinct_keys v ∧ all l'
           end) items
  end.

(** Induction on configuration values, the values of a mapping included. *)
Fixpoint config_value_induction {A} (P : config_value A → Prop)
    (HLeaf : ∀ a, P (Leaf a))
    (HMapping : ∀ items, Forall (fun kv => P kv.2) items → P (Mapping items))
    (c : config_value A) {struct c} : P c :=
  match c with
  | Leaf a => HLeaf a
  | Mapping items =>
      HMapping items
        ((fix go (l : list (string * config_value A)) : Forall (fun kv => P kv.2) l :=
            match l with
            | [] => List.Forall_nil _
            | kv :: l' =>
                @List.Forall_cons _ (fun kv => P kv.2) kv l'
                  (config_value_induction P HLeaf HMapping kv.2) (go l')
            end) items)
  end.

(** ** [DexNet.export_objects] (lines 799-859) *)

(** The file-system and dataset calls of an export, in order. *)
Inductive export_call :=
| CallMakedirs (output_dir : string)
| CallObjMeshFilename (object_name : string) (scale : Q) (output_dir : string)
    (overwrite : bool)
| CallStlMeshFilename (object_name : string) (scale : Q) (output_dir : string)
    (overwrite : bool).

(** The keys of the configuration read by the export. *)
Record export_config := ExportConfig {
  export_format : string;
  export_scale : Q;
  export_overwrite : bool
}.

(** [dataset.object_metadata(object_name)], the metadata values being of type
    [V]. *)
Class MetadataStore (D V : Type) := {
  ds_object_metadata : D → string → gmap string V
}.

Section ExportObjects.
Context {G D DB V : Type} `{!Dataset G D, !MetadataStore D V}.

(** Lines 842-847: the loop over [export_filters.iteritems()], from the
    current value of [pass_filters]. *)
Fixpoint pass_filters_loop (metadata_dict : gmap string V)
    (export_filters : list (string * (V → bool))) (pass_filters : bool) : bool :=
  match export_filters with
  | [] => pass_filters
  | (metadata_name, filter_fn) :: rest =>
      match metadata_dict !! metadata_name with
      | None => false
      | Some x => pass_filters_loop metadata_dict rest (pass_filters && filter_fn x)
      end
  end.

(** Lines 848-859: the call made for an object that passes the filters. *)
Definition export_one (config : export_config) (output_dir object_name : string)
  : result export_call :=
  if String.eqb (export_format config) "obj" then
    Ok (CallObjMeshFilename object_name (export_scale config) output_dir
          (export_overwrite config))
  else if String.eqb (export_format config) "stl" then
    Ok (CallStlMeshFilename object_name (export_scale config) output_dir
          (export_overwrite config))
  else if String.eqb (export_format config) "urdf" then
    Ok (CallStlMeshFilename object_name (export_scale config) output_dir
          (export_overwrite config))
  else Raise (ValueError ("Export format " +:+ export_format config +:+ " not supported")).

(** Lines 839-859: the loop over [to_export]; the calls made, and how the
    loop ended. *)
Fixpoint export_loop (d : D) (config : export_config) (output_dir : string)
    (export_filters : list (string * (V → bool))) (to_export : list string)
  : list export_call * result unit :=
  match to_export with
  | [] => ([], Ok tt)
  | object_name :: rest =>
      let metadata_dict := ds_object_metadata d object_name in
      if pass_filters_loop metadata_dict export_filters true then
        match export_one config output_dir object_name with
        | Ok call =>
            let run := export_loop d config output_dir export_filters rest in
            (call :: run.1, run.2)
        | Raise e => ([], Raise e)
        end
      else export_loop d config output_dir export_filters rest
  end.

(** [export_objects(output_dir, export_filters, to_export, config)] on the
    [DexNet] object of the world [w]; [isdir] is the answer of
    [os.path.isdir(output_dir)], [config] the merged configuration. *)
Definition export_objects (w : world G D DB) (isdir : bool) (output_dir : string)
    (export_filters : list (string * (V → bool))) (to_export : option (list string))
    (config : export_config) : list export_call * result unit :=
  match _check_opens w, dataset w with
  | (Ok _, _), Some d =>
      let made := if isdir then [] else [CallMakedirs output_dir] in
      let to_export := default (ds_object_keys d) to_export in
      let run := export_loop d config output_dir export_filters to_export in
      (made ++ run.1, run.2)
  | (Ok _, _), None => ([], Raise (AttributeError "'NoneType' object has no attribute"))
  | (Raise e, _), _ => ([], Raise e)
  end.

End ExportObjects.

(** ** [DexNet.display_grasps]: the grasps drawn (lines 1140-1156) *)

Definition Qleb (x y : Q) : bool := negb (Qltb y x).

(** Lines 1140-1156 ([show_gripper] off): the (grasp, metric) pairs handed to
    [vis.grasp], [i] being the number of grasps drawn so far. *)
Fixpoint grasps_drawn {G} (min_metric : Q) (max_plot_gripper : Z) (i : Z)
    (l : list (G * Q)) : list (G * Q) :=
  match l with
  | [] => []
  | (grasp, metric) :: rest =>
      if Qleb metric min_metric then grasps_drawn min_metric max_plot_gripper i rest
      else
        (grasp, metric)
          :: (if (max_plot_gripper <=? i + 1)%Z then []
              else grasps_drawn min_metric max_plot_gripper (i + 1) rest)
  end.

(** ** [DexNet.sample_grasps] and [DexNet._single_obj_grasps]
    (lines 384-478) *)
Module Sampling.

(** The keys of the configuration read when sampling. *)
Record config := Config {
  gripper_dir : string;
  grasp_sampler : string;
  check_collisions : bool;
  max_grasp_sampling_iters : Z;
  grasp_gen_mult : Z
}.

(** The sampler classes of [dexnet.grasping.grasp_sampler]. *)
Inductive sampler_class :=
| SdfAntipodalGraspSampler
| MeshAntipodalGraspSampler
| GaussianGraspSampler
| UniformGraspSampler.

(** [cls(gripper, config).generate_grasps(obj, ...)], whose value (a tuple
    ending in the grasps) is of type [S]; and the two dataset calls on
    grasps. *)
Class Samplers (D S : Type) := {
  generate_grasps : sampler_class → RobotGripper.t → config → graspable → result S;
  ds_delete_grasps : D → string → string → D;
  ds_store_grasps : D → string → S → string → D
}.

End Sampling.

Section SampleGrasps.
Context {G D DB Spec S : Type}.
Context `{!Dataset G D, !Database DB, !Collaborators G Spec, !Sampling.Samplers D S}.

Local Abbreviation M := (@M G D DB).

(** [DexNet._single_obj_grasps(dataset, obj, gripper, config, stable_pose_id)];
    the body reads neither [dataset] nor [stable_pose_id]. *)
Definition _single_obj_grasps (dataset : D) (obj : graspable) (gripper : RobotGripper.t)
    (config : Sampling.config) (stable_pose_id : option string) : result S :=
  if String.eqb (Sampling.grasp_sampler config) "sdf_antipodal" then
    Sampling.generate_grasps Sampling.SdfAntipodalGraspSampler gripper config obj
  else if String.eqb (Sampling.grasp_sampler config) "mesh_antipodal" then
    Sampling.generate_grasps Sampling.MeshAntipodalGraspSampler gripper config obj
  else if String.eqb (Sampling.grasp_sampler config) "gaussian" then
    Sampling.generate_grasps Sampling.GaussianGraspSampler gripper config obj
  else if String.eqb (Sampling.grasp_sampler config) "uniform" then
    Sampling.generate_grasps Sampling.UniformGraspSampler gripper config obj
  else
    Raise (ValueError ("Gripper type " +:+ RobotGripper.type gripper +:+ " not supported!")).

(** Lines 462-469: whether the pair is to be sampled; existing grasps are
    deleted when [overwrite] is on and make the loop [continue] when it is
    off. *)
Definition prepare_pair (overwrite : bool) (gripper : RobotGripper.t)
    (object_name : string) : M bool :=
  d <- get_dataset ;;
  let found := ds_has_grasps d object_name (RobotGripper.name gripper) in
  log (EvHasGrasps object_name (RobotGripper.name gripper) found) ;;;
  if found then
    if overwrite then
      put_dataset (Sampling.ds_delete_grasps d object_name (RobotGripper.name gripper)) ;;;
      ret true
    else ret false
  else ret true.

(** Lines 462-478: the body of the inner loop, for one (gripper, object)
    pair.  The calls that have no event of their own are seen in the dataset
    they return. *)
Definition sample_pair (config : Sampling.config) (overwrite : bool)
    (stable_pose : option string) (gripper : RobotGripper.t) (object_name : string)
  : M unit :=
  proceed <- prepare_pair overwrite gripper object_name ;;
  if proceed then
    d <- get_dataset ;;
    log (EvGetObject object_name) ;;;
    let obj := ds_getitem d object_name in
    grasps <- lift (_single_obj_grasps d obj gripper config stable_pose) ;;
    d <- get_dataset ;;
    put_dataset (Sampling.ds_store_grasps d (key obj) grasps (RobotGripper.name gripper)) ;;;
    flush
  else ret tt.

(** Lines 459-478: the loop over the objects, for one gripper. *)
Definition sample_gripper (config : Sampling.config) (overwrite : bool)
    (stable_pose : option string) (objects : list string) (gripper_name : string)
  : M unit :=
  log (EvLoadGripper gripper_name) ;;;
  gripper <- lift (RobotGripper_load gripper_name (Sampling.gripper_dir config)) ;;
  for_each (sample_pair config overwrite stable_pose gripper) objects.

(** [sample_grasps(config, object_name, gripper_name, overwrite, stable_pose)],
    [config] being the merged configuration. *)
Definition sample_grasps (config : Sampling.config) (object_name gripper_name : option string)
    (overwrite : bool) (stable_pose : option string) : M unit :=
  _check_opens ;;;
  grippers <- select_name "gripper" (list_grippers (Sampling.gripper_dir config))
                gripper_name ;;
  d <- get_dataset ;;
  objects <- select_name "object" (ds_object_keys d) object_name ;;
  for_each (sample_gripper config overwrite stable_pose objects) grippers.

End SampleGrasps.

(** ** Further concrete data *)
Module Examples.
Import Scenario.

(** Metadata: the mug has one connected component and is watertight, any
    other object has no metadata. *)
#[export] Instance toy_metadata : MetadataStore toy_dataset Q := {|
  ds_object_metadata _ object_name :=
    if String.eqb object_name "mug"
    then {[ "num_con_comps" := 1; "watertightness" := 1 ]}
    else ∅
|}.

(** Samplers that return the two grasps of the scenario; sampled grasps are
    stored under the (object, gripper) pair. *)
#[export] Instance toy_samplers : Sampling.Samplers toy_dataset (list toy_grasp) := {|
  Sampling.generate_grasps _ _ _ _ := Ok [top_grasp; side_grasp];
  Sampling.ds_delete_grasps d o g :=
    ToyDataset (td_objects d) (delete (o, g) (td_grasps d)) (td_poses d)
      (td_metric_names d) (td_stored d);
  Sampling.ds_store_grasps d o s g :=
    ToyDataset (td_objects d) (<[(o, g) := s]> (td_grasps d)) (td_poses d)
      (td_metric_names d) (td_stored d)
|}.

Definition sampling_config (sampler : string) : Sampling.config :=
  Sampling.Config "grippers" sampler true 100 2.

(** Two objects, of which only the mug has metadata. *)
Definition dataset_two_objects : toy_dataset :=
  ToyDataset [unit_object; Graspable "bar" 2] ∅ [flat_pose] [] ∅.

(** Exactly one connected component. *)
Definition one_component : string * (Q → bool) :=
  ("num_con_comps", fun x => Qeq_bool x 1).

(** A default configuration and updates to it. *)
Definition defaults : config_value Z :=
  Mapping [("cache_dir", Leaf 0%Z);
           ("metrics", Mapping [("fc", Mapping [("friction_coef", Leaf 5%Z)])])].

Definition updates : config_value Z :=
  Mapping [("metrics", Mapping [("fc", Mapping [("num_cone_faces", Leaf 8%Z)])]);
           ("max_stable_poses", Leaf 3%Z)].

End Examples.
(** * Properties *)

(** ** Rational arithmetic helpers *)

Lemma Qltb_true (x y : Q) : Qltb x y = true ↔ x < y.
Proof.
  unfold Qltb. destruct (Qlt_le_dec x y) as [Hlt | Hle]; split; intros Hx;
    try done. exfalso. exact (Qle_not_lt _ _ Hle Hx).
Qed.

Lemma Qltb_false (x y : Q) : Qltb x y = false ↔ y <= x.
Proof.
  unfold Qltb. destruct (Qlt_le_dec x y) as [Hlt | Hle]; split; intros Hx;
    try done. exfalso. exact (Qle_not_lt _ _ Hx Hlt).
Qed.

(** ** The gravity wrench *)

Lemma gravity_wrench_entries (g : Q) (obj : graspable) (sp : stable_pose) :
  array_eq (_gravity_wrench g obj sp)
    [mass obj * g * vx (row2 (r sp));
     mass obj * g * vy (row2 (r sp));
     mass obj * g * vz (row2 (r sp)); 0; 0; 0].
Proof.
  unfold _gravity_wrench, array_eq, np_neg, np_append, np_scale, to_array. simpl.
  repeat constructor; ring.
Qed.

(** ** The draw *)

Lemma positive_indices_from_spec (ws : list float64) (k i : nat) :
  i ∈ positive_indices_from k ws ↔
  (k ≤ i)%nat ∧ ∃ w, ws !! (i - k)%nat = Some w ∧ is_positive w = true.
Proof.
  revert k. induction ws as [| w ws IH]; intros k; simpl.
  - split; [by intros ?%elem_of_nil | by intros (_ & ? & ? & _)].
  - assert (Hrest : i ∈ positive_indices_from (S k) ws ↔
              (k < i)%nat ∧ ∃ w', (w :: ws) !! (i - k)%nat = Some w' ∧ is_positive w' = true).
    { rewrite IH. split.
      - intros (Hle & w' & Hl & Hp). split; [lia |]. exists w'. split; [| done].
        replace (i - k)%nat with (S (i - S k)) by lia. done.
      - intros (Hlt & w' & Hl & Hp). split; [lia |]. exists w'. split; [| done].
        replace (i - k)%nat with (S (i - S k)) in Hl by lia. done. }
    destruct (is_positive w) eqn:Hw.
    + rewrite elem_of_cons, Hrest. split.
      * intros [-> | (Hlt & Hex)]; [| split; [lia | done]].
        split; [lia |]. exists w. by rewrite Nat.sub_diag.
      * intros (Hle & w' & Hl & Hp).
        destruct (decide (i = k)) as [-> | Hne]; [by left | right].
        split; [lia |]. by exists w'.
    + rewrite Hrest. split.
      * intros (Hlt & Hex). split; [lia | done].
      * intros (Hle & w' & Hl & Hp).
        destruct (decide (i = k)) as [-> | Hne].
        { rewrite Nat.sub_diag in Hl. simpl in Hl. congruence. }
        split; [lia |]. by exists w'.
Qed.

Lemma positive_indices_from_NoDup (ws : list float64) (k : nat) :
  NoDup (positive_indices_from k ws).
Proof.
  revert k. induction ws as [| w ws IH]; intros k; simpl; [constructor |].
  destruct (is_positive w); [| apply IH].
  constructor; [| apply IH].
  rewrite positive_indices_from_spec. intros [Hle _]. lia.
Qed.

Lemma positive_indices_from_length (ws : list float64) (k : nat) :
  length (positive_indices_from k ws) = count_positive ws.
Proof.
  unfold count_positive. revert k. induction ws as [| w ws IH]; intros k; simpl; [done |].
  destruct (is_positive w) eqn:Hw.
  - rewrite filter_cons_True by (rewrite Hw; exact I). simpl. by rewrite IH.
  - rewrite filter_cons_False by (rewrite Hw; exact id). apply IH.
Qed.

Lemma positive_indices_spec (ws : list float64) (i : nat) :
  i ∈ positive_indices ws ↔ ∃ w, ws !! i = Some w ∧ is_positive w = true.
Proof.
  unfold positive_indices. rewrite positive_indices_from_spec, Nat.sub_0_r.
  split; [by intros [_ ?] | intros ?; split; [lia | done]].
Qed.

Lemma first_occurrences_elem_of (l : list nat) (i : nat) :
  i ∈ first_occurrences l ↔ i ∈ l.
Proof.
  induction l as [| x l IH]; simpl; [done |].
  rewrite !elem_of_cons, list_elem_of_filter, IH.
  destruct (decide (i = x)) as [-> | Hne]; [split; intros _; by left |].
  split; [intros [-> | [_ Hi]]; [done | by right] | intros [-> | Hi]; [done | by right]].
Qed.

Lemma first_occurrences_NoDup (l : list nat) : NoDup (first_occurrences l).
Proof.
  induction l as [| x l IH]; simpl; [constructor |].
  constructor; [| by apply NoDup_filter].
  rewrite list_elem_of_filter. by intros [Hne _].
Qed.

Lemma first_occurrences_app (l k : list nat) :
  NoDup l → ∃ k', first_occurrences (l ++ k) = l ++ k'.
Proof.
  induction l as [| x l IH]; intros Hnd; simpl; [by eexists |].
  apply NoDup_cons in Hnd as [Hx Hnd]. destruct (IH Hnd) as [k' ->].
  exists (filter (fun j => j ≠ x) k'). rewrite filter_app. do 2 f_equal.
  clear -Hx. induction l as [| y l IH]; [done |].
  apply not_elem_of_cons in Hx as [Hne Hx].
  rewrite filter_cons_True by done. f_equal. by apply IH.
Qed.

Lemma draw_indices_NoDup (oracle : list nat) (ws : list float64) (size : nat) :
  NoDup (draw_indices oracle ws size).
Proof.
  unfold draw_indices.
  eapply sublist_NoDup; [apply first_occurrences_NoDup | apply sublist_take].
Qed.

Lemma draw_indices_positive (oracle : list nat) (ws : list float64) (size i : nat) :
  i ∈ draw_indices oracle ws size → ∃ w, ws !! i = Some w ∧ is_positive w = true.
Proof.
  unfold draw_indices. intros Hi. apply positive_indices_spec.
  apply (fun H => elem_of_sublist _ _ _ H (sublist_take _ _)) in Hi.
  apply first_occurrences_elem_of, elem_of_app in Hi as [Hi | Hi]; [| done].
  by apply list_elem_of_filter in Hi as [Hi _].
Qed.

Lemma draw_indices_length (oracle : list nat) (ws : list float64) (size : nat) :
  (size ≤ count_positive ws)%nat → length (draw_indices oracle ws size) = size.
Proof.
  intros Hsize. unfold draw_indices. apply length_take_le.
  etrans; [exact Hsize |]. rewrite <- (positive_indices_from_length ws 0).
  apply submseteq_length, NoDup_submseteq; [apply positive_indices_from_NoDup |].
  intros i Hi. apply first_occurrences_elem_of, elem_of_app. by right.
Qed.

(** Every draw without replacement among the positive weights is the draw of
    some oracle, namely of itself. *)
Lemma draw_indices_complete (ws : list float64) (ixs : list nat) :
  NoDup ixs → (∀ i, i ∈ ixs → i ∈ positive_indices ws) →
  draw_indices ixs ws (length ixs) = ixs.
Proof.
  intros Hnd Hpos. unfold draw_indices.
  assert (Hf : filter (fun i => i ∈ positive_indices ws) ixs = ixs).
  { clear Hnd. induction ixs as [| i ixs IH]; [done |].
    rewrite filter_cons_True by (apply Hpos; left).
    f_equal. apply IH. intros j Hj. apply Hpos. by right. }
  rewrite Hf. destruct (first_occurrences_app ixs (positive_indices ws) Hnd) as [k' ->].
  by rewrite take_app_length.
Qed.

(** ** Picking by position *)

Lemma pick_spec {A} (a : list A) (ixs : list nat) :
  (∀ i, i ∈ ixs → is_Some (a !! i)) →
  Forall2 (fun i x => a !! i = Some x) ixs (pick a ixs).
Proof.
  unfold pick. induction ixs as [| i ixs IH]; intros Hin; simpl; [constructor |].
  destruct (Hin i) as [x Hx]; [left |]. rewrite Hx. simpl.
  constructor; [done |]. apply IH. intros j Hj. apply Hin. by right.
Qed.

Lemma picked_NoDup {A} (a : list A) (ixs : list nat) (out : list A) :
  NoDup a → NoDup ixs → Forall2 (fun i x => a !! i = Some x) ixs out → NoDup out.
Proof.
  intros Ha Hixs HF. induction HF as [| i x ixs out Hx HF IH]; [constructor |].
  apply NoDup_cons in Hixs as [Hi Hixs]. constructor; [| by apply IH].
  intros Hin. apply Hi.
  clear IH Hixs Hi. induction HF as [| j y ixs out Hy HF IH]; [by apply elem_of_nil in Hin |].
  apply elem_of_cons in Hin as [<- | Hin].
  - rewrite (NoDup_lookup a i j x Ha Hx Hy). left.
  - right. by apply IH.
Qed.

(** ** [np.random.choice] without replacement *)

Lemma Forall2_lookup_length {A} (a : list A) (ixs : list nat) (out : list A) :
  Forall2 (fun i x => a !! i = Some x) ixs out → length out = length ixs.
Proof. intros HF. symmetry. exact (Forall2_length _ _ _ HF). Qed.

Lemma Forall2_lookup_elem_of {A} (a : list A) (ixs : list nat) (out : list A) (x : A) :
  Forall2 (fun i x => a !! i = Some x) ixs out → x ∈ out → x ∈ a.
Proof.
  induction 1 as [| i y ixs out Hy _ IH]; intros Hx; [by apply elem_of_nil in Hx |].
  apply elem_of_cons in Hx as [-> | Hx]; [| by apply IH].
  by eapply list_elem_of_lookup_2.
Qed.

Lemma not_negative_spec (ws : list float64) :
  existsb is_negative ws = false ↔ Forall (fun w => is_negative w = false) ws.
Proof.
  induction ws as [| w ws IH]; simpl; [by split; [constructor |] |].
  rewrite orb_false_iff, IH, Forall_cons. done.
Qed.

Lemma np_random_choice_ok `{Numpy} {A} (oracle : list nat) (a : list A) (size : Z)
    (ws : list float64) (out : list A) :
  np_random_choice oracle a size ws = Ok out →
  (0 ≤ size)%Z ∧ (size ≤ Z.of_nat (count_positive ws))%Z
  ∧ Forall (fun w => is_negative w = false) ws
  ∧ off_by_more_than_atol (kahan_sum ws) = false
  ∧ (rejects_nan = true → is_nan (kahan_sum ws) = false)
  ∧ ∃ ixs, NoDup ixs ∧ length ixs = Z.to_nat size
         ∧ Forall2 (fun i x => a !! i = Some x) ixs out
         ∧ (∀ i, i ∈ ixs → ∃ w, ws !! i = Some w ∧ is_positive w = true).
Proof.
  unfold np_random_choice.
  destruct (bool_decide (a = [])) eqn:E1; [done |].
  destruct (negb (length ws =? length a)%nat) eqn:E2; [done |].
  destruct (rejects_nan && is_nan (kahan_sum ws)) eqn:E3; [done |].
  destruct (existsb is_negative ws) eqn:E4; [done |].
  destruct (off_by_more_than_atol (kahan_sum ws)) eqn:E5; [done |].
  destruct (Z.of_nat (length a) <? size)%Z eqn:E6; [done |].
  destruct (size <? 0)%Z eqn:E7; [done |].
  destruct (Z.of_nat (count_positive ws) <? size)%Z eqn:E8; [done |].
  intros [= <-].
  apply Z.ltb_ge in E6, E7, E8.
  apply negb_false_iff, Nat.eqb_eq in E2. apply not_negative_spec in E4.
  split; [done |]. split; [done |]. split; [done |]. split; [done |]. split.
  { intros Hr. rewrite Hr in E3. exact E3. }
  exists (draw_indices oracle ws (Z.to_nat size)).
  split; [apply draw_indices_NoDup |].
  split; [apply draw_indices_length; lia |].
  split; [| apply draw_indices_positive].
  apply pick_spec. intros i Hi.
  apply draw_indices_positive in Hi as (w & Hw & _).
  apply lookup_lt_is_Some. rewrite <- E2. by eapply lookup_lt_Some.
Qed.

Lemma np_random_choice_succeeds `{Numpy} {A} (oracle : list nat) (a : list A) (size : Z)
    (ws : list float64) :
  (0 ≤ size)%Z → (size < Z.of_nat (length a))%Z → length ws = length a →
  accepted_as_probabilities ws → (size ≤ Z.of_nat (count_positive ws))%Z →
  np_random_choice oracle a size ws = Ok (pick a (draw_indices oracle ws (Z.to_nat size))).
Proof.
  intros H0 Hlt Hlen [[Hnan Hsum] Hneg] Hcnt. unfold np_random_choice.
  assert (Ha : bool_decide (a = []) = false).
  { apply bool_decide_eq_false. intros ->. simpl in Hlt. lia. }
  rewrite Ha, Hlen, Nat.eqb_refl, Hnan, andb_false_r, Hsum. simpl.
  rewrite (proj2 (not_negative_spec ws) Hneg).
  rewrite (proj2 (Z.ltb_ge _ _)) by lia. rewrite (proj2 (Z.ltb_ge _ _) H0).
  by rewrite (proj2 (Z.ltb_ge _ _)) by lia.
Qed.

(** Every failure of the draw is a [ValueError]. *)
Lemma np_random_choice_value_error `{Numpy} {A} (oracle : list nat) (a : list A) (size : Z)
    (ws : list float64) :
  (∃ out, np_random_choice oracle a size ws = Ok out)
  ∨ (∃ msg, np_random_choice oracle a size ws = Raise (ValueError msg)).
Proof.
  unfold np_random_choice.
  repeat match goal with |- context [if ?b then _ else _] => destruct b end;
    (by left; eexists) || (by right; eexists).
Qed.

(** ** float64 arithmetic *)

Lemma fdiv_zero_zero (x s : float64) :
  is_zero x = true → is_zero s = true → fdiv x s = S754_nan.
Proof. by destruct x, s. Qed.

(** A zero has no positive quotient, whatever it is divided by. *)
Lemma fdiv_zero_not_positive (x s : float64) :
  is_zero x = true → is_positive (fdiv x s) = false.
Proof. destruct x as [sx | | |]; try done. intros _. by destruct sx, s as [[] | [] | | []]. Qed.

Lemma kahan_sum_nan (ws : list float64) : kahan_sum (S754_nan :: ws) = S754_nan.
Proof.
  unfold kahan_sum. generalize f_zero as c.
  induction ws as [| w ws IH]; intros c; [done |]. simpl.
  unfold kahan_step at 2. simpl.
  replace (fadd S754_nan (fsub w c)) with S754_nan by by destruct (fsub w c).
  apply IH.
Qed.

Lemma count_positive_cons (w : float64) (ws : list float64) :
  count_positive (w :: ws)
  = ((if is_positive w then 1 else 0) + count_positive ws)%nat.
Proof.
  unfold count_positive. destruct (is_positive w) eqn:Hw.
  - by rewrite filter_cons_True by (rewrite Hw; exact I).
  - by rewrite filter_cons_False by (rewrite Hw; exact id).
Qed.

Lemma count_positive_nan (ws : list float64) :
  Forall (fun w => is_nan w = true) ws → count_positive ws = 0%nat.
Proof.
  unfold count_positive. induction 1 as [| w ws Hw _ IH]; [done |].
  rewrite filter_cons_False; [exact IH |]. destruct w; try done. exact id.
Qed.

(** ** Renormalisation *)
Section Renormalisation.
Context `{!Numpy}.

Lemma renormalize_length (ps : list float64) : length (renormalize ps) = length ps.
Proof. unfold renormalize. by rewrite length_fmap. Qed.

(** Probabilities that are all zero: every weight is [0/0]. *)
Lemma renormalize_zero (ps : list float64) :
  Forall (fun x => is_zero x = true) ps → renormalize ps = (fun _ => S754_nan) <$> ps.
Proof.
  intros Hz. unfold renormalize. pose proof (np_sum_zeros ps Hz) as Hs. cbv zeta.
  generalize dependent (np_sum ps). intros s Hs.
  induction Hz as [| x l Hx _ IH]; [done |].
  rewrite !fmap_cons, IH. f_equal. by apply fdiv_zero_zero.
Qed.

(** ** The sampler *)

Lemma sampler_identity (oracle : list nat) (poses : list stable_pose) (N : Z) :
  (Z.of_nat (length poses) ≤ N)%Z → sample_stable_poses oracle poses N = Ok poses.
Proof.
  intros Hle. unfold sample_stable_poses. by rewrite (proj2 (Z.ltb_ge _ _) Hle).
Qed.

Lemma sampler_branch (oracle : list nat) (poses : list stable_pose) (N : Z) :
  (N < Z.of_nat (length poses))%Z →
  sample_stable_poses oracle poses N
  = np_random_choice oracle poses N (renormalize (p <$> poses)).
Proof.
  intros Hlt. unfold sample_stable_poses. by rewrite (proj2 (Z.ltb_lt _ _) Hlt).
Qed.

Lemma sampler_safety (oracle : list nat) (poses out : list stable_pose) (N : Z) :
  sample_stable_poses oracle poses N = Ok out →
  (Z.of_nat (length out) ≤ N)%Z ∧ ∀ s, s ∈ out → s ∈ poses.
Proof.
  destruct (Z.ltb_spec N (Z.of_nat (length poses))) as [Hlt | Hle].
  - rewrite (sampler_branch _ _ _ Hlt).
    intros (H0 & _ & _ & _ & _ & ixs & _ & Hlen & HF & _)%np_random_choice_ok. split.
    + rewrite (Forall2_lookup_length _ _ _ HF), Hlen. lia.
    + intros s. by apply Forall2_lookup_elem_of with (ixs := ixs).
  - rewrite (sampler_identity _ _ _ Hle). intros [= <-]. done.
Qed.

Lemma sampler_draws (oracle : list nat) (poses : list stable_pose) (N : Z) :
  (N < Z.of_nat (length poses))%Z → (0 ≤ N)%Z →
  accepted_as_probabilities (renormalize (p <$> poses)) →
  (N ≤ Z.of_nat (count_positive (renormalize (p <$> poses))))%Z →
  ∃ ixs out,
    sample_stable_poses oracle poses N = Ok out
    ∧ Z.of_nat (length out) = N
    ∧ NoDup ixs
    ∧ Forall2 (fun i s => poses !! i = Some s) ixs out
    ∧ (∀ i, i ∈ ixs →
         ∃ w, renormalize (p <$> poses) !! i = Some w ∧ is_positive w = true)
    ∧ (∀ s, s ∈ out → s ∈ poses)
    ∧ (NoDup poses → NoDup out).
Proof.
  intros Hlt H0 Hacc Hcnt.
  assert (Hrun : sample_stable_poses oracle poses N
            = Ok (pick poses (draw_indices oracle (renormalize (p <$> poses)) (Z.to_nat N)))).
  { rewrite (sampler_branch _ _ _ Hlt). apply np_random_choice_succeeds; try done.
    by rewrite renormalize_length, length_fmap. }
  pose proof Hrun as Hok. rewrite (sampler_branch _ _ _ Hlt) in Hok.
  apply np_random_choice_ok in Hok as (_ & _ & _ & _ & _ & ixs & Hnd & Hlen & HF & Hpos).
  exists ixs, (pick poses (draw_indices oracle (renormalize (p <$> poses)) (Z.to_nat N))).
  split; [done |].
  split; [rewrite (Forall2_lookup_length _ _ _ HF), Hlen; lia |].
  split; [done |]. split; [done |]. split; [done |]. split.
  - intros s. by apply Forall2_lookup_elem_of with (ixs := ixs).
  - intros Hposes. by eapply picked_NoDup.
Qed.

(** The draw is made only on weights that pass numpy's tests, and every
    failure is a [ValueError]. *)
Lemma sampler_outcome (oracle : list nat) (poses : list stable_pose) (N : Z) :
  (N < Z.of_nat (length poses))%Z →
  (∃ msg, sample_stable_poses oracle poses N = Raise (ValueError msg))
  ∨ (∃ out, sample_stable_poses oracle poses N = Ok out
       ∧ (0 ≤ N)%Z
       ∧ (N ≤ Z.of_nat (count_positive (renormalize (p <$> poses))))%Z
       ∧ Forall (fun w => is_negative w = false) (renormalize (p <$> poses))
       ∧ off_by_more_than_atol (kahan_sum (renormalize (p <$> poses))) = false).
Proof.
  intros Hlt. rewrite (sampler_branch _ _ _ Hlt).
  destruct (np_random_choice_value_error oracle poses N (renormalize (p <$> poses)))
    as [[out Hout] | Hraise]; [right | by left].
  exists out. split; [done |].
  apply np_random_choice_ok in Hout as (H0 & Hcnt & Hneg & Hsum & _). done.
Qed.

(** Probabilities that are all zero: nothing can be drawn. *)
Lemma sampler_all_zero (oracle : list nat) (poses : list stable_pose) (N : Z) :
  (N < Z.of_nat (length poses))%Z → Forall (fun s => is_zero (p s) = true) poses →
  N ≠ 0%Z ∨ rejects_nan = true →
  ∃ msg, sample_stable_poses oracle poses N = Raise (ValueError msg).
Proof.
  intros Hlt Hz Hcase.
  destruct (sampler_outcome oracle poses N Hlt)
    as [Hraise | (out & Hout & H0 & Hcnt & _)]; [done | exfalso].
  assert (Hz' : Forall (fun x => is_zero x = true) (p <$> poses)) by by apply Forall_fmap.
  pose proof (renormalize_zero _ Hz') as Hws.
  assert (Hnan : Forall (fun w => is_nan w = true) (renormalize (p <$> poses))).
  { rewrite Hws. by apply Forall_fmap, Forall_true. }
  rewrite (count_positive_nan _ Hnan) in Hcnt.
  destruct Hcase as [HN | Hr]; [lia |].
  rewrite (sampler_branch _ _ _ Hlt) in Hout.
  apply np_random_choice_ok in Hout as (_ & _ & _ & _ & Hnn & _).
  specialize (Hnn Hr). rewrite Hws in Hnn.
  destruct poses as [| s poses]; [simpl in Hlt; lia |].
  rewrite !fmap_cons, kahan_sum_nan in Hnn. done.
Qed.

End Renormalisation.

(** ** Claims on the gravity wrench *)

Lemma gravity_wrench_force_torque (g : Q) (obj : graspable) (sp : stable_pose) :
  array_eq (force_component (_gravity_wrench g obj sp))
    [mass obj * g * vx (row2 (r sp));
     mass obj * g * vy (row2 (r sp));
     mass obj * g * vz (row2 (r sp))]
  ∧ array_eq (torque_component (_gravity_wrench g obj sp)) [0; 0; 0].
Proof.
  pose proof (gravity_wrench_entries g obj sp) as Hw.
  unfold force_component, torque_component, array_eq in *.
  split.
  - apply (Forall2_take _ _ _ 3) in Hw. exact Hw.
  - apply (Forall2_drop _ _ _ 3) in Hw. exact Hw.
Qed.

(** C5.  For every object (of any mass, non-negative in particular) and every
    stable pose with table normal [n] (row 2 of its rotation), the wrench is
    [-(append(-(m*g)*n, [0,0,0]))]: six entries, the force [m*g*n] and a zero
    torque.  The function is total and pure: it reads its arguments only. *)
Theorem gravity_wrench_resists_gravity (g : Q) (obj : graspable) (sp : stable_pose) :
  let n := row2 (r sp) in
  let m := mass obj in
  _gravity_wrench g obj sp
    = np_neg (np_append (np_scale (- (m * g)) [vx n; vy n; vz n]) [0; 0; 0])
  ∧ length (_gravity_wrench g obj sp) = 6%nat
  ∧ array_eq (force_component (_gravity_wrench g obj sp))
      [m * g * vx n; m * g * vy n; m * g * vz n]
  ∧ array_eq (torque_component (_gravity_wrench g obj sp)) [0; 0; 0].
Proof.
  cbv zeta. split; [reflexivity |]. split; [reflexivity |].
  apply gravity_wrench_force_torque.
Qed.

(** C4, as the code has it.  With mass 1.0, g = 9.81 and table normal
    [0,0,1] the force part of the wrench is [0,0,9.81] (the wrench that
    resists gravity, pointing along the normal) and the torque part is zero;
    equal inputs give equal outputs. *)
Theorem gravity_wrench_unit_mass (obj : graspable) (sp : stable_pose) :
  mass obj == 1 →
  vx (row2 (r sp)) == 0 → vy (row2 (r sp)) == 0 → vz (row2 (r sp)) == 1 →
  array_eq (force_component (_gravity_wrench (981 # 100) obj sp)) [0; 0; 981 # 100]
  ∧ array_eq (torque_component (_gravity_wrench (981 # 100) obj sp)) [0; 0; 0]
  ∧ ∀ g' obj' sp', g' = (981 # 100) → obj' = obj → sp' = sp →
      _gravity_wrench g' obj' sp' = _gravity_wrench (981 # 100) obj sp.
Proof.
  intros Hm Hx Hy Hz.
  destruct (gravity_wrench_force_torque (981 # 100) obj sp) as (Hf & Ht).
  split; [| split; [exact Ht |]].
  - unfold array_eq in *.
    inversion Hf as [| a b l l' H1 Hf1]; subst.
    inversion Hf1 as [| a2 b2 l2 l2' H2 Hf2]; subst.
    inversion Hf2 as [| a3 b3 l3 l3' H3 Hf3]; subst.
    inversion Hf3; subst.
    repeat constructor.
    + rewrite H1, Hx. ring.
    + rewrite H2, Hy. ring.
    + rewrite H3, Hm, Hz. ring.
  - intros g' obj' sp' -> -> ->. reflexivity.
Qed.

(** C4, as stated, fails: the force part is not [0,0,-9.81]. *)
Lemma gravity_wrench_force_not_downward :
  ¬ array_eq
      (force_component (_gravity_wrench (981 # 100) Scenario.unit_object Scenario.flat_pose))
      [0; 0; - (981 # 100)].
Proof.
  intros H. vm_compute in H.
  inversion H as [| a b l l' _ H1]; subst.
  inversion H1 as [| a2 b2 l2 l2' _ H2]; subst.
  inversion H2 as [| a3 b3 l3 l3' H3 _]; subst.
  vm_compute in H3. discriminate H3.
Qed.

(** ** Reasoning about runs *)
Section Runs.
Context {G D DB : Type}.

Local Abbreviation M := (@M G D DB).

Lemma bind_run {A B} (m : M A) (f : A → M B) (w : world G D DB) :
  bind m f w = match m w with
               | (Ok a, w') => f a w'
               | (Raise e, w') => (Raise e, w')
               end.
Proof. reflexivity. Qed.

Lemma bind_ok {A B} (m : M A) (f : A → M B) (w w' : world G D DB) (a : A) :
  m w = (Ok a, w') → bind m f w = f a w'.
Proof. intros Hm. by rewrite bind_run, Hm. Qed.

Lemma bind_raise {A B} (m : M A) (f : A → M B) (w w' : world G D DB) (e : exn) :
  m w = (Raise e, w') → bind m f w = (Raise e, w').
Proof. intros Hm. by rewrite bind_run, Hm. Qed.

Lemma emits_ret {A} (P : event G → Prop) (a : A) : emits P (ret a : M A).
Proof. intros w. exists []. by rewrite app_nil_r. Qed.

Lemma emits_raise {A} (P : event G → Prop) (e : exn) : emits P (raise e : M A).
Proof. intros w. exists []. by rewrite app_nil_r. Qed.

Lemma emits_lift {A} (P : event G → Prop) (x : result A) : emits P (lift x : M A).
Proof. intros w. exists []. by rewrite app_nil_r. Qed.

Lemma emits_log (P : event G → Prop) (e : event G) : P e → emits P (log e : M unit).
Proof. intros He w. exists [e]. split; [done |]. by constructor. Qed.

Lemma emits_get_dataset (P : event G → Prop) : emits P (get_dataset : M D).
Proof.
  intros w. exists []. rewrite app_nil_r. unfold get_dataset. by destruct (dataset w).
Qed.

Lemma emits_put_dataset (P : event G → Prop) (d : D) : emits P (put_dataset d : M unit).
Proof. intros w. exists []. by rewrite app_nil_r. Qed.

Lemma emits_get_database (P : event G → Prop) : emits P (get_database : M DB).
Proof.
  intros w. exists []. rewrite app_nil_r. unfold get_database. by destruct (database w).
Qed.

Lemma emits_put_database (P : event G → Prop) (d : DB) : emits P (put_database d : M unit).
Proof. intros w. exists []. by rewrite app_nil_r. Qed.

Lemma emits_set_progress (P : event G → Prop) (q : Q) : emits P (set_progress q : M unit).
Proof. intros w. exists []. by rewrite app_nil_r. Qed.

Lemma emits_next_oracle (P : event G → Prop) (called : bool) :
  emits P (next_oracle called : M (list nat)).
Proof. intros w. exists []. rewrite app_nil_r. unfold next_oracle. by destruct called. Qed.

Lemma emits_bind {A B} (P : event G → Prop) (m : M A) (f : A → M B) :
  emits P m → (∀ a, emits P (f a)) → emits P (bind m f).
Proof.
  intros Hm Hf w. rewrite bind_run. destruct (Hm w) as (evs & Ht & HP).
  destruct (m w) as [[a | e] w']; simpl in Ht.
  - destruct (Hf a w') as (evs' & Ht' & HP'). exists (evs ++ evs').
    rewrite Ht', Ht, app_assoc. split; [done |]. by apply Forall_app.
  - by exists evs.
Qed.

Lemma emits_fold_loop {A S} (P : event G → Prop) (body : A → S → M S) (l : list A) :
  (∀ x s, emits P (body x s)) → ∀ s, emits P (fold_loop body l s).
Proof.
  intros Hbody. induction l as [| x l IH]; intros s; simpl.
  - apply emits_ret.
  - apply emits_bind; [apply Hbody | apply IH].
Qed.

Lemma emits_for_each {A} (P : event G → Prop) (body : A → M unit) (l : list A) :
  (∀ x, emits P (body x)) → emits P (for_each body l).
Proof. intros Hbody. apply emits_fold_loop. intros x _. apply Hbody. Qed.

Lemma emits_weaken {A} (P Q : event G → Prop) (m : M A) :
  (∀ e, P e → Q e) → emits P m → emits Q m.
Proof.
  intros HPQ Hm w. destruct (Hm w) as (evs & Ht & HP). exists evs.
  split; [done |]. by eapply Forall_impl.
Qed.

(** A loop stops at the first iteration that raises. *)
Lemma fold_loop_raise {A S} (body : A → S → M S) (done_ rest : list A) (x : A)
    (s s1 : S) (w w1 w2 : world G D DB) (e : exn) :
  fold_loop body done_ s w = (Ok s1, w1) → body x s1 w1 = (Raise e, w2) →
  fold_loop body (done_ ++ x :: rest) s w = (Raise e, w2).
Proof.
  revert s w. induction done_ as [| y done_ IH]; intros s w Hdone Hx; simpl in *.
  - injection Hdone as <- <-. by rewrite bind_run, Hx.
  - rewrite bind_run in *. destruct (body y s w) as [[s' | e'] w']; [| done].
    by apply IH.
Qed.

Lemma fold_loop_step {A S} (body : A → S → M S) (x : A) (l : list A)
    (s s1 : S) (w w1 : world G D DB) :
  body x s w = (Ok s1, w1) → fold_loop body (x :: l) s w = fold_loop body l s1 w1.
Proof. intros Hx. simpl. by rewrite bind_run, Hx. Qed.

End Runs.

(** Discharges [emits] goals over code built from the primitives. *)
Ltac emits_step :=
  match goal with
  | |- emits _ (bind _ _) => apply emits_bind; [| intros ?]
  | |- emits _ (ret _) => apply emits_ret
  | |- emits _ (raise _) => apply emits_raise
  | |- emits _ (lift _) => apply emits_lift
  | |- emits _ (log _) => apply emits_log; reflexivity
  | |- emits _ get_dataset => apply emits_get_dataset
  | |- emits _ (put_dataset _) => apply emits_put_dataset
  | |- emits _ get_database => apply emits_get_database
  | |- emits _ (put_database _) => apply emits_put_database
  | |- emits _ (set_progress _) => apply emits_set_progress
  | |- emits _ (next_oracle _) => apply emits_next_oracle
  | |- emits _ (fold_loop _ _ _) => apply emits_fold_loop; intros ? ?
  | |- emits _ (for_each _ _) => apply emits_for_each; intros ?
  | |- emits _ (if ?b then _ else _) => destruct b
  | |- emits _ (match ?x with _ => _ end) => destruct x
  end.

Ltac emits_auto := repeat emits_step.

Section PassTrace.
Context {G D DB Spec : Type}.
Context `{!GraspOps G, !Dataset G D, !Database DB, !Collaborators G Spec, !Numpy}.

Local Abbreviation M := (@M G D DB).
Local Abbreviation pass_event := (fun e : event G => is_pass_event e = true).

Lemma grasp_body_emits obj gripper (config : api_config Spec) overwrite stable_poses
    ind n_grasps metric_name metric_config quality_fn kg gm :
  emits pass_event
    (grasp_body obj gripper config overwrite stable_poses ind n_grasps metric_name
       metric_config quality_fn kg gm : M _).
Proof.
  unfold grasp_body, report_progress, index_pose, call_quality_fn. emits_auto.
Qed.

Lemma variant_body_emits obj gripper (config : api_config Spec) overwrite stable_poses
    grasps v st :
  emits pass_event
    (variant_body obj gripper config overwrite stable_poses grasps v st : M _).
Proof.
  unfold variant_body. emits_auto. apply grasp_body_emits.
Qed.

Lemma metric_body_emits obj gripper (config : api_config Spec) overwrite stable_poses
    grasps m gm :
  emits pass_event
    (metric_body obj gripper config overwrite stable_poses grasps m gm : M _).
Proof.
  unfold metric_body. emits_auto. apply variant_body_emits.
Qed.

Lemma accumulate_emits obj gripper (config : api_config Spec) stable_pose_id
    metric_name overwrite :
  emits pass_event
    (accumulate_grasp_metrics obj gripper config stable_pose_id metric_name overwrite
     : M _).
Proof.
  unfold accumulate_grasp_metrics, load_stable_poses, subsample_stable_poses.
  emits_auto. apply metric_body_emits.
Qed.

End PassTrace.

(** ** One iteration of the grasp loop *)
Section GraspLoop.
Context {G D DB Spec : Type}.
Context `{!GraspOps G, !Dataset G D, !Database DB, !Collaborators G Spec, !Numpy}.

Local Abbreviation M := (@M G D DB).

Lemma report_progress_ok (config : api_config Spec) (k n : nat) (w : world G D DB) :
  metric_display_rate config ≠ 0%Z →
  ∃ w0, report_progress config k n w = (Ok tt, w0)
        ∧ trace w0 = trace w ∧ dataset w0 = dataset w
        ∧ database w0 = database w ∧ rng w0 = rng w.
Proof.
  intros Hrate. unfold report_progress.
  rewrite (proj2 (Z.eqb_neq _ _) Hrate).
  destruct (Z.of_nat k mod metric_display_rate config =? 0)%Z; by eexists.
Qed.

Lemma recorded_record_quality (gm : grasp_metrics_record) (gid : Z) (name : string) (q : Q) :
  recorded (record_quality gm gid name q) gid name = Some q.
Proof.
  unfold recorded, record_quality. rewrite lookup_insert_eq. simpl.
  by rewrite lookup_insert_eq.
Qed.

Lemma recorded_init_grasp_entry (gm : grasp_metrics_record) (gid gid' : Z) (name : string) :
  recorded (init_grasp_entry gm gid) gid' name = recorded gm gid' name.
Proof.
  unfold recorded, init_grasp_entry. destruct (gm !! gid) eqn:Hg; [done |].
  destruct (decide (gid = gid')) as [<- | Hne].
  - by rewrite lookup_insert_eq, Hg.
  - by rewrite lookup_insert_ne.
Qed.

(** The part of [grasp_body] up to the branch on the quality method. *)
Lemma grasp_body_prefix obj gripper (config : api_config Spec) overwrite stable_poses
    ind n_grasps metric_name metric_config quality_fn k grasp gm
    (w : world G D DB) (d : D) :
  metric_display_rate config ≠ 0%Z → dataset w = Some d →
  let w0 := (report_progress config k n_grasps w).2 in
  let w1 := with_event w0
              (EvGraspMetrics (key obj) (grasp_id grasp) (RobotGripper.name gripper)) in
  let gm0 := init_grasp_entry gm (grasp_id grasp) in
  let existing := ds_grasp_metrics d (key obj) grasp (RobotGripper.name gripper) in
  trace w1 = trace w ++ [EvGraspMetrics (key obj) (grasp_id grasp) (RobotGripper.name gripper)]
  ∧ dataset w1 = Some d
  ∧ grasp_body obj gripper config overwrite stable_poses ind n_grasps metric_name
      metric_config quality_fn (k, grasp) gm w
    = (if is_gravity_method (quality_method metric_config) then
         stable_pose <- index_pose stable_poses ind ;;
         let aligned_grasp := align_grasp gripper grasp stable_pose in
         if perpendicular_table metric_config aligned_grasp stable_pose then
           q <- call_quality_fn metric_name quality_fn aligned_grasp ;;
           ret (record_quality gm0 (grasp_id grasp) metric_name q)
         else ret (record_quality gm0 (grasp_id grasp) metric_name 0)
       else
         if bool_decide (is_Some (existing !! metric_name)) && negb overwrite then ret gm0
         else
           q <- call_quality_fn metric_name quality_fn grasp ;;
           ret (record_quality gm0 (grasp_id grasp) metric_name q)) w1.
Proof.
  intros Hrate Hd. simpl.
  destruct (report_progress_ok config k n_grasps w Hrate) as (w0 & Hrun & Ht & Hds & _).
  rewrite Hrun. simpl. unfold with_event. simpl. rewrite Ht, Hds.
  split; [done |]. split; [exact Hd |].
  unfold grasp_body. simpl. rewrite (bind_ok _ _ _ _ _ Hrun).
  assert (Hget : (get_dataset : M D) w0 = (Ok d, w0)).
  { unfold get_dataset. by rewrite Hds, Hd. }
  rewrite (bind_ok _ _ _ _ _ Hget). rewrite bind_run. simpl. by rewrite Ht, Hds.
Qed.

Lemma trace_with_event (w : world G D DB) (e : event G) :
  trace (with_event w e) = trace w ++ [e].
Proof. reflexivity. Qed.

Lemma call_quality_fn_run (metric_name : string) (quality_fn : G → result Q) (grasp : G)
    (w : world G D DB) :
  (call_quality_fn metric_name quality_fn grasp : M Q) w
  = (quality_fn grasp, with_event w (EvQualityFn metric_name grasp)).
Proof. reflexivity. Qed.

End GraspLoop.

Section GraspLoopClaims.
Context {G D DB Spec : Type}.
Context `{!GraspOps G, !Dataset G D, !Database DB, !Collaborators G Spec, !Numpy}.

Local Abbreviation M := (@M G D DB).

(** C2.  A grasp evaluated for a gravity-dependent variant against the
    variant's stable pose is re-aligned to the table exactly when the gripper
    type is 'parallel_jaw'; the pair is feasible exactly when
    |approach-table angle| < deg2rad(max_approach_table_angle) and the dot
    product of the pose's table normal with the grasp's x axis is negative;
    an infeasible pair is recorded with quality 0 and the quality function
    is not called (the only call of the iteration is the query of the
    existing metrics); a feasible pair is handed to the quality function. *)
Theorem feasibility_gate obj gripper (config : api_config Spec) overwrite stable_poses
    ind n_grasps metric_name metric_config quality_fn k grasp gm
    (w : world G D DB) (d : D) (sp : stable_pose) :
  metric_display_rate config ≠ 0%Z → dataset w = Some d →
  is_gravity_method (quality_method metric_config) = true →
  stable_poses !! ind = Some sp →
  let gid := grasp_id grasp in
  let aligned := align_grasp gripper grasp sp in
  let angle := (grasp_angles_from_stp_z aligned sp).1.2 in
  let dot := np_dot (row2 (r sp)) (x_axis aligned) in
  let feasible := perpendicular_table metric_config aligned sp in
  let query := EvGraspMetrics (key obj) gid (RobotGripper.name gripper) in
  let w1 := with_event (report_progress config k n_grasps w).2 query in
  let gm0 := init_grasp_entry gm gid in
  let run := grasp_body obj gripper config overwrite stable_poses ind n_grasps metric_name
               metric_config quality_fn (k, grasp) gm w in
  (RobotGripper.type gripper = "parallel_jaw" → aligned = grasp_perpendicular_table grasp sp)
  ∧ (RobotGripper.type gripper ≠ "parallel_jaw" → aligned = grasp)
  ∧ (feasible = true ↔
       Qabs angle < np_deg2rad (max_approach_table_angle metric_config) ∧ dot < 0)
  ∧ (feasible = false →
       run = (Ok (record_quality gm0 gid metric_name 0), w1)
       ∧ trace run.2 = trace w ++ [query]
       ∧ recorded (record_quality gm0 gid metric_name 0) gid metric_name = Some 0)
  ∧ (feasible = true →
       run = (match quality_fn aligned with
              | Ok q => Ok (record_quality gm0 gid metric_name q)
              | Raise e => Raise e
              end, with_event w1 (EvQualityFn metric_name aligned))
       ∧ trace run.2 = trace w ++ [query; EvQualityFn metric_name aligned]).
Proof.
  intros Hrate Hd Hgrav Hsp. cbv zeta.
  destruct (grasp_body_prefix obj gripper config overwrite stable_poses ind n_grasps
              metric_name metric_config quality_fn k grasp gm w d Hrate Hd)
    as (Ht & _ & Hrun).
  cbv zeta in Ht, Hrun. rewrite Hrun, Hgrav. clear Hrun.
  unfold index_pose. rewrite Hsp.
  split; [| split; [| split; [| split]]].
  - intros Htype. unfold align_grasp. by rewrite Htype.
  - intros Htype. unfold align_grasp.
    destruct (String.eqb_spec (RobotGripper.type gripper) "parallel_jaw"); done.
  - unfold perpendicular_table. by rewrite andb_true_iff, !Qltb_true.
  - intros Hf. rewrite bind_run. simpl. rewrite Hf. simpl.
    split; [done |]. split; [exact Ht | apply recorded_record_quality].
  - intros Hf. rewrite bind_run. simpl. rewrite Hf.
    rewrite bind_run, call_quality_fn_run.
    split; [by destruct (quality_fn (align_grasp gripper grasp sp)) |].
    destruct (quality_fn (align_grasp gripper grasp sp)); unfold ret; cbn [snd];
      by rewrite trace_with_event, Ht, <- app_assoc.
Qed.

(** C7.  For a metric whose quality method is not gravity-dependent: when the
    metric name is among the grasp's stored metrics and [overwrite] is off,
    the quality function is not called, no value is recorded and the loop
    goes on with the next grasp; otherwise the quality function is called on
    the grasp and its result is recorded under (grasp id, metric name).  For
    a gravity-dependent variant the iteration does not depend on [overwrite]
    and every completed iteration records a value. *)
Theorem skip_existing_metric obj gripper (config : api_config Spec) overwrite stable_poses
    ind n_grasps metric_name metric_config quality_fn k grasp gm
    (w : world G D DB) (d : D) :
  metric_display_rate config ≠ 0%Z → dataset w = Some d →
  let gid := grasp_id grasp in
  let existing := ds_grasp_metrics d (key obj) grasp (RobotGripper.name gripper) in
  let query := EvGraspMetrics (key obj) gid (RobotGripper.name gripper) in
  let w1 := with_event (report_progress config k n_grasps w).2 query in
  let gm0 := init_grasp_entry gm gid in
  let body ov := grasp_body obj gripper config ov stable_poses ind n_grasps metric_name
                   metric_config quality_fn in
  (is_gravity_method (quality_method metric_config) = false →
     (is_Some (existing !! metric_name) → overwrite = false →
        body overwrite (k, grasp) gm w = (Ok gm0, w1)
        ∧ trace w1 = trace w ++ [query]
        ∧ (∀ gid' name', recorded gm0 gid' name' = recorded gm gid' name')
        ∧ ∀ rest, fold_loop (body overwrite) ((k, grasp) :: rest) gm w
                  = fold_loop (body overwrite) rest gm0 w1)
     ∧ (existing !! metric_name = None ∨ overwrite = true →
        body overwrite (k, grasp) gm w
        = (match quality_fn grasp with
           | Ok q => Ok (record_quality gm0 gid metric_name q)
           | Raise e => Raise e
           end, with_event w1 (EvQualityFn metric_name grasp))
        ∧ trace (with_event w1 (EvQualityFn metric_name grasp))
          = trace w ++ [query; EvQualityFn metric_name grasp]
        ∧ ∀ q, recorded (record_quality gm0 gid metric_name q) gid metric_name = Some q))
  ∧ (is_gravity_method (quality_method metric_config) = true →
     body overwrite (k, grasp) gm w = body (negb overwrite) (k, grasp) gm w
     ∧ ∀ gm' w', body overwrite (k, grasp) gm w = (Ok gm', w') →
                 is_Some (recorded gm' gid metric_name)).
Proof.
  intros Hrate Hd. cbv zeta.
  pose proof (fun ov => grasp_body_prefix obj gripper config ov stable_poses ind n_grasps
              metric_name metric_config quality_fn k grasp gm w d Hrate Hd) as Hpre.
  cbv zeta in Hpre. split.
  - intros Hgrav. destruct (Hpre overwrite) as (Ht & _ & Hrun).
    rewrite Hgrav in Hrun. split.
    + intros Hex ->. rewrite Hrun, bool_decide_eq_true_2 by done. simpl.
      split; [done |]. split; [exact Ht |]. split.
      * intros gid' name'. apply recorded_init_grasp_entry.
      * intros rest. apply fold_loop_step.
        rewrite Hrun, bool_decide_eq_true_2 by done. done.
    + intros Hcase. rewrite Hrun.
      assert (Hc : bool_decide
                (is_Some (ds_grasp_metrics d (key obj) grasp (RobotGripper.name gripper)
                            !! metric_name)) && negb overwrite = false).
      { destruct Hcase as [Hnone | ->]; [| apply andb_false_r].
        rewrite bool_decide_eq_false_2; [done |]. rewrite Hnone. by intros [? ?]. }
      rewrite Hc, bind_run, call_quality_fn_run.
      split; [by destruct (quality_fn grasp) |].
      split; [by rewrite trace_with_event, Ht, <- app_assoc |].
      intros q. apply recorded_record_quality.
  - intros Hgrav. split.
    + destruct (Hpre overwrite) as (_ & _ & ->).
      destruct (Hpre (negb overwrite)) as (_ & _ & ->). by rewrite Hgrav.
    + intros gm' w'. destruct (Hpre overwrite) as (_ & _ & ->). rewrite Hgrav.
      rewrite bind_run. unfold index_pose.
      destruct (stable_poses !! ind) as [sp |]; simpl; [| done].
      destruct (perpendicular_table metric_config (align_grasp gripper grasp sp) sp).
      * rewrite bind_run, call_quality_fn_run.
        destruct (quality_fn (align_grasp gripper grasp sp)) as [q | e]; simpl; [| done].
        intros [= <- _]. rewrite recorded_record_quality. by eexists.
      * simpl. intros [= <- _]. rewrite recorded_record_quality. by eexists.
Qed.

End GraspLoopClaims.

(** ** Persistence *)
Section Persistence.
Context {G D DB Spec : Type}.
Context `{!GraspOps G, !Dataset G D, !Database DB, !Collaborators G Spec, !Numpy}.

Local Abbreviation M := (@M G D DB).
Local Abbreviation not_store := (fun e : event G => is_store e = false).
Local Abbreviation not_flush := (fun e : event G => is_flush e = false).
Local Abbreviation not_missing := (fun e : event G => is_missing_grasps e = false).

Lemma pass_event_other (e : event G) :
  is_pass_event e = true →
  is_store e = false ∧ is_flush e = false ∧ is_missing_grasps e = false.
Proof. by destruct e. Qed.

(** The shape of a run of [_compute_metrics], read off the run of the
    accumulation phase. *)
Lemma compute_metrics_pass_run obj gripper (config : api_config Spec) stable_pose_id
    metric_name overwrite (w : world G D DB) :
  ∃ evs0 r1 w1,
    accumulate_grasp_metrics obj gripper config stable_pose_id metric_name overwrite w
      = (r1, w1)
    ∧ trace w1 = trace w ++ evs0
    ∧ Forall (fun e => is_pass_event e = true) evs0
    ∧ _compute_metrics obj gripper config stable_pose_id metric_name overwrite w
      = match r1, dataset w1 with
        | Ok gm, Some d =>
            (Ok tt,
             with_dataset
               (with_event w1
                  (EvStoreGraspMetrics (key obj) gm (RobotGripper.name gripper) true))
               (ds_store_grasp_metrics d (key obj) gm (RobotGripper.name gripper) true))
        | Ok gm, None => (Raise (AttributeError "'NoneType' object has no attribute"), w1)
        | Raise e, _ => (Raise e, w1)
        end.
Proof.
  destruct (accumulate_emits obj gripper config stable_pose_id metric_name overwrite w)
    as (evs0 & Ht & Hev).
  destruct (accumulate_grasp_metrics obj gripper config stable_pose_id metric_name
              overwrite w) as [r1 w1] eqn:Hacc.
  exists evs0, r1, w1. split; [done |]. split; [exact Ht |]. split; [exact Hev |].
  unfold _compute_metrics. rewrite bind_run, Hacc.
  destruct r1 as [gm | e]; [| done].
  unfold store_grasp_metrics, get_dataset. rewrite bind_run.
  by destruct (dataset w1) as [d |].
Qed.

(** C6.  Whenever a metric pass completes, whatever the caller's
    [overwrite], the record accumulated by the pass is handed to
    [store_grasp_metrics] with [force_overwrite=True]: the call is the last
    event of the pass, no other store call precedes it, and the dataset is
    the one returned by that call. *)
Theorem store_forces_overwrite obj gripper (config : api_config Spec) stable_pose_id
    metric_name (overwrite : bool) (w : world G D DB) :
  (_compute_metrics obj gripper config stable_pose_id metric_name overwrite w).1 = Ok tt →
  ∃ gm w1 d evs0,
    accumulate_grasp_metrics obj gripper config stable_pose_id metric_name overwrite w
      = (Ok gm, w1)
    ∧ dataset w1 = Some d
    ∧ trace w1 = trace w ++ evs0
    ∧ Forall (fun e => is_store e = false) evs0
    ∧ trace (_compute_metrics obj gripper config stable_pose_id metric_name overwrite w).2
      = trace w ++ evs0
          ++ [EvStoreGraspMetrics (key obj) gm (RobotGripper.name gripper) true]
    ∧ dataset (_compute_metrics obj gripper config stable_pose_id metric_name overwrite w).2
      = Some (ds_store_grasp_metrics d (key obj) gm (RobotGripper.name gripper) true).
Proof.
  destruct (compute_metrics_pass_run obj gripper config stable_pose_id metric_name
              overwrite w) as (evs0 & r1 & w1 & Hacc & Ht & Hev & ->).
  destruct r1 as [gm | e]; [| done].
  destruct (dataset w1) as [d |] eqn:Hd; [| done].
  intros _. exists gm, w1, d, evs0.
  split; [done |]. split; [done |]. split; [done |]. split.
  { eapply Forall_impl; [exact Hev |]. intros e He. exact (proj1 (pass_event_other _ He)). }
  split; [| done]. simpl. by rewrite Ht, <- app_assoc.
Qed.

(** The events of one (object, gripper, metric) tuple. *)
Lemma tuple_body_run (config : api_config Spec) stable_pose overwrite obj_name gripper
    metric (w : world G D DB) (d : D) :
  dataset w = Some d → ds_has_grasps d obj_name (RobotGripper.name gripper) = true →
  let obj := ds_getitem d obj_name in
  let w0 := with_event (with_event w (EvHasGrasps obj_name (RobotGripper.name gripper) true))
              (EvGetObject obj_name) in
  tuple_body config stable_pose overwrite obj_name gripper metric w
  = match _compute_metrics obj gripper config stable_pose (Some metric) overwrite w0 with
    | (Ok _, w2) =>
        match database w2 with
        | Some db =>
            (Ok tt, with_event (World (Some (db_flush db)) (dataset w2) (progress w2)
                                  (rng w2) (trace w2 ++ [EvFlush])) EvGcCollect)
        | None => (Raise (AttributeError "'NoneType' object has no attribute"), w2)
        end
    | (Raise e, w2) => (Raise e, w2)
    end.
Proof.
  intros Hd Hfound. cbv zeta. unfold tuple_body.
  assert (Hget : (get_dataset : M D) w = (Ok d, w)).
  { unfold get_dataset. by rewrite Hd. }
  rewrite (bind_ok _ _ _ _ _ Hget), Hfound, bind_run. cbn [log negb].
  rewrite bind_run. cbn [log]. rewrite bind_run.
  match goal with |- context [_compute_metrics ?o ?g ?c ?s ?m ?ov ?w'] =>
    change w' with (with_event (with_event w
       (EvHasGrasps obj_name (RobotGripper.name gripper) true)) (EvGetObject obj_name));
    destruct (_compute_metrics o g c s m ov (with_event (with_event w
       (EvHasGrasps obj_name (RobotGripper.name gripper) true)) (EvGetObject obj_name)))
      as [[[] | e] w2]
  end; [| done].
  rewrite bind_run. unfold flush, get_database. rewrite bind_run.
  by destruct (database w2) as [db |].
Qed.

End Persistence.

(** ** The missing-grasps error *)
Section MissingGrasps.
Context {G D DB Spec : Type}.
Context `{!GraspOps G, !Dataset G D, !Database DB, !Collaborators G Spec, !Numpy}.

Local Abbreviation M := (@M G D DB).
Local Abbreviation not_missing := (fun e : event G => is_missing_grasps e = false).

Lemma halts_of_emits {A} (m : M A) : emits not_missing m → halts_on_missing_grasps m.
Proof. intros Hm w. destruct (Hm w) as (evs & Ht & Hev). exists evs. split; [done | by left]. Qed.

Lemma halts_bind {A B} (m : M A) (f : A → M B) :
  halts_on_missing_grasps m → (∀ a, halts_on_missing_grasps (f a)) →
  halts_on_missing_grasps (bind m f).
Proof.
  intros Hm Hf w. rewrite bind_run.
  destruct (Hm w) as (evs & Ht & [Hclean | (pre & o & g & -> & Hpre & Hr)]).
  - destruct (m w) as [[a | e] w']; simpl in Ht.
    + destruct (Hf a w') as (evs' & Ht' & [Hclean' | (pre & o & g & -> & Hpre & Hr)]).
      * exists (evs ++ evs'). rewrite Ht', Ht, app_assoc. split; [done |].
        left. by apply Forall_app.
      * exists ((evs ++ pre) ++ [EvHasGrasps o g false]).
        rewrite Ht', Ht, !app_assoc. split; [done |].
        right. exists (evs ++ pre), o, g. split; [done |]. split; [| done].
        by apply Forall_app.
    + exists evs. split; [done | by left].
  - destruct (m w) as [[a | e] w']; simpl in Ht, Hr; [done |].
    exists (pre ++ [EvHasGrasps o g false]). split; [done |].
    right. exists pre, o, g. split; [done |]. split; [done |].
    injection Hr as ->. reflexivity.
Qed.

Lemma halts_fold_loop {A S} (body : A → S → M S) (l : list A) :
  (∀ x s, halts_on_missing_grasps (body x s)) →
  ∀ s, halts_on_missing_grasps (fold_loop body l s).
Proof.
  intros Hbody. induction l as [| x l IH]; intros s; simpl.
  - apply halts_of_emits, emits_ret.
  - apply halts_bind; [apply Hbody | apply IH].
Qed.

Lemma halts_for_each {A} (body : A → M unit) (l : list A) :
  (∀ x, halts_on_missing_grasps (body x)) → halts_on_missing_grasps (for_each body l).
Proof. intros Hbody. apply halts_fold_loop. intros x _. apply Hbody. Qed.

Lemma compute_metrics_pass_no_check obj gripper (config : api_config Spec) stable_pose_id
    metric_name overwrite :
  emits not_missing
    (_compute_metrics obj gripper config stable_pose_id metric_name overwrite : M unit).
Proof.
  unfold _compute_metrics, store_grasp_metrics. emits_auto.
  eapply emits_weaken; [| apply accumulate_emits].
  intros e He. by destruct e.
Qed.

(** The check of line 688 fails: the error is raised after that one call. *)
Lemma tuple_body_missing (config : api_config Spec) stable_pose overwrite obj_name gripper
    metric (w : world G D DB) (d : D) :
  dataset w = Some d → ds_has_grasps d obj_name (RobotGripper.name gripper) = false →
  tuple_body config stable_pose overwrite obj_name gripper metric w
  = (Raise (RuntimeWarning (no_grasps_message (RobotGripper.name gripper) obj_name)),
     with_event w (EvHasGrasps obj_name (RobotGripper.name gripper) false)).
Proof.
  intros Hd Hfound. unfold tuple_body.
  assert (Hget : (get_dataset : M D) w = (Ok d, w)).
  { unfold get_dataset. by rewrite Hd. }
  by rewrite (bind_ok _ _ _ _ _ Hget), Hfound, bind_run.
Qed.

Lemma tuple_body_halts (config : api_config Spec) stable_pose overwrite obj_name gripper
    metric :
  halts_on_missing_grasps
    (tuple_body config stable_pose overwrite obj_name gripper metric : M unit).
Proof.
  intros w. destruct (dataset w) as [d |] eqn:Hd.
  - destruct (ds_has_grasps d obj_name (RobotGripper.name gripper)) eqn:Hfound.
    + unfold tuple_body.
      assert (Hget : (get_dataset : M D) w = (Ok d, w)).
      { unfold get_dataset. by rewrite Hd. }
      rewrite (bind_ok _ _ _ _ _ Hget), Hfound. cbn [negb].
      refine (halts_of_emits _ _ w). unfold flush. emits_auto.
      apply compute_metrics_pass_no_check.
    + rewrite (tuple_body_missing _ _ _ _ _ _ _ _ Hd Hfound).
      exists [EvHasGrasps obj_name (RobotGripper.name gripper) false].
      split; [done |]. right.
      by exists [], obj_name, (RobotGripper.name gripper).
  - exists []. rewrite app_nil_r. split; [| by left].
    unfold tuple_body, get_dataset. rewrite bind_run. by rewrite Hd.
Qed.

Lemma compute_metrics_halts (config : api_config Spec) metric_name object_name
    gripper_name stable_pose overwrite :
  halts_on_missing_grasps
    (compute_metrics config metric_name object_name gripper_name stable_pose overwrite
     : M unit).
Proof.
  unfold compute_metrics.
  apply halts_bind.
  { apply halts_of_emits. intros w. exists []. rewrite app_nil_r. split; [| done].
    unfold _check_opens. by destruct (database w), (dataset w). }
  intros _. apply halts_bind.
  { apply halts_of_emits. unfold select_name. emits_auto. }
  intros grippers. apply halts_bind; [apply halts_of_emits, emits_get_dataset |].
  intros d. apply halts_bind.
  { apply halts_of_emits. unfold select_name. emits_auto. }
  intros objects. apply halts_bind.
  { apply halts_of_emits. unfold select_metrics. emits_auto. }
  intros metrics. apply halts_for_each. intros obj_name.
  apply halts_for_each. intros gname. unfold gripper_body.
  apply halts_bind; [apply halts_of_emits; emits_auto |].
  intros _. apply halts_bind; [apply halts_of_emits; emits_auto |].
  intros gripper. apply halts_for_each. intros metric. apply tuple_body_halts.
Qed.


End MissingGrasps.

(** ** Claims on the sampler *)





(** ** Claim on the variant expansion *)
Section Expansion.
Context {G Spec : Type} `{!Collaborators G Spec}.

Lemma is_gravity_method_spec (m : string) :
  is_gravity_method m = true ↔
  m ∈ ["partial_closure"; "wrench_resistance"; "suction_wrench_resistance"].
Proof.
  unfold is_gravity_method. rewrite !orb_true_iff, !String.eqb_eq, !elem_of_cons.
  split; [intros [[-> | ->] | ->]; auto | intros [-> | [-> | [-> | []%elem_of_nil]]]; auto].
Qed.

Lemma expand_loop {A B C} (f : A → B) (g : A → C) (l : list A) (bs : list B) (cs : list C) :
  foldl (fun acc x => (acc.1 ++ [f x], acc.2 ++ [g x])) (bs, cs) l
  = (bs ++ (f <$> l), cs ++ (g <$> l)).
Proof.
  revert bs cs. induction l as [| x l IH]; intros bs cs; simpl.
  - by rewrite !app_nil_r.
  - by rewrite IH, <- !app_assoc.
Qed.

Lemma zip_fmap_both {A B C} (f : A → B) (g : A → C) (l : list A) :
  zip (f <$> l) (g <$> l) = (fun x => (f x, g x)) <$> l.
Proof. induction l as [| x l IH]; simpl; [done | by f_equal]. Qed.

Lemma metric_variants_gravity obj metric_name metric_config stable_poses :
  is_gravity_method (quality_method metric_config) = true →
  metric_variants obj metric_name metric_config stable_poses
  = (fun sp => (metric_name +:+ "_" +:+ sp_id sp,
                with_target_wrench metric_config (_gravity_wrench GRAVITY_ACCEL obj sp)))
    <$> stable_poses.
Proof.
  intros Hg. unfold metric_variants, expand_variants. rewrite Hg.
  rewrite (expand_loop
             (fun sp => metric_name +:+ "_" +:+ sp_id sp)
             (fun sp => with_target_wrench metric_config
                          (_gravity_wrench GRAVITY_ACCEL obj sp))).
  simpl. apply zip_fmap_both.
Qed.

(** C1.  For a metric whose quality method is 'partial_closure',
    'wrench_resistance' or 'suction_wrench_resistance' and [k] stable poses,
    the expansion gives [k] variants, the [i]-th named
    [<metric>_<pose.id>] after the [i]-th pose, its configuration being the
    metric's with [target_wrench] set to the gravity wrench of that pose; for
    any other quality method it gives the single variant made of the
    original name and configuration. *)
Theorem variant_expansion obj metric_name metric_config stable_poses :
  let variants := metric_variants obj metric_name metric_config stable_poses in
  (quality_method metric_config
     ∈ ["partial_closure"; "wrench_resistance"; "suction_wrench_resistance"] →
   length variants = length stable_poses
   ∧ ∀ i sp, stable_poses !! i = Some sp →
       ∃ cfg, variants !! i = Some (metric_name +:+ "_" +:+ sp_id sp, cfg)
              ∧ cfg = with_target_wrench metric_config
                        (_gravity_wrench GRAVITY_ACCEL obj sp)
              ∧ target_wrench cfg = Some (_gravity_wrench GRAVITY_ACCEL obj sp))
  ∧ (quality_method metric_config
       ∉ ["partial_closure"; "wrench_resistance"; "suction_wrench_resistance"] →
     variants = [(metric_name, metric_config)]).
Proof.
  cbv zeta. split.
  - intros Hg%is_gravity_method_spec. rewrite (metric_variants_gravity _ _ _ _ Hg).
    split; [by rewrite length_fmap |].
    intros i sp Hi. eexists. rewrite list_lookup_fmap, Hi. simpl. done.
  - intros Hg. unfold metric_variants, expand_variants.
    destruct (is_gravity_method (quality_method metric_config)) eqn:E; [| done].
    by apply is_gravity_method_spec in E.
Qed.

End Expansion.

(** ** The work done before the record is stored *)
Section Marks.
Context {G D DB : Type}.

Local Abbreviation M := (@M G D DB).

Lemma leaves_ret {A} (a : A) : leaves_marks (ret a : M A) [].
Proof. intros w a' w' [= <- <-]. exists []. by rewrite app_nil_r. Qed.

Lemma leaves_raise {A} (e : exn) (marks : list processing_mark) :
  leaves_marks (raise e : M A) marks.
Proof. by intros w a w'. Qed.

Lemma leaves_lift {A} (x : result A) : leaves_marks (lift x : M A) [].
Proof. intros w a w' [= _ <-]. exists []. by rewrite app_nil_r. Qed.

Lemma leaves_log (e : event G) : leaves_marks (log e : M unit) (processing_marks [e]).
Proof. intros w a w' [= _ <-]. by exists [e]. Qed.

Lemma leaves_get_dataset : leaves_marks (get_dataset : M D) [].
Proof.
  intros w a w'. unfold get_dataset. destruct (dataset w); [| done].
  intros [= _ <-]. exists []. by rewrite app_nil_r.
Qed.

Lemma leaves_put_dataset (d : D) : leaves_marks (put_dataset d : M unit) [].
Proof. intros w a w' [= _ <-]. exists []. by rewrite app_nil_r. Qed.

Lemma leaves_set_progress (q : Q) : leaves_marks (set_progress q : M unit) [].
Proof. intros w a w' [= _ <-]. exists []. by rewrite app_nil_r. Qed.

Lemma leaves_next_oracle (called : bool) : leaves_marks (next_oracle called : M (list nat)) [].
Proof.
  intros w a w'. unfold next_oracle.
  destruct called; intros [= _ <-]; exists []; by rewrite app_nil_r.
Qed.

Lemma leaves_bind {A B} (m : M A) (f : A → M B) (marks1 marks2 marks : list processing_mark) :
  leaves_marks m marks1 → (∀ a, leaves_marks (f a) marks2) → marks = marks1 ++ marks2 →
  leaves_marks (bind m f) marks.
Proof.
  intros Hm Hf -> w b w' Hrun. rewrite bind_run in Hrun.
  destruct (m w) as [[a | e] w0] eqn:E; [| done].
  destruct (Hm w a w0 E) as (evs1 & Ht1 & <-).
  destruct (Hf a w0 b w' Hrun) as (evs2 & Ht2 & <-).
  exists (evs1 ++ evs2). rewrite Ht2, Ht1, app_assoc. split; [done |].
  unfold processing_marks. apply omap_app.
Qed.

Lemma leaves_bind_lift {A B} (a : A) (f : A → M B) (marks : list processing_mark) :
  leaves_marks (f a) marks → leaves_marks (bind (lift (Ok a)) f) marks.
Proof. intros Hf w b w' Hrun. exact (Hf w b w' Hrun). Qed.

Lemma leaves_fold_loop {A S} (body : A → S → M S) (l : list A)
    (marks : A → list processing_mark) :
  (∀ x s, leaves_marks (body x s) (marks x)) →
  ∀ s, leaves_marks (fold_loop body l s) (l ≫= marks).
Proof.
  intros Hbody. induction l as [| x l IH]; intros s; simpl; [apply leaves_ret |].
  eapply leaves_bind; [apply Hbody | apply IH | done].
Qed.

End Marks.

(** Discharges [leaves_marks] goals over code built from the primitives. *)
Ltac marks_step :=
  match goal with
  | |- leaves_marks (bind _ _) _ => eapply leaves_bind; [| intros ? |]
  | |- leaves_marks (ret _) _ => apply leaves_ret
  | |- leaves_marks (raise _) _ => apply leaves_raise
  | |- leaves_marks (lift _) _ => apply leaves_lift
  | |- leaves_marks (log _) _ => apply leaves_log
  | |- leaves_marks get_dataset _ => apply leaves_get_dataset
  | |- leaves_marks (put_dataset _) _ => apply leaves_put_dataset
  | |- leaves_marks (set_progress _) _ => apply leaves_set_progress
  | |- leaves_marks (next_oracle _) _ => apply leaves_next_oracle
  | |- leaves_marks (if ?b then _ else _) _ => destruct b
  | |- leaves_marks (match ?x with _ => _ end) _ => destruct x
  | |- _ = _ => simpl; reflexivity
  end.

Ltac marks_auto := repeat marks_step.

Section WholePass.
Context {G D DB Spec : Type}.
Context `{!GraspOps G, !Dataset G D, !Database DB, !Collaborators G Spec, !Numpy}.

Local Abbreviation M := (@M G D DB).
Local Abbreviation not_store := (fun e : event G => is_store e = false).
Local Abbreviation not_flush := (fun e : event G => is_flush e = false).

Lemma grasp_body_marks obj gripper (config : api_config Spec) overwrite stable_poses
    ind n_grasps metric_name metric_config quality_fn kg gm :
  leaves_marks
    (grasp_body obj gripper config overwrite stable_poses ind n_grasps metric_name
       metric_config quality_fn kg gm : M _)
    [GraspProcessed (grasp_id kg.2)].
Proof.
  unfold grasp_body, report_progress, index_pose, call_quality_fn. marks_auto.
Qed.

Lemma bind_enumerate {A} (l : list A) (marks : A → list processing_mark) :
  enumerate l ≫= (fun kx => marks kx.2) = l ≫= marks.
Proof.
  unfold enumerate. generalize 0%nat as k.
  induction l as [| x l IH]; intros k; simpl; [done |]. f_equal. apply IH.
Qed.

Lemma variant_body_marks obj gripper (config : api_config Spec) overwrite stable_poses
    grasps v st :
  leaves_marks
    (variant_body obj gripper config overwrite stable_poses grasps v st : M _)
    (variant_plan grasps v.1).
Proof.
  unfold variant_body. marks_auto.
  - apply (leaves_fold_loop _ _ (fun kg => [GraspProcessed (grasp_id kg.2)])).
    intros kg gm. apply grasp_body_marks.
  - simpl. unfold variant_plan. f_equal.
    rewrite (bind_enumerate grasps (fun g => [GraspProcessed (grasp_id g)])), app_nil_r.
    clear. induction grasps as [| g grasps IH]; simpl; [done |]. by f_equal.
Qed.

Lemma bind_fst {A B} (l : list (string * A)) (marks : string → list B) :
  l ≫= (fun v => marks v.1) = l.*1 ≫= marks.
Proof. induction l as [| v l IH]; simpl; [done |]. by f_equal. Qed.

Lemma metric_variants_names obj metric_name metric_config stable_poses :
  (metric_variants obj metric_name metric_config stable_poses).*1
  = variant_names metric_name (quality_method metric_config) stable_poses.
Proof.
  unfold variant_names.
  destruct (is_gravity_method (quality_method metric_config)) eqn:Hg.
  - rewrite (metric_variants_gravity _ _ _ _ Hg), <- list_fmap_compose. done.
  - unfold metric_variants, expand_variants. by rewrite Hg.
Qed.

Lemma metric_body_marks obj gripper (config : api_config Spec) overwrite stable_poses
    grasps m gm :
  leaves_marks
    (metric_body obj gripper config overwrite stable_poses grasps m gm : M _)
    (metric_plan stable_poses grasps m).
Proof.
  unfold metric_body, metric_plan.
  destruct (create_config m.2) as [metric_config | e]; [| by intros w a w'].
  eapply leaves_bind; [apply leaves_log | intros _ | reflexivity ].
  apply leaves_bind_lift. marks_auto.
  - apply (leaves_fold_loop _ _ (fun v => variant_plan grasps v.1)).
    intros v st. apply variant_body_marks.
  - simpl. by rewrite app_nil_r, bind_fst, metric_variants_names.
Qed.

Lemma bind_ok_inv {A B} (m : M A) (f : A → M B) (w w' : world G D DB) (b : B) :
  bind m f w = (Ok b, w') → ∃ a w0, m w = (Ok a, w0) ∧ f a w0 = (Ok b, w').
Proof.
  rewrite bind_run. destruct (m w) as [[a | e] w0]; [| done]. intros Hf. by exists a, w0.
Qed.

Lemma load_stable_poses_run obj stable_pose_id (w w' : world G D DB) poses :
  load_stable_poses obj stable_pose_id w = (Ok poses, w') →
  ∃ d e, dataset w = Some d ∧ poses = listed_stable_poses d obj stable_pose_id
         ∧ w' = with_event w e ∧ processing_mark_of e = None.
Proof.
  unfold load_stable_poses, get_dataset. rewrite bind_run.
  destruct (dataset w) as [d |] eqn:Hd; [| done].
  destruct stable_pose_id as [i |]; intros [= <- <-]; exists d; eexists; done.
Qed.

Lemma subsample_stable_poses_run (config : api_config Spec) poses0 (w w' : world G D DB)
    poses :
  subsample_stable_poses config poses0 w = (Ok poses, w') →
  ∃ oracle evs,
    sample_stable_poses oracle poses0 (max_stable_poses config) = Ok poses
    ∧ trace w' = trace w ++ evs ∧ processing_marks evs = [] ∧ dataset w' = dataset w.
Proof.
  unfold subsample_stable_poses. cbv zeta.
  destruct (max_stable_poses config <? Z.of_nat (length poses0))%Z;
    unfold bind, next_oracle, log, lift, ret; simpl.
  - intros [= Hs <-]. exists (hd [] (rng w)), [EvRandomChoice (max_stable_poses config)]. done.
  - intros [= Hs <-]. exists [], []. by rewrite app_nil_r.
Qed.

(** The marks of the accumulation phase: the plan of the pass, for the
    stable poses the sampler retained. *)
Lemma accumulate_marks obj gripper (config : api_config Spec) stable_pose_id
    metric_name overwrite (w w1 : world G D DB) (gm : grasp_metrics_record) :
  accumulate_grasp_metrics obj gripper config stable_pose_id metric_name overwrite w
    = (Ok gm, w1) →
  ∃ d oracle stable_poses evs0,
    dataset w = Some d
    ∧ sample_stable_poses oracle (listed_stable_poses d obj stable_pose_id)
        (max_stable_poses config) = Ok stable_poses
    ∧ trace w1 = trace w ++ evs0
    ∧ processing_marks evs0
      = pass_plan stable_poses (ds_grasps d (key obj) (RobotGripper.name gripper))
          (metric_dict config metric_name).
Proof.
  unfold accumulate_grasp_metrics. intros Hrun.
  apply bind_ok_inv in Hrun as (d & w0 & Hget & Hrun).
  assert (Hd : dataset w = Some d ∧ w0 = w).
  { unfold get_dataset in Hget. destruct (dataset w); [| done]. by injection Hget as -> ->. }
  destruct Hd as [Hd ->].
  apply bind_ok_inv in Hrun as ([] & wa & Hlog & Hrun). injection Hlog as <-.
  apply bind_ok_inv in Hrun as (poses0 & wb & Hload & Hrun).
  apply load_stable_poses_run in Hload as (d' & e & Hd' & -> & -> & He).
  simpl in Hd'. rewrite Hd in Hd'. injection Hd' as <-.
  apply bind_ok_inv in Hrun as (poses & wc & Hsub & Hrun).
  apply subsample_stable_poses_run in Hsub as (oracle & evs & Hsample & Htc & Hmc & _).
  pose proof (leaves_fold_loop _ (metric_dict config metric_name) _
                (metric_body_marks obj gripper config overwrite poses
                   (ds_grasps d (key obj) (RobotGripper.name gripper)))
                ∅ wc gm w1 Hrun) as (evs1 & Ht1 & Hm1).
  exists d, oracle, poses,
    ([EvGrasps (key obj) (RobotGripper.name gripper)] ++ [e] ++ evs ++ evs1).
  split; [done |]. split; [done |]. split.
  - rewrite Ht1, Htc. simpl. by rewrite <- !app_assoc.
  - unfold processing_marks in *. rewrite !omap_app, Hmc, Hm1. simpl. by rewrite He.
Qed.

(** C9.  During a metric pass nothing is stored before the accumulation of
    the record is over.  A completed pass has worked through every grasp of
    every variant of every metric it was asked for, in the order of the
    loops, for the stable poses the sampler retained: the calls that open
    the work on a variant and on a grasp are exactly those of the plan of
    the pass.  It then made exactly one store call, its last event, after
    every other call of the pass; an aborted pass made none.  In the loop
    body of [compute_metrics] the flush is requested once, directly after
    that store call, and never when the pass aborted. *)
Theorem store_once_after_all_grasps obj gripper (config : api_config Spec)
    stable_pose_id metric_name overwrite (w : world G D DB) :
  (let run := _compute_metrics obj gripper config stable_pose_id metric_name overwrite w in
   ∃ evs, trace run.2 = trace w ++ evs ∧
     match run.1 with
     | Ok _ =>
         ∃ evs0 gm w1 d oracle stable_poses,
           accumulate_grasp_metrics obj gripper config stable_pose_id metric_name
             overwrite w = (Ok gm, w1)
           ∧ trace w1 = trace w ++ evs0
           ∧ Forall (fun e => is_store e = false) evs0
           ∧ evs = evs0 ++ [EvStoreGraspMetrics (key obj) gm (RobotGripper.name gripper) true]
           ∧ dataset w = Some d
           ∧ sample_stable_poses oracle (listed_stable_poses d obj stable_pose_id)
               (max_stable_poses config) = Ok stable_poses
           ∧ processing_marks evs0
             = pass_plan stable_poses (ds_grasps d (key obj) (RobotGripper.name gripper))
                 (metric_dict config metric_name)
     | Raise _ => Forall (fun e => is_store e = false) evs
     end)
  ∧ ∀ obj_name metric d,
      dataset w = Some d → ds_has_grasps d obj_name (RobotGripper.name gripper) = true →
      let obj := ds_getitem d obj_name in
      let run := tuple_body config stable_pose_id overwrite obj_name gripper metric w in
      ∃ evs, trace run.2 = trace w ++ evs ∧
        match run.1 with
        | Ok _ =>
            ∃ evs0 gm oracle stable_poses,
              Forall (fun e => is_store e = false ∧ is_flush e = false) evs0
              ∧ evs = [EvHasGrasps obj_name (RobotGripper.name gripper) true;
                       EvGetObject obj_name]
                      ++ evs0
                      ++ [EvStoreGraspMetrics (key obj) gm (RobotGripper.name gripper) true;
                          EvFlush; EvGcCollect]
              ∧ sample_stable_poses oracle (listed_stable_poses d obj stable_pose_id)
                  (max_stable_poses config) = Ok stable_poses
              ∧ processing_marks evs0
                = pass_plan stable_poses
                    (ds_grasps d (key obj) (RobotGripper.name gripper))
                    (metric_dict config (Some metric))
        | Raise _ => Forall (fun e => is_flush e = false) evs
        end.
Proof.
  split.
  - cbv zeta.
    destruct (compute_metrics_pass_run obj gripper config stable_pose_id metric_name
                overwrite w) as (evs0 & r1 & w1 & Hacc & Ht & Hev & ->).
    assert (Hns : Forall not_store evs0).
    { eapply Forall_impl; [exact Hev |]. intros e He. exact (proj1 (pass_event_other _ He)). }
    destruct r1 as [gm | e]; [destruct (dataset w1) as [d1 |] eqn:Hd1 |].
    + exists (evs0 ++ [EvStoreGraspMetrics (key obj) gm (RobotGripper.name gripper) true]).
      simpl. rewrite Ht, <- app_assoc. split; [done |].
      destruct (accumulate_marks _ _ _ _ _ _ _ _ _ Hacc)
        as (d & oracle & poses & evs0' & Hd & Hsample & Ht' & Hmarks).
      rewrite Ht in Ht'. apply app_inv_head in Ht' as <-.
      by exists evs0, gm, w1, d, oracle, poses.
    + by exists evs0.
    + by exists evs0.
  - intros obj_name metric d Hd Hfound. cbv zeta.
    rewrite (tuple_body_run _ _ _ _ _ _ _ _ Hd Hfound). cbv zeta.
    set (w0 := with_event (with_event w _) _).
    destruct (compute_metrics_pass_run (ds_getitem d obj_name) gripper config
                stable_pose_id (Some metric) overwrite w0)
      as (evs0 & r1 & w1 & Hacc & Ht & Hev & ->).
    assert (Hw0 : trace w0 = trace w ++ [EvHasGrasps obj_name (RobotGripper.name gripper) true;
                                         EvGetObject obj_name]).
    { unfold w0. by rewrite !trace_with_event, <- app_assoc. }
    assert (Hq : Forall (fun e => is_store e = false ∧ is_flush e = false) evs0).
    { eapply Forall_impl; [exact Hev |]. intros e He.
      apply pass_event_other in He as (? & ? & _). done. }
    assert (Hnf : Forall not_flush evs0).
    { eapply Forall_impl; [exact Hq |]. by intros e [_ ?]. }
    destruct r1 as [gm | e]; [destruct (dataset w1) as [d1 |] eqn:Hd1 |].
    + destruct (database (with_dataset _ _)) as [db |] eqn:Hdb.
      * eexists. split.
        { simpl. rewrite Ht, Hw0. rewrite <- !app_assoc. reflexivity. }
        simpl.
        destruct (accumulate_marks _ _ _ _ _ _ _ _ _ Hacc)
          as (d' & oracle & poses & evs0' & Hd' & Hsample & Ht' & Hmarks).
        rewrite Ht in Ht'. apply app_inv_head in Ht' as <-.
        assert (d' = d) as -> by (unfold w0 in Hd'; simpl in Hd'; congruence).
        by exists evs0, gm, oracle, poses.
      * eexists. split.
        { simpl. rewrite Ht, Hw0. rewrite <- !app_assoc. reflexivity. }
        simpl. repeat (apply Forall_cons; split; [done |]).
        apply Forall_app. split; [done |]. by repeat constructor.
    + eexists. split; [simpl; rewrite Ht, Hw0, <- !app_assoc; reflexivity |].
      simpl. by repeat (apply Forall_cons; split; [done |]).
    + eexists. split; [simpl; rewrite Ht, Hw0, <- !app_assoc; reflexivity |].
      simpl. by repeat (apply Forall_cons; split; [done |]).
Qed.

End WholePass.

(** ** The claims on the concrete scenario *)
Section ScenarioRuns.
Import Scenario.

Lemma gravity_wrench_unit_mass_witness :
  mass unit_object == 1
  ∧ vx (row2 (r flat_pose)) == 0 ∧ vy (row2 (r flat_pose)) == 0
  ∧ vz (row2 (r flat_pose)) == 1
  ∧ array_eq (force_component (_gravity_wrench (981 # 100) unit_object flat_pose))
      [0; 0; 981 # 100].
Proof.
  split; [reflexivity |]. split; [reflexivity |]. split; [reflexivity |].
  split; [reflexivity |].
  exact (proj1 (gravity_wrench_unit_mass unit_object flat_pose
                  (Qeq_refl _) (Qeq_refl _) (Qeq_refl _) (Qeq_refl _))).
Defined.

Lemma variant_expansion_witness :
  length (metric_variants unit_object "wr" wrench_resistance_config poses_weighted) = 3%nat
  ∧ metric_variants unit_object "fc" force_closure_config poses_weighted
    = [("fc", force_closure_config)].
Proof.
  destruct (variant_expansion unit_object "wr" wrench_resistance_config poses_weighted)
    as [Hgravity _].
  destruct (variant_expansion unit_object "fc" force_closure_config poses_weighted)
    as [_ Hother].
  split.
  - apply Hgravity. apply (bool_decide_unpack _). by vm_compute.
  - apply Hother. apply (bool_decide_unpack _). by vm_compute.
Defined.



Lemma feasibility_gate_witness :
  perpendicular_table wrench_resistance_config (align_grasp yumi side_grasp flat_pose)
    flat_pose = false
  ∧ trace (grasp_body unit_object yumi config true [flat_pose] 0 2 "wr_pose_0"
             wrench_resistance_config half (1%nat, side_grasp) ∅
             (world_of dataset_with_grasps)).2
    = [EvGraspMetrics "mug" 1 "yumi"].
Proof.
  assert (Hinf : perpendicular_table wrench_resistance_config
                   (align_grasp yumi side_grasp flat_pose) flat_pose = false)
    by by vm_compute.
  split; [exact Hinf |].
  assert (Hrate : metric_display_rate config ≠ 0%Z) by (simpl; lia).
  destruct (feasibility_gate unit_object yumi config true [flat_pose] 0 2 "wr_pose_0"
              wrench_resistance_config half 1 side_grasp ∅
              (world_of dataset_with_grasps) dataset_with_grasps flat_pose
              Hrate eq_refl eq_refl eq_refl)
    as (_ & _ & _ & Hgate & _).
  exact (proj1 (proj2 (Hgate Hinf))).
Defined.

Lemma skip_existing_metric_witness :
  grasp_body unit_object yumi config false [flat_pose] 0 2 "fc" force_closure_config half
    (0%nat, top_grasp) ∅ (world_of dataset_with_metrics)
  = (Ok (init_grasp_entry ∅ 0),
     with_event (report_progress config 0 2 (world_of dataset_with_metrics)).2
       (EvGraspMetrics "mug" 0 "yumi")).
Proof.
  assert (Hrate : metric_display_rate config ≠ 0%Z) by (simpl; lia).
  destruct (skip_existing_metric unit_object yumi config false [flat_pose] 0 2 "fc"
              force_closure_config half 0 top_grasp ∅
              (world_of dataset_with_metrics) dataset_with_metrics Hrate eq_refl)
    as [Hplain _].
  destruct (Hplain eq_refl) as [Hskip _].
  apply Hskip; [| reflexivity].
  apply (bool_decide_unpack _). by vm_compute.
Defined.

Lemma store_forces_overwrite_witness :
  ∃ gm evs0,
    trace (_compute_metrics unit_object yumi config None (Some "fc") false
             (world_of dataset_with_metrics)).2
    = [] ++ evs0 ++ [EvStoreGraspMetrics "mug" gm "yumi" true].
Proof.
  assert (Hok : (_compute_metrics unit_object yumi config None (Some "fc") false
                   (world_of dataset_with_metrics)).1 = Ok tt) by by vm_compute.
  destruct (store_forces_overwrite unit_object yumi config None (Some "fc") false
              (world_of dataset_with_metrics) Hok)
    as (gm & w1 & d & evs0 & _ & _ & _ & _ & Ht & _).
  exists gm, evs0. exact Ht.
Defined.

Lemma store_once_after_all_grasps_witness :
  ∃ evs0 gm,
    (tuple_body config None true "mug" yumi "wr" (world_of dataset_with_grasps)).1 = Ok tt
    ∧ trace (tuple_body config None true "mug" yumi "wr" (world_of dataset_with_grasps)).2
      = [EvHasGrasps "mug" "yumi" true; EvGetObject "mug"] ++ evs0
        ++ [EvStoreGraspMetrics "mug" gm "yumi" true; EvFlush; EvGcCollect]
    ∧ Forall (fun e => is_store e = false ∧ is_flush e = false) evs0
    ∧ processing_marks evs0
      = [VariantStarted "wr_pose_0"; GraspProcessed 0; GraspProcessed 1].
Proof.
  assert (Hfound : ds_has_grasps dataset_with_grasps "mug" (RobotGripper.name yumi) = true)
    by by vm_compute.
  destruct (proj2 (store_once_after_all_grasps unit_object yumi config None (Some "wr") true
                     (world_of dataset_with_grasps))
              "mug" "wr" dataset_with_grasps eq_refl Hfound) as (evs & Ht & Hrun).
  assert (Hok : (tuple_body config None true "mug" yumi "wr"
                   (world_of dataset_with_grasps)).1 = Ok tt) by by vm_compute.
  rewrite Hok in Hrun.
  destruct Hrun as (evs0 & gm & oracle & poses & Hquiet & -> & Hsample & Hmarks).
  exists evs0, gm. split; [exact Hok |]. split; [exact Ht |]. split; [exact Hquiet |].
  vm_compute in Hsample. injection Hsample as <-. rewrite Hmarks. by vm_compute.
Defined.


End ScenarioRuns.

(** * Further properties of the metric computation *)

(** ** Argument checks of [compute_metrics] (lines 660-682) *)
Section ArgumentChecks.
Context {G D DB Spec : Type}.
Context `{!GraspOps G, !Dataset G D, !Database DB, !Collaborators G Spec, !Numpy}.

Local Abbreviation M := (@M G D DB).

Lemma check_opens_run (w : world G D DB) (db : DB) (d : D) :
  database w = Some db → dataset w = Some d → (_check_opens : M unit) w = (Ok tt, w).
Proof. intros Hdb Hd. unfold _check_opens. by rewrite Hdb, Hd. Qed.

Lemma get_dataset_run (w : world G D DB) (d : D) :
  dataset w = Some d → (get_dataset : M D) w = (Ok d, w).
Proof. intros Hd. unfold get_dataset. by rewrite Hd. Qed.

Lemma select_name_known (kind : string) (all : list string) (requested : option string)
    (w : world G D DB) :
  match requested with Some n => n ∈ all | None => True end →
  (select_name kind all requested : M _) w
  = (Ok (match requested with Some n => [n] | None => all end), w).
Proof.
  intros Hreq. unfold select_name. destruct requested as [n |]; [| done].
  by rewrite bool_decide_eq_true_2.
Qed.

Lemma select_name_unknown (kind : string) (all : list string) (n : string)
    (w : world G D DB) :
  n ∉ all →
  (select_name kind all (Some n) : M _) w
  = (Raise (ValueError (n +:+ " is not a valid " +:+ kind +:+ " name")), w).
Proof. intros Hn. unfold select_name. by rewrite bool_decide_eq_false_2. Qed.

(** X1.  Without an open database, or with an open database but no open
    dataset, [compute_metrics] raises [RuntimeError] (the database is
    checked first) and leaves everything as it was: no collaborator is
    called. *)
Theorem compute_metrics_requires_open (config : api_config Spec) metric_name object_name
    gripper_name stable_pose overwrite (w : world G D DB) :
  (database w = None →
   compute_metrics config metric_name object_name gripper_name stable_pose overwrite w
   = (Raise (RuntimeError "You must open a database first"), w))
  ∧ (is_Some (database w) → dataset w = None →
     compute_metrics config metric_name object_name gripper_name stable_pose overwrite w
     = (Raise (RuntimeError "You must open a dataset first"), w)).
Proof.
  split.
  - intros Hdb. unfold compute_metrics. rewrite bind_run. unfold _check_opens.
    by rewrite Hdb.
  - intros [db Hdb] Hd. unfold compute_metrics. rewrite bind_run. unfold _check_opens.
    by rewrite Hdb, Hd.
Qed.

(** X2.  With database and dataset open, a gripper name that is not in the
    gripper directory makes [compute_metrics] raise [ValueError]; with a
    valid (or no) gripper name, an object name that is not a key of the
    dataset does.  The gripper is checked before the object, and in both
    cases nothing has been called or changed. *)
Theorem compute_metrics_rejects_unknown_names (config : api_config Spec) metric_name
    object_name gripper_name stable_pose overwrite (w : world G D DB) (db : DB) (d : D) :
  database w = Some db → dataset w = Some d →
  (∀ g, gripper_name = Some g → g ∉ list_grippers (gripper_dir config) →
     compute_metrics config metric_name object_name gripper_name stable_pose overwrite w
     = (Raise (ValueError (g +:+ " is not a valid gripper name")), w))
  ∧ (∀ o, match gripper_name with
          | Some g => g ∈ list_grippers (gripper_dir config)
          | None => True
          end →
     object_name = Some o → o ∉ ds_object_keys d →
     compute_metrics config metric_name object_name gripper_name stable_pose overwrite w
     = (Raise (ValueError (o +:+ " is not a valid object name")), w)).
Proof.
  intros Hdb Hd. split.
  - intros g -> Hg. unfold compute_metrics.
    rewrite (bind_ok _ _ _ _ _ (check_opens_run w db d Hdb Hd)).
    by rewrite (bind_raise _ _ _ _ _ (select_name_unknown "gripper" _ g w Hg)).
  - intros o Hg -> Ho. unfold compute_metrics.
    rewrite (bind_ok _ _ _ _ _ (check_opens_run w db d Hdb Hd)).
    rewrite (bind_ok _ _ _ _ _ (select_name_known "gripper" _ gripper_name w Hg)).
    rewrite (bind_ok _ _ _ _ _ (get_dataset_run w d Hd)).
    by rewrite (bind_raise _ _ _ _ _ (select_name_unknown "object" _ o w Ho)).
Qed.

(** X3.  With valid gripper and object names, a metric name that is not a
    key of [config['metrics']] makes [compute_metrics] raise [RuntimeError],
    again before anything is called; the metric is the last argument
    checked. *)
Theorem compute_metrics_rejects_unknown_metric (config : api_config Spec) (m : string)
    object_name gripper_name stable_pose overwrite (w : world G D DB) (db : DB) (d : D) :
  database w = Some db → dataset w = Some d →
  match gripper_name with
  | Some g => g ∈ list_grippers (gripper_dir config)
  | None => True
  end →
  match object_name with Some o => o ∈ ds_object_keys d | None => True end →
  metrics config !! m = None →
  compute_metrics config (Some m) object_name gripper_name stable_pose overwrite w
  = (Raise (RuntimeError ("Metric " +:+ m +:+ " does not exist")), w).
Proof.
  intros Hdb Hd Hg Ho Hm. unfold compute_metrics.
  rewrite (bind_ok _ _ _ _ _ (check_opens_run w db d Hdb Hd)).
  rewrite (bind_ok _ _ _ _ _ (select_name_known "gripper" _ gripper_name w Hg)).
  rewrite (bind_ok _ _ _ _ _ (get_dataset_run w d Hd)).
  rewrite (bind_ok _ _ _ _ _ (select_name_known "object" _ object_name w Ho)).
  rewrite bind_run. unfold select_metrics.
  rewrite bool_decide_eq_false_2; [done |]. rewrite Hm. by intros [? ?].
Qed.

End ArgumentChecks.

(** ** Variant names (lines 534-538) *)
Section VariantNames.
Context {G Spec : Type} `{!Collaborators G Spec}.

Lemma string_app_inj (s a b : string) : s +:+ a = s +:+ b → a = b.
Proof. induction s as [| c s IH]; simpl; [done |]. intros [= Heq]. by apply IH. Qed.

(** X4.  When the stable poses have pairwise distinct ids, the variants of
    one metric have pairwise distinct names, and there are as many
    configurations as names. *)
Theorem variant_names_distinct obj metric_name metric_config
    (stable_poses : list stable_pose) :
  NoDup (sp_id <$> stable_poses) →
  NoDup (metric_variants obj metric_name metric_config stable_poses).*1
  ∧ length (expand_variants obj metric_name metric_config stable_poses).1
    = length (expand_variants obj metric_name metric_config stable_poses).2.
Proof.
  intros Hids. unfold metric_variants, expand_variants.
  destruct (is_gravity_method (quality_method metric_config)) eqn:Hg.
  - rewrite (expand_loop
               (fun sp => metric_name +:+ "_" +:+ sp_id sp)
               (fun sp => with_target_wrench metric_config
                            (_gravity_wrench GRAVITY_ACCEL obj sp))).
    cbn [fst snd app]. split; [| by rewrite !length_fmap].
    rewrite zip_fmap_both, <- list_fmap_compose.
    change (NoDup ((fun sp => metric_name +:+ "_" +:+ sp_id sp) <$> stable_poses)).
    rewrite (list_fmap_compose sp_id (fun i => metric_name +:+ "_" +:+ i)).
    apply NoDup_fmap_2; [| done].
    intros a b Hab. by apply string_app_inj, string_app_inj in Hab.
  - simpl. split; [| done]. apply NoDup_singleton.
Qed.

End VariantNames.

(** ** The grasp loop (lines 561-612) *)
Section GraspLoopFacts.
Context {G D DB Spec : Type}.
Context `{!GraspOps G, !Dataset G D, !Database DB, !Collaborators G Spec, !Numpy}.

Local Abbreviation M := (@M G D DB).

(** X5.  With [metric_display_rate = 0] the test [k % rate] divides by
    zero: every iteration of the grasp loop raises [ZeroDivisionError] at
    once, so that a loop over at least one grasp ends with that error
    without any call on the dataset or on the quality function. *)
Theorem zero_display_rate_raises obj gripper (config : api_config Spec) overwrite
    stable_poses ind metric_name metric_config quality_fn (grasps : list G)
    (gm : grasp_metrics_record) (w : world G D DB) :
  metric_display_rate config = 0%Z → grasps ≠ [] →
  fold_loop (grasp_body obj gripper config overwrite stable_poses ind (length grasps)
               metric_name metric_config quality_fn) (enumerate grasps) gm w
  = (Raise ZeroDivisionError, w).
Proof.
  intros Hrate Hne. destruct grasps as [| g grasps]; [done |].
  unfold enumerate. simpl. rewrite bind_run. unfold grasp_body at 1.
  rewrite bind_run. unfold report_progress. by rewrite Hrate.
Qed.

Lemma Q_of_nat_succ (k : nat) : inject_Z (Z.of_nat k) + 1 == inject_Z (Z.of_nat (S k)).
Proof. rewrite Nat2Z.inj_succ, <- Z.add_1_r, inject_Z_plus. reflexivity. Qed.

(** X6.  With a non-zero display rate, the progress field is written exactly
    when the rate divides the index [k] of the grasp, hence always for the
    first grasp; the value written is [(k+1)/len(grasps)], a fraction in
    (0, 1]; nothing else of the world changes. *)
Theorem progress_is_a_fraction (config : api_config Spec) (k n : nat) (w : world G D DB) :
  metric_display_rate config ≠ 0%Z → (k < n)%nat →
  let run := (report_progress config k n : M unit) w in
  run.1 = Ok tt
  ∧ trace run.2 = trace w ∧ dataset run.2 = dataset w
  ∧ database run.2 = database w ∧ rng run.2 = rng w
  ∧ ((Z.of_nat k mod metric_display_rate config = 0)%Z →
     progress run.2 = (inject_Z (Z.of_nat k) + 1) / inject_Z (Z.of_nat n)
     ∧ 0 < progress run.2 ∧ progress run.2 <= 1)
  ∧ ((Z.of_nat k mod metric_display_rate config ≠ 0)%Z → progress run.2 = progress w)
  ∧ (k = 0%nat → progress run.2 = 1 / inject_Z (Z.of_nat n)).
Proof.
  intros Hrate Hk. cbv zeta. unfold report_progress.
  rewrite (proj2 (Z.eqb_neq _ _) Hrate).
  assert (Hn : 0 < inject_Z (Z.of_nat n)).
  { change 0 with (inject_Z 0). rewrite <- Zlt_Qlt. lia. }
  destruct (Z.eqb_spec (Z.of_nat k mod metric_display_rate config) 0) as [Hz | Hnz];
    simpl; repeat (split; [done |]).
  - split; [| split; [done |]].
    + intros _. split; [done |]. split.
      * apply Qlt_shift_div_l; [done |]. rewrite Qmult_0_l, Q_of_nat_succ.
        change 0 with (inject_Z 0). rewrite <- Zlt_Qlt. lia.
      * apply Qle_shift_div_r; [done |]. rewrite Qmult_1_l, Q_of_nat_succ.
        rewrite <- Zle_Qle. lia.
    + by intros ->.
  - intros ->. by rewrite Z.mod_0_l in Hnz.
Qed.

Lemma recorded_record_quality_other (gm : grasp_metrics_record) (gid gid' : Z)
    (name name' : string) (q : Q) :
  (gid', name') ≠ (gid, name) →
  recorded (record_quality gm gid name q) gid' name' = recorded gm gid' name'.
Proof.
  intros Hne. unfold recorded, record_quality.
  destruct (decide (gid = gid')) as [<- | Hg]; [| by rewrite lookup_insert_ne].
  rewrite lookup_insert_eq. simpl.
  assert (name ≠ name') by congruence.
  rewrite lookup_insert_ne by done. by destruct (gm !! gid).
Qed.

Lemma record_quality_keeps_entries (gm : grasp_metrics_record) (gid gid' : Z)
    (name : string) (q : Q) :
  is_Some (gm !! gid') → is_Some (record_quality gm gid name q !! gid').
Proof.
  intros Hin. unfold record_quality.
  destruct (decide (gid = gid')) as [<- | Hg];
    [rewrite lookup_insert_eq; by eexists | by rewrite lookup_insert_ne].
Qed.

Lemma init_grasp_entry_keeps_entries (gm : grasp_metrics_record) (gid gid' : Z) :
  is_Some (gm !! gid') → is_Some (init_grasp_entry gm gid !! gid').
Proof.
  intros Hin. unfold init_grasp_entry. destruct (gm !! gid) eqn:Hg; [done |].
  destruct (decide (gid = gid')) as [<- | Hne];
    [rewrite lookup_insert_eq; by eexists | by rewrite lookup_insert_ne].
Qed.

Lemma init_grasp_entry_has_entry (gm : grasp_metrics_record) (gid : Z) :
  is_Some (init_grasp_entry gm gid !! gid).
Proof.
  unfold init_grasp_entry. destruct (gm !! gid) eqn:Hg; [by rewrite Hg |].
  rewrite lookup_insert_eq. by eexists.
Qed.

(** What a completed iteration can return. *)
Lemma grasp_body_returns obj gripper (config : api_config Spec) overwrite stable_poses
    ind n_grasps metric_name metric_config quality_fn k grasp gm gm'
    (w w' : world G D DB) :
  grasp_body obj gripper config overwrite stable_poses ind n_grasps metric_name
    metric_config quality_fn (k, grasp) gm w = (Ok gm', w') →
  gm' = init_grasp_entry gm (grasp_id grasp)
  ∨ ∃ q, gm' = record_quality (init_grasp_entry gm (grasp_id grasp)) (grasp_id grasp)
                 metric_name q.
Proof.
  unfold grasp_body. cbn [fst snd]. rewrite bind_run.
  destruct (report_progress config k n_grasps w) as [[[] | e] w0]; [| done].
  rewrite bind_run. destruct (get_dataset w0) as [[d | e] w1]; [| done].
  rewrite bind_run. cbn [log].
  destruct (is_gravity_method (quality_method metric_config)).
  - rewrite bind_run. unfold index_pose.
    destruct (stable_poses !! ind) as [sp |]; [| done]. cbn [ret].
    destruct (perpendicular_table metric_config (align_grasp gripper grasp sp) sp).
    + rewrite bind_run, call_quality_fn_run.
      destruct (quality_fn (align_grasp gripper grasp sp)) as [q | e]; [| done].
      intros [= <- _]. right. by exists q.
    + intros [= <- _]. right. by exists 0.
  - destruct (bool_decide _ && negb overwrite).
    + intros [= <- _]. by left.
    + rewrite bind_run, call_quality_fn_run.
      destruct (quality_fn grasp) as [q | e]; [| done].
      intros [= <- _]. right. by exists q.
Qed.

Lemma grasp_body_entries obj gripper (config : api_config Spec) overwrite stable_poses
    ind n_grasps metric_name metric_config quality_fn k grasp gm gm'
    (w w' : world G D DB) :
  grasp_body obj gripper config overwrite stable_poses ind n_grasps metric_name
    metric_config quality_fn (k, grasp) gm w = (Ok gm', w') →
  (∀ gid', is_Some (gm !! gid') → is_Some (gm' !! gid'))
  ∧ is_Some (gm' !! grasp_id grasp).
Proof.
  intros [-> | [q ->]]%grasp_body_returns; split.
  - intros gid'. apply init_grasp_entry_keeps_entries.
  - apply init_grasp_entry_has_entry.
  - intros gid' Hin. by apply record_quality_keeps_entries, init_grasp_entry_keeps_entries.
  - apply record_quality_keeps_entries, init_grasp_entry_has_entry.
Qed.

(** X7.  A completed iteration of the grasp loop touches one cell of the
    record at most: the values recorded under any other grasp or any other
    metric name are as before, no entry of the record disappears, and the
    grasp at hand has an entry afterwards (an empty one when it was
    skipped). *)
Theorem grasp_body_frame obj gripper (config : api_config Spec) overwrite stable_poses
    ind n_grasps metric_name metric_config quality_fn k grasp gm gm'
    (w w' : world G D DB) :
  grasp_body obj gripper config overwrite stable_poses ind n_grasps metric_name
    metric_config quality_fn (k, grasp) gm w = (Ok gm', w') →
  (∀ gid' name', (gid', name') ≠ (grasp_id grasp, metric_name) →
     recorded gm' gid' name' = recorded gm gid' name')
  ∧ (∀ gid', is_Some (gm !! gid') → is_Some (gm' !! gid'))
  ∧ is_Some (gm' !! grasp_id grasp).
Proof.
  intros Hrun. split; [| exact (grasp_body_entries _ _ _ _ _ _ _ _ _ _ _ _ _ _ _ _ Hrun)].
  apply grasp_body_returns in Hrun as [-> | [q ->]].
  - intros gid' name' _. apply recorded_init_grasp_entry.
  - intros gid' name' Hne.
    by rewrite recorded_record_quality_other, recorded_init_grasp_entry.
Qed.

End GraspLoopFacts.

(** ** The loops over grasps and variants (lines 542-615) *)
Section LoopFacts.
Context {G D DB Spec : Type}.
Context `{!GraspOps G, !Dataset G D, !Database DB, !Collaborators G Spec, !Numpy}.

Local Abbreviation M := (@M G D DB).

Lemma grasp_loop_entries obj gripper (config : api_config Spec) overwrite stable_poses
    ind n_grasps metric_name metric_config quality_fn (l : list (nat * G)) :
  ∀ gm gm' (w w' : world G D DB),
    fold_loop (grasp_body obj gripper config overwrite stable_poses ind n_grasps
                 metric_name metric_config quality_fn) l gm w = (Ok gm', w') →
    (∀ kg, kg ∈ l → is_Some (gm' !! grasp_id kg.2))
    ∧ (∀ gid, is_Some (gm !! gid) → is_Some (gm' !! gid)).
Proof.
  induction l as [| [k g] l IH]; intros gm gm' w w'; simpl.
  - intros [= <- _]. split; [by intros kg ?%elem_of_nil | done].
  - rewrite bind_run.
    destruct (grasp_body _ _ _ _ _ _ _ _ _ _ (k, g) gm w) as [[gm1 | e] w1] eqn:Hstep;
      [| done].
    intros Hrest. apply grasp_body_entries in Hstep as (Hkeep & Hhere).
    apply IH in Hrest as [Hin Hkeep']. split.
    + intros kg [-> | Hkg]%elem_of_cons; [by apply Hkeep' | by apply Hin].
    + intros gid Hgid. by apply Hkeep', Hkeep.
Qed.

Lemma elem_of_enumerate {A} (l : list A) (x : A) :
  x ∈ l → ∃ k, (k, x) ∈ enumerate l.
Proof.
  unfold enumerate. generalize 0%nat. induction l as [| y l IH]; intros k0 Hx.
  - by apply elem_of_nil in Hx.
  - simpl. apply elem_of_cons in Hx as [-> | Hx].
    + exists k0. left.
    + destruct (IH (S k0) Hx) as [k Hk]. exists k. by right.
Qed.

Lemma variant_body_entries obj gripper (config : api_config Spec) overwrite stable_poses
    (grasps : list G) v st st' (w w' : world G D DB) :
  variant_body obj gripper config overwrite stable_poses grasps v st w = (Ok st', w') →
  st'.1 = S st.1
  ∧ (∀ g, g ∈ grasps → is_Some (st'.2 !! grasp_id g))
  ∧ (∀ gid, is_Some (st.2 !! gid) → is_Some (st'.2 !! gid)).
Proof.
  unfold variant_body. rewrite bind_run.
  destruct (get_dataset w) as [[d | e] w1]; [| done].
  rewrite bind_run. cbn [log]. rewrite bind_run.
  match goal with |- context [if ?b then _ else _] => destruct b end.
  - cbn [ret]. rewrite bind_run. cbn [log]. rewrite bind_run. cbn [lift].
    destruct (create_quality_function _ _) as [fn | e]; [| done].
    rewrite bind_run.
    match goal with |- context [fold_loop ?b ?l ?s ?w0] =>
      destruct (fold_loop b l s w0) as [[gm' | e] w2] eqn:Hloop end; [| done].
    intros [= <- _]. apply grasp_loop_entries in Hloop as [Hin Hkeep].
    split; [done |]. split; [| done].
    intros g [k Hk]%elem_of_enumerate. exact (Hin _ Hk).
  - rewrite bind_run. cbn [log put_dataset]. rewrite bind_run. cbn [log].
    rewrite bind_run. cbn [lift].
    destruct (create_quality_function _ _) as [fn | e]; [| done].
    rewrite bind_run.
    match goal with |- context [fold_loop ?b ?l ?s ?w0] =>
      destruct (fold_loop b l s w0) as [[gm' | e] w2] eqn:Hloop end; [| done].
    intros [= <- _]. apply grasp_loop_entries in Hloop as [Hin Hkeep].
    split; [done |]. split; [| done].
    intros g [k Hk]%elem_of_enumerate. exact (Hin _ Hk).
Qed.

(** X8.  When the loop over the variants of a metric completes, the index
    [ind] has advanced by the number of variants, no entry of the record has
    disappeared and, if there was a variant at all, every grasp of the
    (object, gripper) pair has an entry in the record, skipped grasps
    included. *)
Theorem variant_loop_covers_every_grasp obj gripper (config : api_config Spec) overwrite
    stable_poses (grasps : list G) (variants : list (string * GraspQualityConfig)) :
  ∀ st st' (w w' : world G D DB),
    fold_loop (variant_body obj gripper config overwrite stable_poses grasps) variants st w
      = (Ok st', w') →
    st'.1 = (st.1 + length variants)%nat
    ∧ (variants ≠ [] → ∀ g, g ∈ grasps → is_Some (st'.2 !! grasp_id g))
    ∧ (∀ gid, is_Some (st.2 !! gid) → is_Some (st'.2 !! gid)).
Proof.
  induction variants as [| v variants IH]; intros st st' w w'; simpl.
  - intros [= <- _]. split; [lia |]. by split.
  - rewrite bind_run.
    destruct (variant_body _ _ _ _ _ _ v st w) as [[st1 | e] w1] eqn:Hstep; [| done].
    intros Hrest. apply variant_body_entries in Hstep as (Hind & Hall & Hkeep).
    apply IH in Hrest as (Hind' & _ & Hkeep').
    split; [lia |]. split; [| by intros gid ?; apply Hkeep', Hkeep].
    intros _ g Hg. by apply Hkeep', Hall.
Qed.

(** X10.  Resuming with [overwrite] off: when the metric is not
    gravity-dependent and is already stored for every grasp, the grasp loop
    completes without a single call of the quality function (its only calls
    are the queries of the stored metrics, one per grasp, in order), no
    recorded value changes, and the dataset is untouched. *)
Theorem resume_skips_stored_metrics obj gripper (config : api_config Spec) stable_poses
    ind n_grasps metric_name metric_config quality_fn (grasps : list G)
    (gm : grasp_metrics_record) (w : world G D DB) (d : D) :
  metric_display_rate config ≠ 0%Z → dataset w = Some d →
  is_gravity_method (quality_method metric_config) = false →
  (∀ g, g ∈ grasps →
     is_Some (ds_grasp_metrics d (key obj) g (RobotGripper.name gripper) !! metric_name)) →
  let run := fold_loop (grasp_body obj gripper config false stable_poses ind n_grasps
                          metric_name metric_config quality_fn) (enumerate grasps) gm w in
  run.1 = Ok (foldl init_grasp_entry gm (grasp_id <$> grasps))
  ∧ trace run.2
    = trace w ++ ((fun g => EvGraspMetrics (key obj) (grasp_id g) (RobotGripper.name gripper))
                    <$> grasps)
  ∧ dataset run.2 = Some d
  ∧ ∀ gid name, recorded (foldl init_grasp_entry gm (grasp_id <$> grasps)) gid name
                = recorded gm gid name.
Proof.
  intros Hrate Hd Hplain Hstored. cbv zeta. unfold enumerate. generalize 0%nat.
  revert gm w Hd. induction grasps as [| g grasps IH]; intros gm w Hd k0; simpl.
  - by rewrite app_nil_r.
  - destruct (grasp_body_prefix obj gripper config false stable_poses ind n_grasps
                metric_name metric_config quality_fn k0 g gm w d Hrate Hd)
      as (Ht & Hd1 & Hrun).
    cbv zeta in Ht, Hd1, Hrun. rewrite bind_run, Hrun, Hplain.
    rewrite bool_decide_eq_true_2 by (apply Hstored; left). cbn [andb negb ret].
    match goal with |- context [fold_loop ?b ?l ?s ?w1] =>
      destruct (IH (fun g' Hg' => Hstored g' (list_elem_of_further _ _ _ Hg'))
                  (init_grasp_entry gm (grasp_id g)) w1 Hd1 (S k0))
        as (Hres & Htr & Hds & Hrec)
    end.
    split; [exact Hres |]. split; [| split; [exact Hds |]].
    + rewrite Htr, Ht. by rewrite <- app_assoc.
    + intros gid name. by rewrite Hrec, recorded_init_grasp_entry.
Qed.

End LoopFacts.

(** ** The index into the stable poses (line 581) *)
Section PoseIndex.
Context {G D DB Spec : Type}.
Context `{!GraspOps G, !Dataset G D, !Database DB, !Collaborators G Spec, !Numpy}.

Local Abbreviation M := (@M G D DB).
Local Abbreviation no_index_error := (fun A (m : M A) => ∀ w, (m w).1 ≠ Raise IndexError).

Lemma no_index_error_bind {A B} (m : M A) (f : A → M B) :
  no_index_error A m → (∀ a, no_index_error B (f a)) → no_index_error B (bind m f).
Proof.
  intros Hm Hf w. rewrite bind_run. specialize (Hm w).
  destruct (m w) as [[a | e] w']; simpl in *; [apply Hf | congruence].
Qed.

Lemma no_index_error_fold_loop {A S} (body : A → S → M S) (l : list A) :
  (∀ x s, no_index_error S (body x s)) → ∀ s, no_index_error S (fold_loop body l s).
Proof.
  intros Hbody. induction l as [| x l IH]; intros s; simpl; [done |].
  by apply no_index_error_bind.
Qed.

Lemma sampler_no_index_error (oracle : list nat) (poses : list stable_pose) (N : Z) :
  sample_stable_poses oracle poses N ≠ Raise IndexError.
Proof.
  unfold sample_stable_poses, np_random_choice.
  repeat match goal with |- context [if ?b then _ else _] => destruct b end; done.
Qed.

Section WithCollaborators.
Hypothesis create_config_no_index_error :
  ∀ spec : Spec, create_config (G := G) spec ≠ Raise IndexError.
Hypothesis factory_no_index_error :
  ∀ obj cfg, create_quality_function (Spec := Spec) obj cfg ≠ Raise IndexError.
Hypothesis quality_no_index_error :
  ∀ obj cfg fn (g : G),
    create_quality_function (Spec := Spec) obj cfg = Ok fn → fn g ≠ Raise IndexError.

Lemma grasp_body_no_index_error obj gripper (config : api_config Spec) overwrite
    stable_poses ind n_grasps metric_name metric_config quality_fn kg gm :
  (is_gravity_method (quality_method metric_config) = true →
   (ind < length stable_poses)%nat) →
  (∀ g, quality_fn g ≠ Raise IndexError) →
  no_index_error _
    (grasp_body obj gripper config overwrite stable_poses ind n_grasps metric_name
       metric_config quality_fn kg gm).
Proof.
  intros Hind Hq. unfold grasp_body.
  apply no_index_error_bind.
  { intros w. unfold report_progress.
    repeat match goal with |- context [if ?b then _ else _] => destruct b end; done. }
  intros _. apply no_index_error_bind.
  { intros w. unfold get_dataset. by destruct (dataset w). }
  intros d. apply no_index_error_bind; [done |]. intros _.
  assert (Hcall : ∀ name g, no_index_error _ (call_quality_fn name quality_fn g)).
  { intros name g w. rewrite call_quality_fn_run. apply Hq. }
  destruct (is_gravity_method (quality_method metric_config)).
  - specialize (Hind eq_refl). apply lookup_lt_is_Some in Hind as [sp Hsp].
    unfold index_pose. rewrite Hsp. apply no_index_error_bind; [done |]. intros sp'.
    destruct (perpendicular_table _ _ _); [| done].
    apply no_index_error_bind; [apply Hcall | done].
  - destruct (_ && _); [done |].
    apply no_index_error_bind; [apply Hcall | done].
Qed.

Lemma variant_body_no_index_error obj gripper (config : api_config Spec) overwrite
    stable_poses (grasps : list G) v st :
  (is_gravity_method (quality_method v.2) = true → (st.1 < length stable_poses)%nat) →
  no_index_error _ (variant_body obj gripper config overwrite stable_poses grasps v st).
Proof.
  intros Hind. unfold variant_body.
  apply no_index_error_bind.
  { intros w. unfold get_dataset. by destruct (dataset w). }
  intros d. apply no_index_error_bind; [done |]. intros _.
  apply no_index_error_bind.
  { destruct (ds_has_metric d v.1); [done |]. by apply no_index_error_bind. }
  intros _. apply no_index_error_bind; [done |]. intros _.
  intros w. rewrite bind_run. cbn [lift].
  destruct (create_quality_function obj (add_gripper_params gripper v.2)) as [fn | e] eqn:Hfn.
  - revert w. apply no_index_error_bind; [| done].
    apply no_index_error_fold_loop. intros kg gm.
    apply grasp_body_no_index_error; [exact Hind |].
    intros g. by eapply quality_no_index_error.
  - simpl. intros [= ->]. by eapply factory_no_index_error.
Qed.

Lemma gravity_variants_no_index_error obj gripper (config : api_config Spec) overwrite
    stable_poses (grasps : list G) (f : stable_pose → string * GraspQualityConfig)
    (rest : list stable_pose) :
  ∀ st, (st.1 + length rest ≤ length stable_poses)%nat →
    no_index_error _
      (fold_loop (variant_body obj gripper config overwrite stable_poses grasps)
         (f <$> rest) st).
Proof.
  induction rest as [| sp rest IH]; intros st Hlen; simpl in *; [done |].
  intros w. rewrite bind_run.
  destruct (variant_body obj gripper config overwrite stable_poses grasps (f sp) st w)
    as [[st1 | e] w1] eqn:Hstep.
  - apply IH. apply variant_body_entries in Hstep as [-> _]. lia.
  - pose proof (variant_body_no_index_error obj gripper config overwrite stable_poses
                  grasps (f sp) st (fun _ => ltac:(lia)) w) as Hno.
    by rewrite Hstep in Hno.
Qed.

(** X9.  [stable_poses[ind]] is always in range: provided the factories and
    the quality function do not raise [IndexError] themselves, a metric pass
    never ends with [IndexError], whatever the metrics, the poses, the
    grasps and the state of the dataset. *)
Theorem pose_index_in_range obj gripper (config : api_config Spec) stable_pose_id
    metric_name overwrite (w : world G D DB) :
  (_compute_metrics obj gripper config stable_pose_id metric_name overwrite w).1
  ≠ Raise IndexError.
Proof.
  revert w. unfold _compute_metrics. apply no_index_error_bind.
  2: { intros gm w. unfold store_grasp_metrics, get_dataset. rewrite bind_run.
       by destruct (dataset w). }
  unfold accumulate_grasp_metrics.
  apply no_index_error_bind.
  { intros w. unfold get_dataset. by destruct (dataset w). }
  intros d. apply no_index_error_bind; [done |]. intros _.
  apply no_index_error_bind.
  { intros w. unfold load_stable_poses, get_dataset. rewrite bind_run.
    destruct (dataset w); [| done]. by destruct stable_pose_id. }
  intros poses0. apply no_index_error_bind.
  { intros w. unfold subsample_stable_poses.
    rewrite bind_run. unfold next_oracle.
    destruct (max_stable_poses config <? Z.of_nat (length poses0))%Z;
      rewrite bind_run; cbn [log ret lift fst]; apply sampler_no_index_error. }
  intros poses. apply no_index_error_fold_loop. intros m gm.
  unfold metric_body. apply no_index_error_bind; [done |]. intros _.
  intros w. rewrite bind_run. cbn [lift].
  destruct (create_config m.2) as [cfg | e] eqn:Hcfg;
    [| simpl; intros [= ->]; by eapply create_config_no_index_error].
  revert w. apply no_index_error_bind.
  { destruct (delete_previous_metrics config); [| done].
    apply no_index_error_bind.
    { intros w. unfold get_dataset. by destruct (dataset w). }
    intros d'. by apply no_index_error_bind. }
  intros _. apply no_index_error_bind; [| done].
  destruct (is_gravity_method (quality_method cfg)) eqn:Hg.
  - rewrite (metric_variants_gravity _ _ _ _ Hg).
    apply gravity_variants_no_index_error. simpl. lia.
  - unfold metric_variants, expand_variants. rewrite Hg. simpl.
    apply no_index_error_bind; [| done].
    apply variant_body_no_index_error. simpl. congruence.
Qed.

End WithCollaborators.
End PoseIndex.

(** * Configuration updates *)
Section ConfigUpdate.
Context {A : Type}.

Local Abbreviation value := (config_value A).

Lemma dict_get_set_eq {V} (d : list (string * V)) (k : string) (v : V) :
  dict_get (dict_set d k v) k = Some v.
Proof.
  induction d as [| [k' v'] d IH]; simpl.
  - by rewrite String.eqb_refl.
  - destruct (String.eqb k' k) eqn:E; simpl; [by rewrite String.eqb_refl |].
    by rewrite E.
Qed.

Lemma dict_get_set_ne {V} (d : list (string * V)) (k k' : string) (v : V) :
  k ≠ k' → dict_get (dict_set d k v) k' = dict_get d k'.
Proof.
  intros Hne. induction d as [| [k0 v0] d IH]; simpl.
  - by rewrite (proj2 (String.eqb_neq _ _) Hne).
  - destruct (String.eqb_spec k0 k) as [-> | Hk0]; simpl.
    + by rewrite (proj2 (String.eqb_neq _ _) Hne).
    + by rewrite IH.
Qed.

Lemma dict_set_same {V} (d : list (string * V)) (k : string) (v : V) :
  dict_get d k = Some v → dict_set d k v = d.
Proof.
  induction d as [| [k0 v0] d IH]; simpl; [done |].
  destruct (String.eqb_spec k0 k) as [-> | Hk0]; [by intros [= ->] |].
  intros Hd. by rewrite IH.
Qed.

Lemma dict_get_None {V} (d : list (string * V)) (k : string) :
  dict_get d k = None ↔ k ∉ d.*1.
Proof.
  induction d as [| [k0 v0] d IH]; simpl.
  - split; [intros _; apply not_elem_of_nil | done].
  - rewrite not_elem_of_cons. destruct (String.eqb_spec k0 k) as [-> | Hk0].
    + split; [done | by intros [? _]].
    + rewrite IH. split; [by intros ? | by intros [_ ?]].
Qed.

Lemma dict_get_elem_of {V} (d : list (string * V)) (k : string) (v : V) :
  NoDup d.*1 → (k, v) ∈ d → dict_get d k = Some v.
Proof.
  induction d as [| [k0 v0] d IH]; simpl; intros Hnd Hin.
  - by apply elem_of_nil in Hin.
  - apply NoDup_cons in Hnd as [Hk0 Hnd].
    apply elem_of_cons in Hin as [[= -> ->] | Hin]; [by rewrite String.eqb_refl |].
    destruct (String.eqb_spec k0 k) as [-> | Hne]; [| by apply IH].
    exfalso. apply Hk0. apply list_elem_of_fmap. by exists (k, v).
Qed.

Lemma deep_update_unfold (config : value) (items : list (string * value)) :
  _deep_update_config config (Mapping items) = update_items items config.
Proof.
  revert config. induction items as [| [k v] items IH]; intros config; [done |].
  cbn [update_items]. unfold update_item. destruct v as [a | sub].
  - simpl. destruct (setitem config k (Leaf a)); [exact (IH _) | done].
  - simpl. destruct (get_or_empty config k) as [c0 | e]; [| done].
    match goal with |- context [match ?x with Ok _ => _ | Raise _ => _ end] =>
      destruct x as [merged | e] end; [| done].
    destruct (setitem config k merged); [exact (IH _) | done].
Qed.

(** One iteration on a mapping. *)
Lemma update_item_mapping (d : list (string * value)) (k : string) (v : value)
    (c1 : value) :
  update_item (Mapping d) k v = Ok c1 →
  ∃ x, c1 = Mapping (dict_set d k x)
       ∧ match v with
         | Leaf a => x = Leaf a
         | Mapping sub =>
             _deep_update_config (default (Mapping []) (dict_get d k)) (Mapping sub) = Ok x
         end.
Proof.
  unfold update_item. destruct v as [a | sub]; simpl.
  - intros [= <-]. by eexists.
  - match goal with |- context [match ?x with Ok _ => _ | Raise _ => _ end] =>
      destruct x as [merged | e] eqn:Hm end; [| done].
    intros [= <-]. by exists merged.
Qed.

Lemma update_items_lookup (u : list (string * value)) :
  ∀ (d : list (string * value)) (c' : value),
    NoDup u.*1 → update_items u (Mapping d) = Ok c' →
    ∃ d', c' = Mapping d' ∧
      ∀ k, match dict_get u k with
           | None => dict_get d' k = dict_get d k
           | Some (Leaf a) => dict_get d' k = Some (Leaf a)
           | Some (Mapping sub) =>
               ∃ merged,
                 _deep_update_config (default (Mapping []) (dict_get d k)) (Mapping sub)
                   = Ok merged
                 ∧ dict_get d' k = Some merged
           end.
Proof.
  induction u as [| [k0 v0] u IH]; intros d c' Hnd; simpl.
  - intros [= <-]. by exists d.
  - apply NoDup_cons in Hnd as [Hk0 Hnd].
    destruct (update_item (Mapping d) k0 v0) as [c1 | e] eqn:Hstep; [| done].
    apply update_item_mapping in Hstep as (x & -> & Hx).
    intros Hrest. destruct (IH _ _ Hnd Hrest) as (d' & -> & Hlook).
    exists d'. split; [done |]. intros k. specialize (Hlook k).
    destruct (String.eqb_spec k0 k) as [-> | Hne].
    + rewrite (proj2 (dict_get_None u k) Hk0), dict_get_set_eq in Hlook.
      destruct v0 as [a | sub]; [by subst x |]. by exists x.
    + rewrite dict_get_set_ne in Hlook by done. exact Hlook.
Qed.

(** X11.  The result of a deep update, key by key (the keys of [updates]
    being distinct, as in a [dict]): a key that [updates] does not mention
    keeps its value; a key that [updates] maps to a non-mapping value takes
    that value, whatever it held; a key that [updates] maps to a mapping
    holds the deep update of its former value (of the empty mapping when it
    was absent) by that mapping. *)
Theorem deep_update_by_key (d u : list (string * value)) (c' : value) :
  NoDup u.*1 → _deep_update_config (Mapping d) (Mapping u) = Ok c' →
  ∃ d', c' = Mapping d' ∧
    ∀ k, match dict_get u k with
         | None => dict_get d' k = dict_get d k
         | Some (Leaf a) => dict_get d' k = Some (Leaf a)
         | Some (Mapping sub) =>
             ∃ merged,
               _deep_update_config (default (Mapping []) (dict_get d k)) (Mapping sub)
                 = Ok merged
               ∧ dict_get d' k = Some merged
         end.
Proof. rewrite deep_update_unfold. apply update_items_lookup. Qed.

(** X12.  A deep update never removes a key: the keys of the result are the
    keys of the configuration together with the keys of the updates. *)
Theorem deep_update_keys (d u : list (string * value)) (c' : value) :
  NoDup u.*1 → _deep_update_config (Mapping d) (Mapping u) = Ok c' →
  ∃ d', c' = Mapping d' ∧
    ∀ k, is_Some (dict_get d' k) ↔ is_Some (dict_get d k) ∨ is_Some (dict_get u k).
Proof.
  rewrite deep_update_unfold. intros Hnd Hrun.
  destruct (update_items_lookup u d c' Hnd Hrun) as (d' & -> & Hlook).
  exists d'. split; [done |]. intros k. specialize (Hlook k).
  destruct (dict_get u k) as [[a | sub] |].
  - rewrite Hlook. split; [intros _; right | intros _]; by eexists.
  - destruct Hlook as (merged & _ & ->). split; [intros _; right | intros _]; by eexists.
  - rewrite Hlook. split; [by left | intros [? | [? ?]]; done].
Qed.

(** X13.  An update whose values are all non-mappings cannot fail on a
    mapping: it is the sequence of assignments [config[key] = value]. *)
Theorem flat_update_assigns (d u : list (string * value)) :
  Forall (fun kv => ∃ a, kv.2 = Leaf a) u →
  _deep_update_config (Mapping d) (Mapping u)
  = Ok (Mapping (foldl (fun d kv => dict_set d kv.1 kv.2) d u)).
Proof.
  rewrite deep_update_unfold. intros Hflat. revert d.
  induction Hflat as [| [k v] u [a Hv] _ IH]; intros d; [done |].
  simpl in Hv. subst v. simpl. apply IH.
Qed.

Lemma update_item_errors (c : value) (k : string) (v : value) (e : exn) :
  (∀ c0 e0 sub, v = Mapping sub → _deep_update_config c0 v = Raise e0 →
                e0 = no_item_assignment ∨ e0 = no_get) →
  update_item c k v = Raise e → e = no_item_assignment ∨ e = no_get.
Proof.
  intros IH. unfold update_item. destruct v as [a | sub].
  - destruct c; simpl; [intros [= <-]; by left | done].
  - destruct c as [b | d]; simpl; [intros [= <-]; by right |].
    match goal with |- context [match ?x with Ok _ => _ | Raise _ => _ end] =>
      destruct x as [merged | e0] eqn:Hm end; [done |].
    intros [= <-]. by eapply IH.
Qed.

Lemma deep_update_errors (u : value) :
  ∀ c e sub, u = Mapping sub → _deep_update_config c u = Raise e →
             e = no_item_assignment ∨ e = no_get.
Proof.
  induction u as [a | items IH] using config_value_induction; [done |].
  intros c e sub _. rewrite deep_update_unfold. revert c.
  induction IH as [| [k v] items Hv _ IHitems]; intros c; [done |].
  simpl. destruct (update_item c k v) as [c1 | e1] eqn:Hstep; [apply IHitems |].
  intros [= <-]. eapply update_item_errors; [| exact Hstep].
  intros c0 e0 sub0 Hsub. by apply (Hv c0 e0 sub0).
Qed.

Lemma update_item_over_leaf (d : list (string * value)) (k : string) (a : A)
    (sub : list (string * value)) :
  dict_get d k = Some (Leaf a) → sub ≠ [] →
  ∃ e, update_item (Mapping d) k (Mapping sub) = Raise e.
Proof.
  intros Hk Hsub. unfold update_item. cbn [get_or_empty]. rewrite Hk.
  change (default (Mapping []) (Some (Leaf a))) with (Leaf a).
  destruct sub as [| [k1 [b | s]] sub]; [done | |]; by eexists.
Qed.

(** X14.  Laying a mapping over a key that holds a non-mapping value: an
    empty mapping leaves the configuration as it is; a non-empty one makes
    the whole update fail, with [TypeError] or [AttributeError], whichever
    other keys the update has. *)
Theorem mapping_over_leaf (d u : list (string * value)) (k : string) (a : A)
    (sub : list (string * value)) :
  dict_get d k = Some (Leaf a) →
  _deep_update_config (Mapping d) (Mapping [(k, Mapping [])]) = Ok (Mapping d)
  ∧ (NoDup u.*1 → (k, Mapping sub) ∈ u → sub ≠ [] →
     _deep_update_config (Mapping d) (Mapping u) = Raise no_item_assignment
     ∨ _deep_update_config (Mapping d) (Mapping u) = Raise no_get).
Proof.
  intros Hk. split.
  - simpl. rewrite Hk. simpl. by rewrite dict_set_same.
  - intros Hnd Hin Hsub.
    assert (Hfail : ∃ e, _deep_update_config (Mapping d) (Mapping u) = Raise e).
    { rewrite deep_update_unfold. revert d Hk.
      induction u as [| [k0 v0] u IH]; intros d Hk; [by apply elem_of_nil in Hin |].
      apply NoDup_cons in Hnd as [Hk0 Hnd]. simpl.
      apply elem_of_cons in Hin as [[= <- <-] | Hin].
      - destruct (update_item_over_leaf d k a sub Hk Hsub) as [e ->]. by exists e.
      - assert (Hne : k0 ≠ k).
        { intros ->. apply Hk0. apply list_elem_of_fmap. by exists (k, Mapping sub). }
        destruct (update_item (Mapping d) k0 v0) as [c1 | e] eqn:Hstep; [| by exists e].
        apply update_item_mapping in Hstep as (x & -> & _).
        apply IH; [done | done |]. by rewrite dict_get_set_ne. }
    destruct Hfail as [e He]. rewrite He.
    destruct (deep_update_errors (Mapping u) (Mapping d) e u eq_refl He) as [-> | ->];
      [by left | by right].
Qed.

(** X15.  Whatever the configuration and the updates, a deep update by a
    mapping raises nothing but [TypeError] (item assignment on a value that
    is no mapping) or [AttributeError] ([get] on such a value); by a value
    that is no mapping it raises [AttributeError] ([iteritems]); and the
    empty update returns the configuration as it is, mapping or not. *)
Theorem deep_update_failures (c u : value) (e : exn) :
  (_deep_update_config c u = Raise e →
   match u with
   | Leaf _ => e = no_iteritems
   | Mapping _ => e = no_item_assignment ∨ e = no_get
   end)
  ∧ _deep_update_config c (Mapping []) = Ok c.
Proof.
  split; [| done]. destruct u as [a | items].
  - by intros [= <-].
  - intros He. by eapply deep_update_errors.
Qed.

Lemma distinct_keys_values (items : list (string * value)) :
  distinct_keys (Mapping items) →
  NoDup items.*1 ∧ Forall (fun kv => distinct_keys kv.2) items.
Proof.
  intros [Hnd Hall]. split; [done |]. clear Hnd.
  induction items as [| [k v] items IH]; [constructor |].
  destruct Hall as [Hv Hall]. constructor; [done | by apply IH].
Qed.

Lemma update_items_fixpoint (items : list (string * value)) (c : value) :
  (∀ k v, (k, v) ∈ items → update_item c k v = Ok c) → update_items items c = Ok c.
Proof.
  induction items as [| [k v] items IH]; intros Hall; [done |].
  simpl. rewrite (Hall k v) by left. apply IH. intros k' v' Hin. apply Hall. by right.
Qed.

Lemma deep_update_twice (u : value) :
  ∀ c c', distinct_keys u → _deep_update_config c u = Ok c' →
          _deep_update_config c' u = Ok c'.
Proof.
  induction u as [a | items IH] using config_value_induction; [done |].
  intros c c' [Hnd Hwf]%distinct_keys_values.
  destruct items as [| kv0 items0] eqn:Hitems; [by intros [= <-] |].
  rewrite <- Hitems in *. clear Hitems.
  destruct c as [a | d].
  { rewrite deep_update_unfold. destruct items as [| [k [b | s]] items]; done. }
  rewrite !deep_update_unfold. intros Hrun.
  destruct (update_items_lookup items d c' Hnd Hrun) as (d' & -> & Hlook).
  apply update_items_fixpoint. intros k v Hin.
  specialize (Hlook k). rewrite (dict_get_elem_of items k v Hnd Hin) in Hlook.
  unfold update_item. destruct v as [a | sub].
  - simpl. by rewrite dict_set_same.
  - destruct Hlook as (merged & Hm & Hget). cbn [get_or_empty]. rewrite Hget.
    change (default (Mapping []) (Some merged)) with merged.
    rewrite Forall_forall in IH, Hwf.
    pose proof (IH (k, Mapping sub) Hin _ merged (Hwf _ Hin) Hm) as Hagain.
    cbn [snd] in Hagain. rewrite Hagain. cbn [setitem].
    by rewrite dict_set_same.
Qed.

(** X16.  A deep update is idempotent: when the keys of [updates] are
    distinct at every level and the update of [config] succeeds with
    [config'], updating [config'] by the same [updates] succeeds and leaves
    it unchanged.  [_get_config] with no updates returns the defaults. *)
Theorem deep_update_idempotent (c u c' : value) :
  distinct_keys u → _deep_update_config c u = Ok c' →
  _deep_update_config c' u = Ok c' ∧ _get_config c' (Some u) = Ok c'
  ∧ _get_config c None = Ok c.
Proof.
  intros Hwf Hrun. pose proof (deep_update_twice u c c' Hwf Hrun) as H2.
  split; [exact H2 |]. split; [exact H2 | done].
Qed.

End ConfigUpdate.

(** * Export *)
Section ExportFacts.
Context {G D DB V : Type} `{!Dataset G D, !MetadataStore D V}.

Local Abbreviation passes := (fun (md : gmap string V) (nf : string * (V → bool)) =>
  ∃ x, md !! nf.1 = Some x ∧ nf.2 x = true).

Lemma pass_filters_loop_spec (md : gmap string V) (filters : list (string * (V → bool)))
    (b : bool) :
  pass_filters_loop md filters b = true ↔ b = true ∧ Forall (passes md) filters.
Proof.
  revert b. induction filters as [| [n f] filters IH]; intros b; simpl.
  - split; [by intros -> | by intros [-> _]].
  - destruct (md !! n) as [x |] eqn:Hx.
    + rewrite IH, andb_true_iff, Forall_cons. simpl. split.
      * intros [[-> Hf] Hrest]. split; [done |]. split; [by exists x | done].
      * intros [-> [(x' & Hx' & Hf) Hrest]]. rewrite Hx in Hx'. injection Hx' as <-. done.
    + split; [done |]. intros [_ [(x & Hx' & _) _]%Forall_cons]. simpl in Hx'. congruence.
Qed.

(** X17.  An object passes the export filters exactly when, for every filter,
    its metadata has the filter's key and the filter accepts the value
    stored there; in particular the outcome does not depend on the order in
    which the filters are visited. *)
Theorem export_filters_pass_iff (md : gmap string V)
    (filters filters' : list (string * (V → bool))) :
  (pass_filters_loop md filters true = true ↔
   ∀ n f, (n, f) ∈ filters → ∃ x, md !! n = Some x ∧ f x = true)
  ∧ (filters ≡ₚ filters' →
     pass_filters_loop md filters true = pass_filters_loop md filters' true).
Proof.
  split.
  - rewrite pass_filters_loop_spec, Forall_forall. split.
    + intros [_ Hall] n f Hin. exact (Hall (n, f) Hin).
    + intros Hall. split; [done |]. intros [n f] Hin. by apply Hall.
  - intros Hperm.
    destruct (pass_filters_loop md filters true) eqn:H1;
      destruct (pass_filters_loop md filters' true) eqn:H2; try done.
    + apply pass_filters_loop_spec in H1 as [_ H1]. rewrite Hperm in H1.
      rewrite (proj2 (pass_filters_loop_spec md filters' true)) in H2; done.
    + apply pass_filters_loop_spec in H2 as [_ H2]. rewrite <- Hperm in H2.
      rewrite (proj2 (pass_filters_loop_spec md filters true)) in H1; done.
Qed.

Local Abbreviation selected := (fun (d : D) (filters : list (string * (V → bool)))
    (object_name : string) =>
  Is_true (pass_filters_loop (ds_object_metadata d object_name) filters true)).

Lemma export_loop_supported (d : D) (config : export_config) (output_dir : string)
    (filters : list (string * (V → bool))) (to_export : list string)
    (call : string → export_call) :
  (∀ o, export_one config output_dir o = Ok (call o)) →
  export_loop d config output_dir filters to_export
  = (call <$> filter (selected d filters) to_export, Ok tt).
Proof.
  intros Hcall. induction to_export as [| o rest IH]; [done |].
  simpl. destruct (pass_filters_loop (ds_object_metadata d o) filters true) eqn:Hp.
  - rewrite Hcall, IH. rewrite filter_cons_True by (simpl; rewrite Hp; exact I). done.
  - rewrite IH. rewrite filter_cons_False by (simpl; rewrite Hp; exact id). done.
Qed.

Lemma export_loop_unsupported (d : D) (config : export_config) (output_dir : string)
    (filters : list (string * (V → bool))) (to_export : list string) (e : exn) :
  (∀ o, export_one config output_dir o = Raise e) →
  export_loop d config output_dir filters to_export
  = ([], if bool_decide (Exists (selected d filters) to_export) then Raise e else Ok tt).
Proof.
  intros Hcall. induction to_export as [| o rest IH].
  - rewrite bool_decide_eq_false_2; [done |]. by intros ?%Exists_nil.
  - cbn [export_loop].
    destruct (pass_filters_loop (ds_object_metadata d o) filters true) eqn:Hp.
    + rewrite Hcall. rewrite bool_decide_eq_true_2; [done |].
      apply Exists_cons_hd. simpl. rewrite Hp. exact I.
    + rewrite IH. f_equal. erewrite bool_decide_ext; [done |]. rewrite Exists_cons.
      split; [by right | intros [Ho | ?]; [simpl in Ho; by rewrite Hp in Ho | done]].
Qed.

Lemma export_objects_open (w : world G D DB) (db : DB) (d : D) (isdir : bool)
    (output_dir : string) (filters : list (string * (V → bool)))
    (to_export : option (list string)) (config : export_config) :
  database w = Some db → dataset w = Some d →
  export_objects w isdir output_dir filters to_export config
  = ((if isdir then [] else [CallMakedirs output_dir])
       ++ (export_loop d config output_dir filters
             (default (ds_object_keys d) to_export)).1,
     (export_loop d config output_dir filters (default (ds_object_keys d) to_export)).2).
Proof. intros Hdb Hd. unfold export_objects, _check_opens. by rewrite Hdb, Hd. Qed.

(** X18.  With database and dataset open and the export format 'obj', 'stl'
    or 'urdf', the export creates the output directory when it does not
    exist and then writes one mesh per object that passes the filters, in
    the order of [to_export] (of the dataset's keys when [to_export] is
    [None]), and nothing for the other objects; 'obj' uses the OBJ writer,
    while 'stl' and 'urdf' both use the STL writer. *)
Theorem export_writes_selected_objects (w : world G D DB) (db : DB) (d : D) (isdir : bool)
    (output_dir : string) (filters : list (string * (V → bool)))
    (to_export : option (list string)) (config : export_config) :
  database w = Some db → dataset w = Some d →
  export_format config ∈ ["obj"; "stl"; "urdf"] →
  let writer := if String.eqb (export_format config) "obj"
                then CallObjMeshFilename else CallStlMeshFilename in
  export_objects w isdir output_dir filters to_export config
  = ((if isdir then [] else [CallMakedirs output_dir])
       ++ ((fun o => writer o (export_scale config) output_dir (export_overwrite config))
             <$> filter (selected d filters) (default (ds_object_keys d) to_export)),
     Ok tt).
Proof.
  intros Hdb Hd Hfmt. cbv zeta. rewrite (export_objects_open w db d) by done.
  rewrite (export_loop_supported d config output_dir filters _
             (fun o => (if String.eqb (export_format config) "obj"
                        then CallObjMeshFilename else CallStlMeshFilename)
                         o (export_scale config) output_dir (export_overwrite config)));
    [done |].
  intros o. unfold export_one.
  repeat (apply elem_of_cons in Hfmt as [-> | Hfmt]; [done |]).
  by apply elem_of_nil in Hfmt.
Qed.

(** X19.  With any other export format no mesh is written, and [ValueError]
    is raised exactly when some object passes the filters: an unsupported
    format goes unnoticed when no object is selected. *)
Theorem export_unsupported_format (w : world G D DB) (db : DB) (d : D) (isdir : bool)
    (output_dir : string) (filters : list (string * (V → bool)))
    (to_export : option (list string)) (config : export_config) :
  database w = Some db → dataset w = Some d →
  export_format config ∉ ["obj"; "stl"; "urdf"] →
  let run := export_objects w isdir output_dir filters to_export config in
  let objects := default (ds_object_keys d) to_export in
  run.1 = (if isdir then [] else [CallMakedirs output_dir])
  ∧ (Exists (selected d filters) objects →
     run.2 = Raise (ValueError ("Export format " +:+ export_format config
                                +:+ " not supported")))
  ∧ (¬ Exists (selected d filters) objects → run.2 = Ok tt).
Proof.
  intros Hdb Hd Hfmt. cbv zeta. rewrite (export_objects_open w db d) by done.
  rewrite (export_loop_unsupported d config output_dir filters _
             (ValueError ("Export format " +:+ export_format config +:+ " not supported"))).
  - cbn [fst snd]. rewrite app_nil_r. split; [done |]. split; intros Hex.
    + by rewrite bool_decide_eq_true_2.
    + by rewrite bool_decide_eq_false_2.
  - intros o. unfold export_one.
    rewrite !not_elem_of_cons in Hfmt. destruct Hfmt as (H1 & H2 & H3 & _).
    by rewrite (proj2 (String.eqb_neq _ _) H1), (proj2 (String.eqb_neq _ _) H2),
      (proj2 (String.eqb_neq _ _) H3).
Qed.

End ExportFacts.

(** * Display of grasps *)
Section Display.

Lemma grasps_drawn_from {G} (min_metric : Q) (max_plot_gripper : Z) (l : list (G * Q)) :
  ∀ i : Z,
    grasps_drawn min_metric max_plot_gripper i l
    = take (Z.to_nat (Z.max 1 (max_plot_gripper - i)))
        (filter (fun gm => Is_true (Qltb min_metric gm.2)) l).
Proof.
  induction l as [| [g m] l IH]; intros i; simpl; [by destruct (Z.to_nat _) |].
  unfold Qleb. destruct (Qltb min_metric m) eqn:Hm; simpl.
  - rewrite filter_cons_True by (simpl; rewrite Hm; exact I).
    destruct (Z.leb_spec max_plot_gripper (i + 1)) as [Hle | Hgt].
    + rewrite Z.max_l by lia. done.
    + rewrite IH, !Z.max_r by lia.
      replace (Z.to_nat (max_plot_gripper - i))
        with (S (Z.to_nat (max_plot_gripper - (i + 1)))) by lia.
      done.
  - rewrite filter_cons_False by (simpl; rewrite Hm; exact id). apply IH.
Qed.


End Display.

(** * Sampling of grasps *)
Section SamplingFacts.
Context {G D DB Spec S : Type}.
Context `{!Dataset G D, !Database DB, !Collaborators G Spec, !Sampling.Samplers D S}.

Local Abbreviation M := (@M G D DB).

Lemma get_dataset_some (w : world G D DB) (d : D) :
  dataset w = Some d → (get_dataset : M D) w = (Ok d, w).
Proof. intros Hd. unfold get_dataset. by rewrite Hd. Qed.

Lemma sample_pair_skip (config : Sampling.config) (stable_pose : option string)
    (gripper : RobotGripper.t) (object_name : string) (w : world G D DB) (d : D) :
  dataset w = Some d → ds_has_grasps d object_name (RobotGripper.name gripper) = true →
  sample_pair config false stable_pose gripper object_name w
  = (Ok tt, with_event w (EvHasGrasps object_name (RobotGripper.name gripper) true)).
Proof.
  intros Hd Hfound. unfold sample_pair, prepare_pair.
  rewrite bind_run, (bind_ok _ _ _ _ _ (get_dataset_some w d Hd)), Hfound.
  by rewrite bind_run.
Qed.

(** X22.  With [overwrite] off, objects that already have grasps for the
    gripper are skipped and the loop goes on (where [compute_metrics] would
    stop with an error): over a list of such objects the loop completes,
    its only calls are the [has_grasps] checks, and dataset and database
    are left as they were; nothing is sampled, deleted, stored or flushed. *)
Theorem sampling_skips_existing_grasps (config : Sampling.config)
    (stable_pose : option string) (gripper : RobotGripper.t) (objects : list string)
    (w : world G D DB) (d : D) :
  dataset w = Some d →
  (∀ o, o ∈ objects → ds_has_grasps d o (RobotGripper.name gripper) = true) →
  let run := for_each (sample_pair config false stable_pose gripper) objects w in
  run.1 = Ok tt
  ∧ dataset run.2 = Some d ∧ database run.2 = database w
  ∧ trace run.2
    = trace w ++ ((fun o => EvHasGrasps o (RobotGripper.name gripper) true) <$> objects).
Proof.
  intros Hd Hall. cbv zeta. unfold for_each. revert w Hd.
  induction objects as [| o objects IH]; intros w Hd; simpl.
  - by rewrite app_nil_r.
  - rewrite bind_run, (sample_pair_skip _ _ _ _ w d Hd) by (apply Hall; left).
    destruct (IH (fun o' Ho' => Hall o' (list_elem_of_further _ _ _ Ho'))
                (with_event w (EvHasGrasps o (RobotGripper.name gripper) true)) Hd)
      as (Hr & Hds & Hdb & Ht).
    split; [exact Hr |]. split; [exact Hds |]. split; [exact Hdb |].
    rewrite Ht. simpl. by rewrite <- app_assoc.
Qed.

(** X23.  A pair that is sampled (it has no grasps, or [overwrite] is on):
    existing grasps are deleted first; the object is read and the sampler
    run on the dataset after the deletion; when the sampler returns, its
    value is stored under the object's key and the database is flushed;
    when it raises, nothing is stored or flushed and the error goes on to
    the caller, the deleted grasps being gone. *)
Theorem sampling_replaces_grasps (config : Sampling.config) (overwrite : bool)
    (stable_pose : option string) (gripper : RobotGripper.t) (object_name : string)
    (w : world G D DB) (d : D) (db : DB) :
  dataset w = Some d → database w = Some db →
  let name := RobotGripper.name gripper in
  let found := ds_has_grasps d object_name name in
  found = false ∨ overwrite = true →
  let d1 := if found then Sampling.ds_delete_grasps d object_name name else d in
  let obj := ds_getitem d1 object_name in
  let run := sample_pair config overwrite stable_pose gripper object_name w in
  match _single_obj_grasps d1 obj gripper config stable_pose with
  | Ok grasps =>
      run.1 = Ok tt
      ∧ dataset run.2 = Some (Sampling.ds_store_grasps d1 (key obj) grasps name)
      ∧ database run.2 = Some (db_flush db)
      ∧ trace run.2
        = trace w ++ [EvHasGrasps object_name name found; EvGetObject object_name; EvFlush]
  | Raise e =>
      run.1 = Raise e
      ∧ dataset run.2 = Some d1
      ∧ database run.2 = Some db
      ∧ trace run.2 = trace w ++ [EvHasGrasps object_name name found; EvGetObject object_name]
  end.
Proof.
  intros Hd Hdb. cbv zeta. intros Hcase.
  destruct w as [dbw dsw pr rg tr]. simpl in Hd, Hdb. subst dbw dsw.
  unfold sample_pair, prepare_pair, flush, bind, get_dataset, get_database, log,
    put_dataset, put_database, ret, lift.
  cbn [dataset database progress rng trace].
  destruct (ds_has_grasps d object_name (RobotGripper.name gripper)) eqn:Hfound;
    cbn iota beta.
  - destruct Hcase as [? | ->]; [done |]. cbn [dataset database progress rng trace].
    destruct (_single_obj_grasps _ _ gripper config stable_pose) as [grasps | e];
      cbn [fst snd dataset database progress rng trace];
      by rewrite <- ?app_assoc.
  - cbn [dataset database progress rng trace].
    destruct (_single_obj_grasps _ _ gripper config stable_pose) as [grasps | e];
      cbn [fst snd dataset database progress rng trace];
      by rewrite <- ?app_assoc.
Qed.

(** X24.  A sampler name other than 'sdf_antipodal', 'mesh_antipodal',
    'gaussian' and 'uniform' makes [_single_obj_grasps] raise [ValueError]
    without running any sampler, the message naming the gripper's type; one
    of the four names runs the sampler of that name, whatever the dataset
    and the stable pose passed along. *)
Theorem sampler_dispatch (d : D) (obj : graspable) (gripper : RobotGripper.t)
    (config : Sampling.config) (stable_pose_id : option string) :
  (Sampling.grasp_sampler config
     ∉ ["sdf_antipodal"; "mesh_antipodal"; "gaussian"; "uniform"] →
   _single_obj_grasps d obj gripper config stable_pose_id
   = Raise (ValueError ("Gripper type " +:+ RobotGripper.type gripper
                        +:+ " not supported!")))
  ∧ (∀ cls name,
       (name, cls) ∈ [("sdf_antipodal", Sampling.SdfAntipodalGraspSampler);
                      ("mesh_antipodal", Sampling.MeshAntipodalGraspSampler);
                      ("gaussian", Sampling.GaussianGraspSampler);
                      ("uniform", Sampling.UniformGraspSampler)] →
       Sampling.grasp_sampler config = name →
       _single_obj_grasps d obj gripper config stable_pose_id
       = Sampling.generate_grasps cls gripper config obj).
Proof.
  split.
  - intros Hname. rewrite !not_elem_of_cons in Hname.
    destruct Hname as (H1 & H2 & H3 & H4 & _). unfold _single_obj_grasps.
    by rewrite (proj2 (String.eqb_neq _ _) H1), (proj2 (String.eqb_neq _ _) H2),
      (proj2 (String.eqb_neq _ _) H3), (proj2 (String.eqb_neq _ _) H4).
  - intros cls name Hin Hname. unfold _single_obj_grasps. rewrite Hname.
    repeat (apply elem_of_cons in Hin as [[= -> ->] | Hin]; [done |]).
    by apply elem_of_nil in Hin.
Qed.

End SamplingFacts.

(** * The further properties on concrete data *)
Section FurtherRuns.
Import Scenario Examples.

Lemma compute_metrics_requires_open_witness :
  compute_metrics config None None None None true
    (World None (Some dataset_with_grasps) 0 [] [])
  = (Raise (RuntimeError "You must open a database first"),
     World None (Some dataset_with_grasps) 0 [] [])
  ∧ compute_metrics config None None None None true (World (Some 0%nat) None 0 [] [])
    = (Raise (RuntimeError "You must open a dataset first"),
       World (Some 0%nat) None 0 [] []).
Proof.
  split.
  - apply (compute_metrics_requires_open config None None None None true
             (World None (Some dataset_with_grasps) 0 [] [])). reflexivity.
  - apply (compute_metrics_requires_open config None None None None true
             (World (Some 0%nat) None 0 [] [])); [by eexists | reflexivity].
Defined.

Lemma compute_metrics_rejects_unknown_names_witness :
  compute_metrics config None None (Some "baxter") None true (world_of dataset_with_grasps)
  = (Raise (ValueError "baxter is not a valid gripper name"), world_of dataset_with_grasps)
  ∧ compute_metrics config None (Some "bar") (Some "yumi") None true
      (world_of dataset_with_grasps)
    = (Raise (ValueError "bar is not a valid object name"), world_of dataset_with_grasps).
Proof.
  split.
  - apply (proj1 (compute_metrics_rejects_unknown_names config None None (Some "baxter")
                    None true (world_of dataset_with_grasps) 0%nat dataset_with_grasps
                    eq_refl eq_refl) "baxter" eq_refl).
    apply (bool_decide_unpack _). by vm_compute.
  - apply (proj2 (compute_metrics_rejects_unknown_names config None (Some "bar")
                    (Some "yumi") None true (world_of dataset_with_grasps) 0%nat
                    dataset_with_grasps eq_refl eq_refl) "bar"); [| reflexivity |];
      apply (bool_decide_unpack _); by vm_compute.
Defined.

Lemma compute_metrics_rejects_unknown_metric_witness :
  compute_metrics config (Some "ferrari_canny") None None None true
    (world_of dataset_with_grasps)
  = (Raise (RuntimeError "Metric ferrari_canny does not exist"),
     world_of dataset_with_grasps).
Proof.
  apply (compute_metrics_rejects_unknown_metric config "ferrari_canny" None None None true
           (world_of dataset_with_grasps) 0%nat dataset_with_grasps eq_refl eq_refl I I).
  by vm_compute.
Defined.

Lemma variant_names_distinct_witness :
  NoDup (metric_variants unit_object "wr" wrench_resistance_config poses_weighted).*1.
Proof.
  apply (variant_names_distinct unit_object "wr" wrench_resistance_config poses_weighted).
  apply (bool_decide_unpack _). by vm_compute.
Defined.

Lemma zero_display_rate_raises_witness :
  fold_loop (grasp_body unit_object yumi
               (ApiConfig "grippers" 2 (metrics config) false 0) true [flat_pose] 0 2
               "wr_pose_0" wrench_resistance_config half)
    (enumerate [top_grasp; side_grasp]) ∅ (world_of dataset_with_grasps)
  = (Raise ZeroDivisionError, world_of dataset_with_grasps).
Proof.
  apply (zero_display_rate_raises unit_object yumi
           (ApiConfig "grippers" 2 (metrics config) false 0) true [flat_pose] 0 "wr_pose_0"
           wrench_resistance_config half [top_grasp; side_grasp] ∅
           (world_of dataset_with_grasps)); [reflexivity | discriminate].
Defined.

Lemma progress_is_a_fraction_witness :
  progress (report_progress config 0 2 (world_of dataset_with_grasps)).2 = 1 / inject_Z 2.
Proof.
  assert (Hrate : metric_display_rate config ≠ 0%Z) by (simpl; lia).
  assert (Hk : (0 < 2)%nat) by lia.
  destruct (progress_is_a_fraction config 0 2 (world_of dataset_with_grasps) Hrate Hk)
    as (_ & _ & _ & _ & _ & _ & _ & Hfirst).
  exact (Hfirst eq_refl).
Defined.

Lemma grasp_body_frame_witness :
  match grasp_body unit_object yumi config true [flat_pose] 0 2 "wr_pose_0"
          wrench_resistance_config half (1%nat, side_grasp) {[ 0%Z := {[ "fc" := 1 # 4 ]} ]}
          (world_of dataset_with_grasps) with
  | (Ok gm', _) => recorded gm' 0 "fc" = Some (1 # 4) ∧ is_Some (gm' !! 1%Z)
  | (Raise _, _) => False
  end.
Proof.
  destruct (grasp_body unit_object yumi config true [flat_pose] 0 2 "wr_pose_0"
              wrench_resistance_config half (1%nat, side_grasp)
              {[ 0%Z := {[ "fc" := 1 # 4 ]} ]} (world_of dataset_with_grasps))
    as [[gm' | e] w'] eqn:E; [| vm_compute in E; discriminate E].
  destruct (grasp_body_frame _ _ _ _ _ _ _ _ _ _ _ _ _ _ _ _ E) as (Hother & _ & Hhere).
  split; [| exact Hhere]. by rewrite Hother.
Defined.

Lemma variant_loop_covers_every_grasp_witness :
  match fold_loop (variant_body unit_object yumi config true [flat_pose]
                     [top_grasp; side_grasp])
          [("wr_pose_0", wrench_resistance_config)] (0%nat, ∅)
          (world_of dataset_with_grasps) with
  | (Ok st', _) => st'.1 = 1%nat ∧ is_Some (st'.2 !! 0%Z) ∧ is_Some (st'.2 !! 1%Z)
  | (Raise _, _) => False
  end.
Proof.
  destruct (fold_loop (variant_body unit_object yumi config true [flat_pose]
                         [top_grasp; side_grasp])
              [("wr_pose_0", wrench_resistance_config)] (0%nat, ∅)
              (world_of dataset_with_grasps))
    as [[st' | e] w'] eqn:E; [| vm_compute in E; discriminate E].
  destruct (variant_loop_covers_every_grasp _ _ _ _ _ _ _ _ _ _ _ E) as (Hind & Hall & _).
  split; [exact Hind |].
  split; [apply (Hall ltac:(discriminate) top_grasp); left
         | apply (Hall ltac:(discriminate) side_grasp); right; left].
Defined.

Lemma pose_index_in_range_witness :
  (_compute_metrics unit_object yumi config None (Some "wr") true
     (world_of dataset_with_grasps)).1 ≠ Raise IndexError.
Proof.
  apply (pose_index_in_range (Spec := GraspQualityConfig)).
  - intros spec. discriminate.
  - intros obj cfg. simpl. by destruct (_ || _).
  - intros obj cfg fn g. simpl. destruct (_ || _); [| discriminate].
    intros [= <-]. discriminate.
Defined.

Lemma resume_skips_stored_metrics_witness :
  trace (fold_loop (grasp_body unit_object yumi config false [flat_pose] 0 1 "fc"
                      force_closure_config half)
           (enumerate [top_grasp]) ∅ (world_of dataset_with_metrics)).2
  = [EvGraspMetrics "mug" 0 "yumi"].
Proof.
  assert (Hrate : metric_display_rate config ≠ 0%Z) by (simpl; lia).
  refine (proj1 (proj2 (resume_skips_stored_metrics unit_object yumi config [flat_pose] 0 1
                          "fc" force_closure_config half [top_grasp] ∅
                          (world_of dataset_with_metrics) dataset_with_metrics
                          Hrate eq_refl eq_refl _))).
  intros g ->%list_elem_of_singleton. apply (bool_decide_unpack _). by vm_compute.
Defined.

Lemma deep_update_by_key_witness :
  ∃ d', _deep_update_config defaults updates = Ok (Mapping d')
        ∧ dict_get d' "cache_dir" = Some (Leaf 0%Z)
        ∧ dict_get d' "max_stable_poses" = Some (Leaf 3%Z).
Proof.
  destruct (_deep_update_config defaults updates) as [c' | e] eqn:E;
    [| vm_compute in E; discriminate E].
  unfold defaults, updates in E.
  assert (Hnd : NoDup ["metrics"; "max_stable_poses"])
    by (apply (bool_decide_unpack _); by vm_compute).
  match type of E with
  | _deep_update_config (Mapping ?d) (Mapping ?u) = _ =>
      destruct (deep_update_by_key d u c' Hnd E) as (d' & -> & Hlook)
  end.
  exists d'. split; [done |]. split.
  - exact (Hlook "cache_dir").
  - exact (Hlook "max_stable_poses").
Defined.

Lemma deep_update_keys_witness :
  ∃ d', _deep_update_config defaults updates = Ok (Mapping d')
        ∧ is_Some (dict_get d' "metrics") ∧ is_Some (dict_get d' "max_stable_poses").
Proof.
  destruct (_deep_update_config defaults updates) as [c' | e] eqn:E;
    [| vm_compute in E; discriminate E].
  unfold defaults, updates in E.
  assert (Hnd : NoDup ["metrics"; "max_stable_poses"])
    by (apply (bool_decide_unpack _); by vm_compute).
  match type of E with
  | _deep_update_config (Mapping ?d) (Mapping ?u) = _ =>
      destruct (deep_update_keys d u c' Hnd E) as (d' & -> & Hkeys)
  end.
  exists d'. split; [done |]. split; apply Hkeys; [left | right]; by eexists.
Defined.

Lemma flat_update_assigns_witness :
  _deep_update_config defaults (Mapping [("cache_dir", Leaf 7%Z)])
  = Ok (Mapping [("cache_dir", Leaf 7%Z);
                 ("metrics", Mapping [("fc", Mapping [("friction_coef", Leaf 5%Z)])])]).
Proof.
  unfold defaults.
  rewrite (flat_update_assigns
             [("cache_dir", Leaf 0%Z);
              ("metrics", Mapping [("fc", Mapping [("friction_coef", Leaf 5%Z)])])]
             [("cache_dir", Leaf 7%Z)]); [reflexivity |].
  repeat constructor. by eexists.
Defined.

Lemma mapping_over_leaf_witness :
  _deep_update_config defaults (Mapping [("cache_dir", Mapping [])]) = Ok defaults
  ∧ (_deep_update_config defaults (Mapping [("cache_dir", Mapping [("dir", Leaf 1%Z)])])
     = Raise no_item_assignment
     ∨ _deep_update_config defaults (Mapping [("cache_dir", Mapping [("dir", Leaf 1%Z)])])
       = Raise no_get).
Proof.
  destruct (mapping_over_leaf
              [("cache_dir", Leaf 0%Z);
               ("metrics", Mapping [("fc", Mapping [("friction_coef", Leaf 5%Z)])])]
              [("cache_dir", Mapping [("dir", Leaf 1%Z)])] "cache_dir" 0%Z
              [("dir", Leaf 1%Z)] eq_refl) as [Hempty Hfull].
  unfold defaults. split; [exact Hempty |]. apply Hfull; [| left | discriminate].
  apply (bool_decide_unpack _). by vm_compute.
Defined.

Lemma deep_update_failures_witness :
  _deep_update_config (Leaf 1%Z) (Leaf 2%Z) = Raise no_iteritems
  ∧ _deep_update_config (Leaf 1%Z) (Mapping []) = Ok (Leaf 1%Z).
Proof.
  split.
  - destruct (_deep_update_config (Leaf 1%Z) (Leaf 2%Z)) as [c | e] eqn:E;
      [vm_compute in E; discriminate E |].
    by rewrite (proj1 (deep_update_failures (Leaf 1%Z) (Leaf 2%Z) e) E).
  - exact (proj2 (deep_update_failures (Leaf 1%Z) (Leaf 2%Z) no_get)).
Defined.

Lemma deep_update_idempotent_witness :
  match _deep_update_config defaults updates with
  | Ok c' => _deep_update_config c' updates = Ok c'
  | Raise _ => False
  end.
Proof.
  destruct (_deep_update_config defaults updates) as [c' | e] eqn:E;
    [| vm_compute in E; discriminate E].
  refine (proj1 (deep_update_idempotent defaults updates c' _ E)).
  simpl. repeat split; try (apply (bool_decide_unpack _); by vm_compute).
Defined.

Lemma export_filters_pass_iff_witness :
  pass_filters_loop (ds_object_metadata dataset_two_objects "mug") [one_component] true
  = true.
Proof.
  apply (proj1 (export_filters_pass_iff
                  (ds_object_metadata dataset_two_objects "mug")
                  [one_component] [one_component])).
  intros n f Hin. apply list_elem_of_singleton in Hin. unfold one_component in Hin.
  injection Hin as -> ->. exists 1. split; by vm_compute.
Defined.

Lemma export_writes_selected_objects_witness :
  export_objects (world_of dataset_two_objects) false "out" [one_component] None
    (ExportConfig "urdf" 1 true)
  = ([CallMakedirs "out"; CallStlMeshFilename "mug" 1 "out" true], Ok tt).
Proof.
  rewrite (export_writes_selected_objects (V := Q) (world_of dataset_two_objects) 0%nat
             dataset_two_objects false "out" [one_component] None
             (ExportConfig "urdf" 1 true) eq_refl eq_refl).
  - by vm_compute.
  - apply (bool_decide_unpack _). by vm_compute.
Defined.

Lemma export_unsupported_format_witness :
  (export_objects (world_of dataset_two_objects) true "out" [one_component] (Some ["bar"])
     (ExportConfig "dae" 1 true)).2 = Ok tt
  ∧ (export_objects (world_of dataset_two_objects) true "out" [one_component] None
       (ExportConfig "dae" 1 true)).2
    = Raise (ValueError "Export format dae not supported").
Proof.
  assert (Hfmt : "dae" ∉ ["obj"; "stl"; "urdf"])
    by (apply (bool_decide_unpack _); by vm_compute).
  split.
  - apply (export_unsupported_format (V := Q) (world_of dataset_two_objects) 0%nat
             dataset_two_objects true "out" [one_component] (Some ["bar"])
             (ExportConfig "dae" 1 true) eq_refl eq_refl Hfmt).
    apply (bool_decide_unpack _). by vm_compute.
  - apply (export_unsupported_format (V := Q) (world_of dataset_two_objects) 0%nat
             dataset_two_objects true "out" [one_component] None
             (ExportConfig "dae" 1 true) eq_refl eq_refl Hfmt).
    apply (bool_decide_unpack _). by vm_compute.
Defined.

Lemma sampling_skips_existing_grasps_witness :
  dataset (for_each (sample_pair (sampling_config "uniform") false None yumi) ["mug"]
             (world_of dataset_with_grasps)).2
  = Some dataset_with_grasps.
Proof.
  refine (proj1 (proj2 (sampling_skips_existing_grasps (sampling_config "uniform") None
                          yumi ["mug"] (world_of dataset_with_grasps) dataset_with_grasps
                          eq_refl _))).
  intros o ->%list_elem_of_singleton. by vm_compute.
Defined.

Lemma sampling_replaces_grasps_witness :
  (sample_pair (sampling_config "uniform") true None yumi "mug"
     (world_of dataset_with_grasps)).1 = Ok tt
  ∧ (sample_pair (sampling_config "antipodal") true None yumi "mug"
       (world_of dataset_with_grasps)).1
    = Raise (ValueError "Gripper type parallel_jaw not supported!")
  ∧ dataset (sample_pair (sampling_config "antipodal") true None yumi "mug"
               (world_of dataset_with_grasps)).2
    = Some dataset_without_grasps.
Proof.
  pose proof (sampling_replaces_grasps (sampling_config "uniform") true None yumi "mug"
                (world_of dataset_with_grasps) dataset_with_grasps 0%nat eq_refl eq_refl
                (or_intror eq_refl)) as Hgood.
  pose proof (sampling_replaces_grasps (sampling_config "antipodal") true None yumi "mug"
                (world_of dataset_with_grasps) dataset_with_grasps 0%nat eq_refl eq_refl
                (or_intror eq_refl)) as Hbad.
  cbv zeta in Hgood, Hbad.
  split; [exact (proj1 Hgood) |]. split; [exact (proj1 Hbad) |].
  rewrite (proj1 (proj2 Hbad)). by vm_compute.
Defined.

Lemma sampler_dispatch_witness :
  _single_obj_grasps dataset_with_grasps unit_object yumi (sampling_config "antipodal") None
  = Raise (ValueError "Gripper type parallel_jaw not supported!")
  ∧ _single_obj_grasps dataset_with_grasps unit_object yumi (sampling_config "gaussian") None
    = Sampling.generate_grasps Sampling.GaussianGraspSampler yumi
        (sampling_config "gaussian") unit_object.
Proof.
  split.
  - apply (proj1 (sampler_dispatch (S := list toy_grasp) dataset_with_grasps unit_object yumi
                    (sampling_config "antipodal") None)).
    apply (bool_decide_unpack _). by vm_compute.
  - apply (proj2 (sampler_dispatch (S := list toy_grasp) dataset_with_grasps unit_object yumi
                    (sampling_config "gaussian") None)
             Sampling.GaussianGraspSampler "gaussian"); [| reflexivity].
    do 2 right. left.
Defined.

End FurtherRuns.
